(** * Summarizer: the schema cleaner, the extractor, the pipeline and the
      file name of the report

    A shallow embedding of [main.py] and [counter.py].  Python values that a
    JSON schema is made of are the trees of [json]; a Python [dict] is an
    association list in insertion order, written to with [dict_set] the way
    [cleaned[k] = v] writes; an exception is the [Raise] branch of [result].
    [clean_schema] is given twice: as a function on trees, and as a program
    on a store of objects, where one sees what a call reads, allocates and
    writes.  What the run finds outside the sources (files, environment
    variables, the generation API, the libraries) is a parameter.  In
    [Schema], [Heap] and [Pipeline] the stack is unbounded; [Bounded] and
    [HeapBounded] give the same code under the recursion limit of the
    interpreter, and agree with it on the trees the limit allows. *)

From Stdlib Require Import List String Ascii ZArith NArith Bool Lia PeanoNat.
From Stdlib Require Import DecimalString.
Import ListNotations.
Local Open Scope string_scope.
Local Open Scope list_scope.

(** ** Python values *)

Module Py.

(** The values a schema tree holds.  [JFloat] carries the IEEE-754 bit
    pattern of the float; [clean_schema] never looks inside a number. *)
Unset Elimination Schemes.
Inductive json : Type :=
| JNone
| JBool (b : bool)
| JInt (z : Z)
| JFloat (bits : Z)
| JStr (s : string)
| JList (l : list json)
| JDict (d : list (string * json)).
Set Elimination Schemes.

Definition dict := list (string * json).

(** An exception: its class and the text [str(e)] gives.  Every class here
    is a subclass of [Exception]. *)
Inductive exn_class : Type :=
| TypeError
| AttributeError
| RuntimeError
| FileNotFoundError
| ValidationError
| BlockedPromptException
| OtherException (name : string).

Record exn : Type := mk_exn { class : exn_class; message : string }.

Inductive result (A : Type) : Type :=
| Ok (a : A)
| Raise (e : exn).
Arguments Ok {A} a.
Arguments Raise {A} e.

Definition bind {A B} (r : result A) (k : A -> result B) : result B :=
  match r with
  | Ok a => k a
  | Raise e => Raise e
  end.

Notation "x <- r ;; k" := (bind r (fun x => k))
  (at level 61, r at next level, right associativity).

(** Induction over [json] with the hypotheses for the elements of a list
    and for the values of a dict. *)
Section Induction.
Variable P : json -> Prop.
Hypothesis HNone : P JNone.
Hypothesis HBool : forall b, P (JBool b).
Hypothesis HInt : forall z, P (JInt z).
Hypothesis HFloat : forall bits, P (JFloat bits).
Hypothesis HStr : forall s, P (JStr s).
Hypothesis HList : forall l, Forall P l -> P (JList l).
Hypothesis HDict : forall d, Forall (fun kv => P (snd kv)) d -> P (JDict d).

Fixpoint json_ind (t : json) : P t :=
  match t with
  | JNone => HNone
  | JBool b => HBool b
  | JInt z => HInt z
  | JFloat bits => HFloat bits
  | JStr s => HStr s
  | JList l =>
      HList l
        ((fix elems (l : list json) : Forall P l :=
            match l with
            | [] => Forall_nil P
            | x :: l' => Forall_cons x (json_ind x) (elems l')
            end) l)
  | JDict d =>
      HDict d
        ((fix values (d : dict) : Forall (fun kv => P (snd kv)) d :=
            match d with
            | [] => Forall_nil _
            | kv :: d' =>
                Forall_cons (P := fun kv => P (snd kv)) kv
                  (json_ind (snd kv)) (values d')
            end) d)
  end.
End Induction.

(** *** Dict operations *)

Section Dict.
Context {V : Type}.
Implicit Type d : list (string * V).

(** [k in d] *)
Fixpoint dict_mem (k : string) d : bool :=
  match d with
  | [] => false
  | (k', _) :: d' => if String.eqb k' k then true else dict_mem k d'
  end.

(** [d.get(k)]: [None] when the key is absent. *)
Fixpoint dict_get (k : string) d : option V :=
  match d with
  | [] => None
  | (k', v) :: d' => if String.eqb k' k then Some v else dict_get k d'
  end.

(** [d[k] = v]: a key already present keeps its place and takes the new
    value, a new key goes to the end. *)
Fixpoint dict_set (k : string) (v : V) d : list (string * V) :=
  match d with
  | [] => [(k, v)]
  | (k', v') :: d' =>
      if String.eqb k' k then (k, v) :: d' else (k', v') :: dict_set k v d'
  end.
End Dict.

(** [k in names], for a list of strings. *)
Definition str_in (k : string) (names : list string) : bool :=
  existsb (String.eqb k) names.

(** A dict of Python has no key twice; the same holds below it. *)
Fixpoint nodupb (ks : list string) : bool :=
  match ks with
  | [] => true
  | k :: ks' => negb (str_in k ks') && nodupb ks'
  end.

Fixpoint wf_json (t : json) : bool :=
  match t with
  | JList l => forallb wf_json l
  | JDict d => nodupb (map fst d) && forallb (fun kv => wf_json (snd kv)) d
  | _ => true
  end.

End Py.

(** ** main.py: [clean_schema] *)

Module Schema.
Import Py.

(** The keys dropped inside a branch of a union (line 75) and on the copy
    path (line 79). *)
Definition branch_excluded : list string := ["title"; "description"].
Definition copy_excluded : list string :=
  ["title"; "description"; "$ref"; "$defs"].

(** [item.get('type') == 'null'] *)
Definition is_null_branch (item : dict) : bool :=
  match dict_get "type" item with
  | Some (JStr s) => String.eqb s "null"
  | _ => false
  end.

(** The loop [for k, v in items: if k not in excluded: cleaned[k] = rec(v)]
    of lines 74-76 and 78-80, over the dict being built. *)
Definition copy_items (rec : json -> result json) (excluded : list string)
  : dict -> dict -> result dict :=
  fix copy (items : dict) (cleaned : dict) : result dict :=
    match items with
    | [] => Ok cleaned
    | (k, v) :: items' =>
        if str_in k excluded then copy items' cleaned
        else v' <- rec v ;; copy items' (dict_set k v' cleaned)
    end.

(** [type(x).__name__] *)
Definition type_name (t : json) : string :=
  match t with
  | JNone => "NoneType"
  | JBool _ => "bool"
  | JInt _ => "int"
  | JFloat _ => "float"
  | JStr _ => "str"
  | JList _ => "list"
  | JDict _ => "dict"
  end.

Definition no_get (type : string) : exn :=
  mk_exn AttributeError ("'" ++ type ++ "' object has no attribute 'get'").
Definition not_iterable (type : string) : exn :=
  mk_exn TypeError ("'" ++ type ++ "' object is not iterable").

(** The loop [for item in schema['anyOf']] of lines 69-76 over a list.  An
    item that is not a dict has no [get]. *)
Definition flatten_branches (rec : json -> result json)
  : list json -> dict -> result dict :=
  fix branches (items : list json) (cleaned : dict) : result dict :=
    match items with
    | [] => Ok cleaned
    | JDict item :: items' =>
        if is_null_branch item
        then branches items' (dict_set "nullable" (JBool true) cleaned)
        else cleaned' <- copy_items rec branch_excluded item cleaned ;;
             branches items' cleaned'
    | item :: _ => Raise (no_get (type_name item))
    end.

(** Lines 69-76 for any value under ['anyOf'].  Iterating a dict yields its
    keys and iterating a string its characters, which are strings and have
    no [get]; the other scalars are not iterable. *)
Definition flatten_union (rec : json -> result json) (any_of : json)
  : result dict :=
  match any_of with
  | JList items => flatten_branches rec items []
  | JDict [] => Ok []
  | JDict (_ :: _) => Raise (no_get "str")
  | JStr EmptyString => Ok []
  | JStr (String _ _) => Raise (no_get "str")
  | JNone | JBool _ | JInt _ | JFloat _ => Raise (not_iterable (type_name any_of))
  end.

(** [schema['anyOf']] handed to [found], or [missing] when the key is
    absent: the test of line 67 and the lookup of line 69 in one pass. *)
Definition on_key {B} (k : string) (found : json -> B) (missing : B)
  : dict -> B :=
  fix look (d : dict) : B :=
    match d with
    | [] => missing
    | (k', v) :: d' => if String.eqb k' k then found v else look d'
    end.

(** The comprehension [[rec(elem) for elem in schema]] of line 83. *)
Definition for_each (rec : json -> result json)
  : list json -> result (list json) :=
  fix each (l : list json) : result (list json) :=
    match l with
    | [] => Ok []
    | elem :: l' =>
        e' <- rec elem ;;
        r' <- each l' ;;
        Ok (e' :: r')
    end.

(** Lines 60-85. *)
Fixpoint clean_schema (schema : json) : result json :=
  match schema with
  | JDict d =>
      cleaned <- on_key "anyOf"
                   (fun any_of => flatten_union clean_schema any_of)
                   (copy_items clean_schema copy_excluded d [])
                   d ;;
      Ok (JDict cleaned)
  | JList l =>
      l' <- for_each clean_schema l ;;
      Ok (JList l')
  | _ => Ok schema
  end.

(** *** What the statements about [clean_schema] speak of *)

(** The copy of a tree without the metadata keys of line 79, at every
    level: the words of the specification, not the code. *)
Definition drop_keys (rec : json -> json) (excluded : list string)
  : dict -> dict :=
  fix drop (d : dict) : dict :=
    match d with
    | [] => []
    | (k, v) :: d' =>
        if str_in k excluded then drop d' else (k, rec v) :: drop d'
    end.

Fixpoint without_metadata (t : json) : json :=
  match t with
  | JDict d => JDict (drop_keys without_metadata copy_excluded d)
  | JList l => JList (map without_metadata l)
  | _ => t
  end.

(** Some dict of the tree has the key [k]. *)
Fixpoint has_key (k : string) (t : json) : bool :=
  match t with
  | JDict d => dict_mem k d || existsb (fun kv => has_key k (snd kv)) d
  | JList l => existsb (has_key k) l
  | _ => false
  end.

(** A tree without a union node. *)
Definition union_free (t : json) : bool := negb (has_key "anyOf" t).

(** A branch of a union that is not the null branch carries none of the
    keys [ks]. *)
Definition branch_avoids (ks : list string) (item : json) : bool :=
  match item with
  | JDict it =>
      is_null_branch it || forallb (fun k => negb (dict_mem k it)) ks
  | _ => true
  end.

(** The same of every union node of the tree. *)
Fixpoint branches_avoid (ks : list string) (t : json) : bool :=
  match t with
  | JDict d =>
      match dict_get "anyOf" d with
      | Some (JList items) => forallb (branch_avoids ks) items
      | _ => true
      end
      && forallb (fun kv => branches_avoid ks (snd kv)) d
  | JList l => forallb (branches_avoid ks) l
  | _ => true
  end.

(** [isinstance(t, dict)] *)
Definition is_dict (t : json) : bool :=
  match t with
  | JDict _ => true
  | _ => false
  end.

(** A schema tree: wherever a dict has the key ['anyOf'], a list of dicts
    stands under it. *)
Fixpoint schema_shaped (t : json) : bool :=
  match t with
  | JDict d =>
      match dict_get "anyOf" d with
      | Some (JList items) => forallb is_dict items
      | Some _ => false
      | None => true
      end
      && forallb (fun kv => schema_shaped (snd kv)) d
  | JList l => forallb schema_shaped l
  | _ => true
  end.

(** Positions in a tree. *)
Inductive step : Type :=
| Key (k : string)
| Index (i : nat).

Definition child (s : step) (t : json) : option json :=
  match s, t with
  | Key k, JDict d => dict_get k d
  | Index i, JList l => nth_error l i
  | _, _ => None
  end.

Fixpoint at_path (p : list step) (t : json) : option json :=
  match p with
  | [] => Some t
  | s :: p' =>
      match child s t with
      | Some t' => at_path p' t'
      | None => None
      end
  end.

(** The step is one the copy path of lines 78-80 and 83 keeps in place: an
    index of a list, or a key of a dict without ['anyOf'] that is not one of
    the dropped keys. *)
Definition kept_step (s : step) (t : json) : bool :=
  match s, t with
  | Key k, JDict d => negb (dict_mem "anyOf" d) && negb (str_in k copy_excluded)
  | Index _, JList _ => true
  | _, _ => false
  end.

Fixpoint kept_path (p : list step) (t : json) : bool :=
  match p with
  | [] => true
  | s :: p' =>
      kept_step s t &&
      match child s t with
      | Some t' => kept_path p' t'
      | None => false
      end
  end.

(** A union of exactly two branches, the real type [real] and a null
    branch, in either order. *)
Definition optional_union (d real : dict) : Prop :=
  is_null_branch real = false /\
  exists null : dict,
    is_null_branch null = true /\
    (dict_get "anyOf" d = Some (JList [JDict real; JDict null]) \/
     dict_get "anyOf" d = Some (JList [JDict null; JDict real])).

(** *** What the proofs speak of *)

(** [P] holds of the values of the branches of a union, the trees the
    recursive calls of lines 74-76 are on, when [t] is the list under
    ['anyOf']. *)
Definition below_branches (P : json -> Prop) (t : json) : Prop :=
  match t with
  | JList items =>
      Forall (fun item =>
                match item with
                | JDict it => Forall (fun kv => P (snd kv)) it
                | _ => True
                end) items
  | _ => True
  end.

(** [P] holds of the trees right below [t], a union or a branch. *)
Definition below (P : json -> Prop) (t : json) : Prop :=
  match t with
  | JDict it => Forall (fun kv => P (snd kv)) it
  | _ => below_branches P t
  end.

(** What a branch writes: a null branch the key ['nullable'], another
    branch its own keys but the excluded ones. *)
Definition branch_writes (k : string) (item : json) : bool :=
  match item with
  | JDict it =>
      if is_null_branch it then String.eqb "nullable" k
      else dict_mem k it && negb (str_in k branch_excluded)
  | _ => false
  end.

(** One of the five keys the cleaner is about. *)
Definition cleaned_key (k : string) : bool :=
  String.eqb k "anyOf" || str_in k copy_excluded.

(** The key [k] cannot come out of a branch of a union of [s]. *)
Definition not_from_branch (k : string) (s : json) : bool :=
  str_in k branch_excluded || branches_avoid [k] s.

(** [isinstance(t, list)] *)
Definition is_list (t : json) : bool :=
  match t with
  | JList _ => true
  | _ => false
  end.

(** *** Schemas to try the statements on *)

(** The schema of an optional float field as the schema reflection gives
    it, inside the object schema the pipeline builds at lines 118-123. *)
Definition null_type : dict := [("type", JStr "null")].
Definition number_type : dict := [("type", JStr "number")].
Definition revenue_field : dict :=
  [("anyOf", JList [JDict number_type; JDict null_type]);
   ("default", JNone);
   ("description", JStr "Total revenue for the fiscal year (in USD)");
   ("title", JStr "Total Revenue")].
Definition report_schema : json :=
  JDict [("type", JStr "object");
         ("properties", JDict [("total_revenue", JDict revenue_field)]);
         ("required", JList [JStr "company_name"; JStr "cik"])].

(** A real type that is the second branch of its union and has the keys
    ['nullable'] and ['anyOf'] of its own. *)
Definition constrained_string : dict :=
  [("type", JStr "string");
   ("nullable", JBool false);
   ("anyOf", JList [JDict [("minLength", JInt 1)];
                    JDict [("pattern", JStr "^$")]])].
Definition optional_constrained_string : dict :=
  [("anyOf", JList [JDict null_type; JDict constrained_string])].

(** A schema with an optional reference to a sub-model. *)
Definition address_ref : dict := [("$ref", JStr "#/$defs/Address")].
Definition optional_address : json :=
  JDict [("anyOf", JList [JDict address_ref; JDict null_type])].
Definition string_type : dict := [("type", JStr "string")].
Definition company_schema : json :=
  JDict [("type", JStr "object");
         ("properties",
          JDict [("company_name",
                  JDict [("description", JStr "Name of the company");
                         ("title", JStr "Company Name");
                         ("type", JStr "string")]);
                 ("risk_factors",
                  JDict [("items", JDict string_type);
                         ("type", JStr "array")])]);
         ("required", JList [JStr "company_name"])].

Definition address_ref_titled : dict :=
  [("$ref", JStr "#/$defs/Address"); ("title", JStr "Address")].

End Schema.

(** ** Strings *)

Module Text.

(** [s.replace(old, new)]: the occurrences of [old] are taken from the
    left and do not overlap.  [skip] counts the characters of an occurrence
    still to be passed over. *)
Fixpoint replace_from (old new : string) (skip : nat) (s : string) : string :=
  match s with
  | EmptyString => EmptyString
  | String c s' =>
      match skip with
      | S n => replace_from old new n s'
      | O =>
          if prefix old s
          then new ++ replace_from old new (String.length old - 1) s'
          else String c (replace_from old new 0 s')
      end
  end.

(** With an empty [old], [new] goes before every character and at the
    end. *)
Fixpoint interleave (new s : string) : string :=
  match s with
  | EmptyString => new
  | String c s' => new ++ String c (interleave new s')
  end.

Definition replace (old new s : string) : string :=
  match old with
  | EmptyString => interleave new s
  | String _ _ => replace_from old new 0 s
  end.

(** [str(n)] for an integer. *)
Definition str_of_N (n : N) : string := NilEmpty.string_of_uint (N.to_uint n).
Definition str_of_Z (z : Z) : string := NilZero.string_of_int (Z.to_int z).

(** The same function applied to every character: what the specification
    says of the file name. *)
Fixpoint map_chars (f : ascii -> ascii) (s : string) : string :=
  match s with
  | EmptyString => EmptyString
  | String c s' => String (f c) (map_chars f s')
  end.

Definition newline : string := String (ascii_of_nat 10) EmptyString.

End Text.

(** ** main.py: the record and the name of the report *)

Module Report.
Import Py Text.

(** A float, as its IEEE-754 bit pattern. *)
Definition float := Z.

Record datetime : Type :=
  { year : N; month : N; day : N;
    hour : N; minute : N; second : N; microsecond : N }.

(** Lines 42-57. *)
Record AnnualReport : Type :=
  { company_name : string;
    cik : string;
    fiscal_year_end : datetime;
    filing_date : datetime;
    total_revenue : option float;
    net_income : option float;
    total_assets : option float;
    total_liabilities : option float;
    operating_cash_flow : option float;
    cash_and_equivalents : option float;
    num_employees : option Z;
    auditor : option string;
    business_description : option string;
    risk_factors : option (list string);
    management_discussion : option string }.

(** Lines 191-192. *)
Definition filename (ar : AnnualReport) : string :=
  let company := replace "/" "_" (replace " " "_" (company_name ar)) in
  "annual_report_" ++ company ++ "_" ++ str_of_N (year (fiscal_year_end ar))
  ++ ".pdf".

(** The replacement the specification describes: a space or a slash
    becomes an underscore, any other character stays. *)
Definition underscored (c : ascii) : ascii :=
  if (Ascii.eqb c " " || Ascii.eqb c "/")%bool then "_"%char else c.

(** The record of the example of the specification. *)
Definition meta_2024 : AnnualReport :=
  {| company_name := "Meta Platforms, Inc.";
     cik := "0001326801";
     fiscal_year_end :=
       {| year := 2024; month := 12; day := 31;
          hour := 0; minute := 0; second := 0; microsecond := 0 |};
     filing_date :=
       {| year := 2025; month := 1; day := 30;
          hour := 0; minute := 0; second := 0; microsecond := 0 |};
     total_revenue := None; net_income := None; total_assets := None;
     total_liabilities := None; operating_cash_flow := None;
     cash_and_equivalents := None; num_employees := None; auditor := None;
     business_description := None; risk_factors := None;
     management_discussion := None |}.

End Report.

(** ** The validator *)

Module Validator.
Import Py Text Report.

Inductive validation_error : Type :=
| JsonInvalid
| ModelType
| Missing (field : string)
| Invalid (field : string).

Inductive checked (A : Type) : Type :=
| Good (a : A)
| Bad (errors : list validation_error).
Arguments Good {A} a.
Arguments Bad {A} errors.

(** The errors of the fields add up, in the order of the fields. *)
Definition ap {A B} (f : checked (A -> B)) (x : checked A) : checked B :=
  match f, x with
  | Good g, Good a => Good (g a)
  | Good _, Bad e => Bad e
  | Bad e, Good _ => Bad e
  | Bad e1, Bad e2 => Bad (e1 ++ e2)
  end.

Notation "f <*> x" := (ap f x) (at level 40, left associativity).

Definition errors_of {A} (c : checked A) : list validation_error :=
  match c with
  | Good _ => []
  | Bad e => e
  end.

(** Modelled from the spec: the validation of a field declared with
    [Field(...)], which the validation library does.  The field is required:
    its absence is an error that names it. *)
Definition required {A} (conv : json -> option A) (name : string) (d : dict)
  : checked A :=
  match dict_get name d with
  | None => Bad [Missing name]
  | Some v =>
      match conv v with
      | Some a => Good a
      | None => Bad [Invalid name]
      end
  end.

(** Modelled from the spec: the validation of a field declared [Optional]
    with [Field(None)], which the validation library does.  The field may be
    absent or null. *)
Definition optional {A} (conv : json -> option A) (name : string) (d : dict)
  : checked (option A) :=
  match dict_get name d with
  | None | Some JNone => Good None
  | Some v =>
      match conv v with
      | Some a => Good (Some a)
      | None => Bad [Invalid name]
      end
  end.

Definition str_of_json (v : json) : option string :=
  match v with
  | JStr s => Some s
  | _ => None
  end.

Fixpoint strs_of (l : list json) : option (list string) :=
  match l with
  | [] => Some []
  | JStr s :: l' =>
      match strs_of l' with
      | Some r => Some (s :: r)
      | None => None
      end
  | _ :: _ => None
  end.

Definition str_list_of_json (v : json) : option (list string) :=
  match v with
  | JList l => strs_of l
  | _ => None
  end.


Section Validate.
(** The JSON parser and the conversions of a JSON value to a date, a float
    and an integer belong to the validation library. *)
Variable parse_json : string -> option json.
Variable datetime_of_json : json -> option datetime.
Variable float_of_json : json -> option float.
Variable int_of_json : json -> option Z.

(** Modelled from the spec: the validation of the fields of lines 43-57,
    which the validation library does from the declaration of the class. *)
Definition validate_object (d : dict) : checked AnnualReport :=
  Good Build_AnnualReport
  <*> required str_of_json "company_name" d
  <*> required str_of_json "cik" d
  <*> required datetime_of_json "fiscal_year_end" d
  <*> required datetime_of_json "filing_date" d
  <*> optional float_of_json "total_revenue" d
  <*> optional float_of_json "net_income" d
  <*> optional float_of_json "total_assets" d
  <*> optional float_of_json "total_liabilities" d
  <*> optional float_of_json "operating_cash_flow" d
  <*> optional float_of_json "cash_and_equivalents" d
  <*> optional int_of_json "num_employees" d
  <*> optional str_of_json "auditor" d
  <*> optional str_of_json "business_description" d
  <*> optional str_list_of_json "risk_factors" d
  <*> optional str_of_json "management_discussion" d.

(** Modelled from the spec: [AnnualReport.model_validate_json] of line 146,
    which the validation library provides and the sources do not contain.
    The string is parsed; a string that does not parse fails as a malformed
    payload; the fields of lines 43-57 are then validated against their
    types and required-ness, and a field that does not conform is named in
    the failure. *)
Definition model_validate_json (raw : string) : checked AnnualReport :=
  match parse_json raw with
  | None => Bad [JsonInvalid]
  | Some (JDict d) => validate_object d
  | Some _ => Bad [ModelType]
  end.

End Validate.







End Validator.

(** ** Programs: output, exceptions and [exit()] *)

Module Program.
Import Py.

(** What a run does to the world outside. *)
Inductive event : Type :=
| Printed (line : string)
| Configured (api_key : string)
| Generated (model prompt : string) (schema : json)
| PdfWritten (filename html : string).

(** How a piece of program ends.  [exit()] raises [SystemExit], which is
    not an [Exception] and which no handler of the sources catches. *)
Inductive outcome (A : Type) : Type :=
| Returns (a : A)
| Raises (e : exn)
| Exits.
Arguments Returns {A} a.
Arguments Raises {A} e.
Arguments Exits {A}.

Definition prog (A : Type) : Type := (list event * outcome A)%type.

Definition ret {A} (a : A) : prog A := ([], Returns a).
Definition raise {A} (e : exn) : prog A := ([], Raises e).
Definition exit {A} : prog A := ([], Exits).
Definition print (line : string) : prog unit := ([Printed line], Returns tt).
Definition emit (e : event) : prog unit := ([e], Returns tt).

Definition lift {A} (r : result A) : prog A :=
  match r with
  | Ok a => ret a
  | Raise e => raise e
  end.

Definition then_ {A B} (p : prog A) (k : A -> prog B) : prog B :=
  match p with
  | (tr, Returns a) => let (tr', o) := k a in (tr ++ tr', o)
  | (tr, Raises e) => (tr, Raises e)
  | (tr, Exits) => (tr, Exits)
  end.

Notation "x <~ p ;; k" := (then_ p (fun x => k))
  (at level 61, p at next level, right associativity).
Notation "p ;;; k" := (then_ p (fun _ => k))
  (at level 61, right associativity).

(** [try: body except Exception as e: handler(e)] *)
Definition try_except {A} (body : prog A) (handler : exn -> prog A) : prog A :=
  match body with
  | (tr, Raises e) => let (tr', o) := handler e in (tr ++ tr', o)
  | other => other
  end.

(** The run reached the generation API. *)
Definition is_api_call (e : event) : bool :=
  match e with
  | Configured _ | Generated _ _ _ => true
  | _ => false
  end.

End Program.

(** ** The extractor *)

Module Extractor.
Import Py Program.

(** What [page.extract_text()] does for a page: it returns text, it returns
    [None], or it raises. *)
Inductive page : Type :=
| Text (s : string)
| NoText
| Unreadable (e : exn).

(** What [PyPDF2.PdfReader(f)] makes of the content of a file. *)
Inductive document : Type :=
| Corrupt (e : exn)
| Pages (pages : list page).

(** What [open(path, 'rb')] does: the file is missing, it is there and
    cannot be opened, or it opens. *)
Inductive file : Type :=
| NoSuchFile
| Unopenable (e : exn)
| Opens (doc : document).

Definition filesystem : Type := string -> file.

(** [repr(s)] for a string: between single quotes, or between double
    quotes when the string has a single quote and no double quote; the
    quote in use and the backslash are escaped, and so are the control
    characters.  The characters above 127 are taken to be printable. *)
Definition has_char (c : ascii) (s : string) : bool :=
  existsb (Ascii.eqb c) (list_ascii_of_string s).

Definition single_quote : ascii := ascii_of_nat 39.
Definition double_quote : ascii := ascii_of_nat 34.
Definition backslash : ascii := ascii_of_nat 92.

Definition repr_quote (s : string) : ascii :=
  if has_char single_quote s && negb (has_char double_quote s)
  then double_quote else single_quote.

Definition hex_digit (n : nat) : ascii :=
  nth n (list_ascii_of_string "0123456789abcdef") "0"%char.

Definition escaped (q c : ascii) : string :=
  let n := nat_of_ascii c in
  if Ascii.eqb c q || Ascii.eqb c backslash
  then String backslash (String c "")
  else if Nat.eqb n 9 then String backslash "t"
  else if Nat.eqb n 10 then String backslash "n"
  else if Nat.eqb n 13 then String backslash "r"
  else if Nat.ltb n 32 || Nat.eqb n 127
  then String backslash
         (String "x" (String (hex_digit (n / 16))
                        (String (hex_digit (n mod 16)) "")))
  else String c "".

Definition repr (s : string) : string :=
  let q := repr_quote s in
  String q (String.concat "" (map (escaped q) (list_ascii_of_string s))
            ++ String q "").

(** What [open] raises for a missing file; the message ends with the
    [repr] of the path. *)
Definition file_not_found (path : string) : exn :=
  mk_exn FileNotFoundError
    ("[Errno 2] No such file or directory: " ++ repr path).

Definition extract_text (p : page) : result (option string) :=
  match p with
  | Text s => Ok (Some s)
  | NoText => Ok None
  | Unreadable e => Raise e
  end.

(** [x or ""] *)
Definition or_empty (x : option string) : string :=
  match x with
  | Some (String c s) => String c s
  | Some EmptyString | None => EmptyString
  end.

(** [""].join(page.extract_text() or "" for page in reader.pages)] *)
Fixpoint join_pages (pages : list page) : result string :=
  match pages with
  | [] => Ok EmptyString
  | p :: pages' =>
      t <- extract_text p ;;
      rest <- join_pages pages' ;;
      Ok (or_empty t ++ rest)%string
  end.

(** The body of [with open(path, 'rb') as f] in both files. *)
Definition read_pdf (fs : filesystem) (path : string) : prog string :=
  match fs path with
  | NoSuchFile => raise (file_not_found path)
  | Unopenable e => raise e
  | Opens (Corrupt e) => raise e
  | Opens (Pages pages) => lift (join_pages pages)
  end.

(** main.py, lines 19-39. *)
Definition load_file (fs : filesystem) (path : string) : prog string :=
  try_except (read_pdf fs path)
    (fun e =>
       match class e with
       | FileNotFoundError =>
           print ("Error: PDF file not found at " ++ path) ;;; ret EmptyString
       | _ =>
           print ("An error occurred while reading the PDF: " ++ message e) ;;;
           ret EmptyString
       end).

(** The text of the pages that have one, in order: what the specification
    says the extractor returns. *)
Definition page_text (p : page) : string :=
  match p with
  | Text s => s
  | NoText | Unreadable _ => EmptyString
  end.

Definition readable (p : page) : bool :=
  match p with
  | Unreadable _ => false
  | _ => true
  end.

(** A disk without files. *)
Definition empty_disk : filesystem := fun _ => NoSuchFile.

End Extractor.

(** ** counter.py *)

Module Counter.
Import Py Program Extractor.

(** counter.py, lines 5-8: the same body, without a handler. *)
Definition load_file (fs : filesystem) (path : string) : prog string :=
  read_pdf fs path.

End Counter.

(** ** main.py: the pipeline *)

Module Pipeline.
Import Py Program Extractor Text Report Validator Schema.
Local Open Scope string_scope.

(** What the run finds outside the sources: the files, the environment
    variables as they are after [load_dotenv()] of line 17, the schema
    reflection of the model class, the generation API, the validation
    library, and the formatting and rendering libraries. *)
Record environment : Type :=
  { fs : filesystem;
    getenv : string -> option string;
    raw_schema : dict;
    generate : string -> string -> json -> result string;
    parse_json : string -> option json;
    datetime_of_json : json -> option datetime;
    float_of_json : json -> option float;
    int_of_json : json -> option Z;
    describe : list validation_error -> string;
    dumps : AnnualReport -> string;
    format_usd : float -> string;
    strftime_ymd : datetime -> string;
    markdown : string -> string;
    write_pdf : string -> string -> result unit;
    abspath : string -> string }.

(** [d.get(k, default)] *)
Definition get_or (k : string) (default : json) (d : dict) : json :=
  match dict_get k d with
  | Some v => v
  | None => default
  end.

(** Lines 118-123. *)
Definition api_schema_base (raw : dict) : dict :=
  let base := [("type", get_or "type" (JStr "object") raw);
               ("properties", get_or "properties" (JDict []) raw)] in
  match dict_get "required" raw with
  | Some required => dict_set "required" required base
  | None => base
  end.

(** Lines 129-130. *)
Definition prompt_for (text : string) : string :=
  "Analyze the annual report (10-K) and fill the data model based on it:"
  ++ newline ++ newline ++ text ++ newline ++ newline
  ++ "The output needs to be in a JSON format matching the provided schema. No extra fields allowed!".

Definition when_some {A} (x : option A) (line : A -> string) : list string :=
  match x with
  | Some a => [line a]
  | None => []
  end.

(** [if s:] for an optional string *)
Definition when_text (x : option string) (lines : string -> list string)
  : list string :=
  match x with
  | Some (String c s) => lines (String c s)
  | Some EmptyString | None => []
  end.

(** Lines 152-182. *)
Definition md_lines (env : environment) (ar : AnnualReport) : list string :=
  ["# " ++ company_name ar ++ " Annual Report "
     ++ str_of_N (year (fiscal_year_end ar));
   "**CIK:** " ++ cik ar;
   "**Fiscal Year End:** " ++ strftime_ymd env (fiscal_year_end ar);
   "**Filing Date:** " ++ strftime_ymd env (filing_date ar);
   newline ++ "## Financials"]
  ++ when_some (total_revenue ar)
       (fun x => "- **Total Revenue:** $" ++ format_usd env x)
  ++ when_some (net_income ar)
       (fun x => "- **Net Income:** $" ++ format_usd env x)
  ++ when_some (total_assets ar)
       (fun x => "- **Total Assets:** $" ++ format_usd env x)
  ++ when_some (total_liabilities ar)
       (fun x => "- **Total Liabilities:** $" ++ format_usd env x)
  ++ when_some (operating_cash_flow ar)
       (fun x => "- **Operating Cash Flow:** $" ++ format_usd env x)
  ++ when_some (cash_and_equivalents ar)
       (fun x => "- **Cash & Equivalents:** $" ++ format_usd env x)
  ++ when_some (num_employees ar)
       (fun n => "- **Number of Employees:** " ++ str_of_Z n)
  ++ when_text (auditor ar) (fun a => ["- **Auditor:** " ++ a])
  ++ when_text (business_description ar)
       (fun b => [newline ++ "## Business Description"; b])
  ++ match risk_factors ar with
     | Some (rf :: rfs) =>
         (newline ++ "## Risk Factors") :: map (fun r => "- " ++ r) (rf :: rfs)
     | Some [] | None => []
     end
  ++ when_text (management_discussion ar)
       (fun m => [newline ++ "## Management Discussion & Analysis"; m]).

(** Line 146: a validation that fails raises. *)
Definition validated (env : environment) (c : checked AnnualReport)
  : prog AnnualReport :=
  match c with
  | Good ar => ret ar
  | Bad errors => raise (mk_exn ValidationError (describe env errors))
  end.

Definition model_name : string := "gemini-2.0-flash".

(** Lines 133-197, the body of the [try]. *)
Definition generate_and_render (env : environment) (prompt : string)
  (api_schema : json) : prog unit :=
  emit (Generated model_name prompt api_schema) ;;;
  response <~ lift (generate env model_name prompt api_schema) ;;
  ar <~ validated env
          (model_validate_json (parse_json env) (datetime_of_json env)
             (float_of_json env) (int_of_json env) response) ;;
  print "Successfully extracted Annual Report data:" ;;;
  print (dumps env ar) ;;;
  let md := String.concat (newline ++ newline) (md_lines env ar) in
  let html := markdown env md in
  let name := filename ar in
  print (newline ++ "Generating PDF: " ++ name ++ "...") ;;;
  lift (write_pdf env html name) ;;;
  emit (PdfWritten name html) ;;;
  print ("PDF generated successfully at " ++ abspath env name).

(** Lines 199-202. *)
Definition report_failure (e : exn) : prog unit :=
  match class e with
  | BlockedPromptException =>
      print ("The prompt was blocked by the safety system: " ++ message e)
  | _ =>
      print ("An unexpected error occurred during Gemini API call or data processing: "
             ++ message e)
  end.

(** Lines 95-202. *)
Definition main (env : environment) : prog unit :=
  text <~ load_file (fs env) "meta_10k.pdf" ;;
  match text with
  | EmptyString =>
      print "Exiting due to empty or unreadable PDF content." ;;; exit
  | String _ _ =>
      match getenv env "GEMINI_API_KEY" with
      | None | Some EmptyString =>
          print "Error: GEMINI_API_KEY environment variable not set." ;;;
          print "Please create a .env file in the script's directory with GEMINI_API_KEY='YOUR_API_KEY'." ;;;
          exit
      | Some api_key =>
          emit (Configured api_key) ;;;
          api_schema <~
            lift (clean_schema (JDict (api_schema_base (raw_schema env)))) ;;
          try_except (generate_and_render env (prompt_for text) api_schema)
            report_failure
      end
  end.

(** An environment in which the input file is missing. *)
Definition epoch : datetime :=
  {| year := 1970; month := 1; day := 1;
     hour := 0; minute := 0; second := 0; microsecond := 0 |}.

Definition without_input : environment :=
  {| fs := fun _ => NoSuchFile;
     getenv := fun _ => Some "secret";
     raw_schema := [("type", JStr "object"); ("properties", JDict [])];
     generate := fun _ _ _ => Ok "{}";
     parse_json := fun _ => None;
     datetime_of_json := fun _ => Some epoch;
     float_of_json := fun _ => None;
     int_of_json := fun _ => None;
     describe := fun _ => "validation error";
     dumps := fun _ => "{}";
     format_usd := fun _ => "0.00";
     strftime_ymd := fun _ => "1970-01-01";
     markdown := fun md => md;
     write_pdf := fun _ _ => Ok tt;
     abspath := fun name => name |}.

End Pipeline.

(** ** main.py: [clean_schema] on the heap *)

(** The same function with the objects of Python in a store: a dict or a
    list is an object at an address, a value is a scalar or a reference, and
    a run takes the world, the store and what was printed, to a new world.
    This is where one reads off what a call changes. *)
Module Heap.
Import Py.

Definition addr : Type := nat.

Inductive value : Type :=
| VNone
| VBool (b : bool)
| VInt (z : Z)
| VFloat (bits : Z)
| VStr (s : string)
| VRef (a : addr).

Inductive object : Type :=
| ODict (d : list (string * value))
| OList (l : list value).

Record world : Type := { heap : list object; stdout : list string }.

(** A run raises or returns, in a new world; [None] is a run without
    result: the fuel is used up, or a reference points nowhere. *)
Definition M (A : Type) : Type := world -> option (result A * world).

Definition ret {A} (a : A) : M A := fun w => Some (Ok a, w).
Definition raise {A} (e : exn) : M A := fun w => Some (Raise e, w).
Definition stuck {A} : M A := fun _ => None.

Definition mbind {A B} (m : M A) (k : A -> M B) : M B :=
  fun w =>
    match m w with
    | Some (Ok a, w') => k a w'
    | Some (Raise e, w') => Some (Raise e, w')
    | None => None
    end.

Notation "x <~ m ;; k" := (mbind m (fun x => k))
  (at level 61, m at next level, right associativity).
Notation "m ;;; k" := (mbind m (fun _ => k))
  (at level 61, right associativity).

(** A new object, at the first free address. *)
Definition alloc (o : object) : M addr :=
  fun w =>
    Some (Ok (List.length (heap w)),
          {| heap := heap w ++ [o]; stdout := stdout w |}).

Definition load (a : addr) : M object :=
  fun w =>
    match nth_error (heap w) a with
    | Some o => Some (Ok o, w)
    | None => None
    end.

Fixpoint set_nth {A} (n : nat) (x : A) (l : list A) : list A :=
  match l with
  | [] => []
  | y :: l' =>
      match n with
      | O => x :: l'
      | S n' => y :: set_nth n' x l'
      end
  end.

Definition store (a : addr) (o : object) : M unit :=
  fun w =>
    match nth_error (heap w) a with
    | Some _ =>
        Some (Ok tt, {| heap := set_nth a o (heap w); stdout := stdout w |})
    | None => None
    end.

(** [cleaned[k] = v] *)
Definition set_item (c : addr) (k : string) (v : value) : M unit :=
  o <~ load c ;;
  match o with
  | ODict d => store c (ODict (dict_set k v d))
  | OList _ =>
      raise (mk_exn TypeError
               "list indices must be integers or slices, not str")
  end.

(** [result.append(v)] *)
Definition append (r : addr) (v : value) : M unit :=
  o <~ load r ;;
  match o with
  | OList l => store r (OList (l ++ [v]))
  | ODict _ =>
      raise (mk_exn AttributeError "'dict' object has no attribute 'append'")
  end.

(** [for x in <the list at a>: body(x)], from position [i].  The list is
    read again at every step, as the iterator of Python does. *)
Fixpoint for_list (fuel : nat) (a : addr) (i : nat) (body : value -> M unit)
  : M unit :=
  match fuel with
  | O => stuck
  | S fuel' =>
      o <~ load a ;;
      match o with
      | OList l =>
          match nth_error l i with
          | Some x => body x ;;; for_list fuel' a (S i) body
          | None => ret tt
          end
      | ODict _ => stuck
      end
  end.

Definition changed_size : exn :=
  mk_exn RuntimeError "dictionary changed size during iteration".

(** [for k, v in <the dict at a>.items(): body(k, v)], from position [i].
    The dict is read again at every step, and the iterator raises when its
    size is no longer [size]. *)
Fixpoint for_items (fuel : nat) (a : addr) (size i : nat)
  (body : string -> value -> M unit) : M unit :=
  match fuel with
  | O => stuck
  | S fuel' =>
      o <~ load a ;;
      match o with
      | ODict d =>
          if negb (Nat.eqb (List.length d) size) then raise changed_size
          else
            match nth_error d i with
            | Some (k, v) => body k v ;;; for_items fuel' a size (S i) body
            | None => ret tt
            end
      | OList _ => stuck
      end
  end.

(** [item.get('type') == 'null'] *)
Definition is_null_branch (item : list (string * value)) : bool :=
  match dict_get "type" item with
  | Some (VStr s) => String.eqb s "null"
  | _ => false
  end.

Definition scalar_type (v : value) : string :=
  match v with
  | VNone => "NoneType"
  | VBool _ => "bool"
  | VInt _ => "int"
  | VFloat _ => "float"
  | VStr _ => "str"
  | VRef _ => "object"
  end.

(** Lines 75-76 and 79-80: the body of the loop over the items of a
    dict. *)
Definition copy_entry (rec : value -> M value) (c : addr)
  (excluded : list string) (k : string) (v : value) : M unit :=
  if str_in k excluded then ret tt
  else v' <~ rec v ;; set_item c k v'.

(** Lines 70-76: the body of the loop over the branches of a union. *)
Definition flatten_branch (fuel : nat) (rec : value -> M value) (c : addr)
  (item : value) : M unit :=
  match item with
  | VRef e =>
      o <~ load e ;;
      match o with
      | ODict it =>
          if is_null_branch it then set_item c "nullable" (VBool true)
          else for_items fuel e (List.length it) 0
                 (copy_entry rec c Schema.branch_excluded)
      | OList _ => raise (Schema.no_get "list")
      end
  | _ => raise (Schema.no_get (scalar_type item))
  end.

(** Line 69: the loop over whatever stands under ['anyOf']. *)
Definition flatten_union (fuel : nat) (rec : value -> M value) (c : addr)
  (any_of : value) : M unit :=
  match any_of with
  | VRef b =>
      o <~ load b ;;
      match o with
      | OList _ => for_list fuel b 0 (flatten_branch fuel rec c)
      | ODict [] => ret tt
      | ODict (_ :: _) => raise (Schema.no_get "str")
      end
  | VStr EmptyString => ret tt
  | VStr (String _ _) => raise (Schema.no_get "str")
  | _ => raise (Schema.not_iterable (scalar_type any_of))
  end.

(** Lines 60-85. *)
Fixpoint clean_schema (fuel : nat) (schema : value) : M value :=
  match fuel with
  | O => stuck
  | S fuel' =>
      match schema with
      | VRef a =>
          o <~ load a ;;
          match o with
          | ODict d =>
              cleaned <~ alloc (ODict []) ;;
              match dict_get "anyOf" d with
              | Some any_of =>
                  flatten_union fuel' (clean_schema fuel') cleaned any_of
              | None =>
                  for_items fuel' a (List.length d) 0
                    (copy_entry (clean_schema fuel') cleaned
                       Schema.copy_excluded)
              end ;;;
              ret (VRef cleaned)
          | OList _ =>
              cleaned <~ alloc (OList []) ;;
              for_list fuel' a 0
                (fun elem =>
                   elem' <~ clean_schema fuel' elem ;; append cleaned elem') ;;;
              ret (VRef cleaned)
          end
      | _ => ret schema
      end
  end.

(** *** Trees in the store *)

Definition all2 {A B} (R : A -> B -> Prop) : list A -> list B -> Prop :=
  fix all (xs : list A) (ys : list B) : Prop :=
    match xs, ys with
    | [], [] => True
    | x :: xs', y :: ys' => R x y /\ all xs' ys'
    | _, _ => False
    end.

(** The value [v] stands in the store [h] for the tree [t], through
    objects at addresses from [lo] on. *)
Fixpoint repr (lo : addr) (h : list object) (t : json) (v : value) : Prop :=
  match t with
  | JNone => v = VNone
  | JBool b => v = VBool b
  | JInt z => v = VInt z
  | JFloat bits => v = VFloat bits
  | JStr s => v = VStr s
  | JList ts =>
      exists a vs,
        v = VRef a /\ lo <= a /\ nth_error h a = Some (OList vs) /\
        all2 (repr lo h) ts vs
  | JDict td =>
      exists a vd,
        v = VRef a /\ lo <= a /\ nth_error h a = Some (ODict vd) /\
        all2 (fun kt kv => fst kt = fst kv /\ repr lo h (snd kt) (snd kv))
          td vd
  end.

(** The number of nodes of a tree: fuel above it is enough. *)
Fixpoint size (t : json) : nat :=
  match t with
  | JList ts => S (list_sum (map size ts))
  | JDict td => S (list_sum (map (fun kt => size (snd kt)) td))
  | _ => 1
  end.

(** The outcome [r] in the world [w] is the outcome [pure] of the function
    on trees, a returned value standing for the returned tree through
    objects at addresses from [lo] on. *)
Definition agrees (lo : addr) (pure : result json) (r : result value)
  (w : world) : Prop :=
  match pure with
  | Ok t' => exists v', r = Ok v' /\ repr lo (heap w) t' v'
  | Raise e => r = Raise e
  end.

(** The objects below [n] are the same in [w'] as in [w], no object is
    gone, and nothing was printed. *)
Definition keeps (n : addr) (w w' : world) : Prop :=
  stdout w' = stdout w /\
  List.length (heap w) <= List.length (heap w') /\
  forall a, a < n -> nth_error (heap w') a = nth_error (heap w) a.

(** *** What the proofs speak of *)

(** The run [m], from a store that has the addresses below [n], keeps the
    objects below [n]. *)
Definition frame_ok {A} (n : addr) (m : M A) : Prop :=
  forall w r w',
    n <= List.length (heap w) -> m w = Some (r, w') -> keeps n w w'.

(** An entry of a dict in the store stands for an entry of a dict of
    trees: the same key, and the value stands for the tree. *)
Definition entry_repr (lo : addr) (h : list object)
  (kt : string * json) (kv : string * value) : Prop :=
  fst kt = fst kv /\ repr lo h (snd kt) (snd kv).

(** The store [h] is still there in the world [w]. *)
Definition base (h : list object) (w : world) : Prop :=
  forall a o, nth_error h a = Some o -> nth_error (heap w) a = Some o.

(** The world after a write of [o] at [a]. *)
Definition stored (a : addr) (o : object) (w : world) : world :=
  {| heap := set_nth a o (heap w); stdout := stdout w |}.

(** On a value that stands for [t], with fuel above the size of [t], the
    run on the store ends as the function on trees ends on [t]. *)
Definition sim (t : json) : Prop :=
  forall v w fuel,
    repr 0 (heap w) t v -> size t < fuel ->
    exists r w',
      clean_schema fuel v w = Some (r, w') /\
      agrees (List.length (heap w)) (Schema.clean_schema t) r w'.

(** *** A store to try the statements on *)

(** The schema of an optional float field in a store, and the tree it
    stands for. *)
Definition revenue_store : world :=
  {| heap := [ODict [("type", VStr "number")];
              ODict [("type", VStr "null")];
              OList [VRef 0; VRef 1];
              ODict [("anyOf", VRef 2); ("title", VStr "Total Revenue")]];
     stdout := [] |}.

Definition revenue_tree : json :=
  JDict [("anyOf", JList [JDict [("type", JStr "number")];
                          JDict [("type", JStr "null")]]);
         ("title", JStr "Total Revenue")].

End Heap.

(** ** counter.py: the script *)

Module CounterScript.
Import Py Program Extractor Text.

(** What [encoded_text.encode] does for a text: the tokens, or an
    exception. *)
Definition encoder : Type := string -> result (list N).

(** counter.py, lines 11-14.  [encoding_for_model] is the tokenizer
    library's: it returns an encoder or raises. *)
Definition main (fs : filesystem)
  (encoding_for_model : string -> result encoder) : prog unit :=
  text <~ Counter.load_file fs "meta_10k.pdf" ;;
  encoded_text <~ lift (encoding_for_model "gpt-4o") ;;
  tokens <~ lift (encoded_text text) ;;
  print (str_of_N (N.of_nat (List.length tokens))).

(** A tokenizer that makes one token of every character. *)
Definition per_char : string -> result encoder :=
  fun _ =>
    Ok (fun text => Ok (map N_of_ascii (list_ascii_of_string text))).

End CounterScript.

(** ** What the further statements speak of *)

Module Observe.
Import Py Schema Program Text Report.

(** The trees on which [clean_schema] meets no exception: under every
    ['anyOf'] it comes to stands a list of dicts (or an empty string or
    dict), and the same holds of every value it descends into, which are
    the values of the keys it does not drop, in a dict without ['anyOf'] and
    in a branch that is not a null branch, and the elements of a list. *)
Definition visited_values (rec : json -> bool) (excluded : list string)
  (d : dict) : bool :=
  forallb (fun kv => str_in (fst kv) excluded || rec (snd kv)) d.

Definition branch_cleanable (rec : json -> bool) (item : json) : bool :=
  match item with
  | JDict it => is_null_branch it || visited_values rec branch_excluded it
  | _ => false
  end.

Definition union_cleanable (rec : json -> bool) (any_of : json) : bool :=
  match any_of with
  | JList items => forallb (branch_cleanable rec) items
  | JDict [] => true
  | JStr EmptyString => true
  | _ => false
  end.

Fixpoint cleanable (t : json) : bool :=
  match t with
  | JDict d =>
      on_key "anyOf" (union_cleanable cleanable)
        (visited_values cleanable copy_excluded d) d
  | JList l => forallb cleanable l
  | _ => true
  end.

(** Kinds of events. *)
Definition is_printed (e : event) : bool :=
  match e with
  | Printed _ => true
  | _ => false
  end.

Definition is_generated (e : event) : bool :=
  match e with
  | Generated _ _ _ => true
  | _ => false
  end.

Definition is_written (e : event) : bool :=
  match e with
  | PdfWritten _ _ => true
  | _ => false
  end.

(** Every character of the string passes the test. *)
Fixpoint all_chars (p : ascii -> bool) (s : string) : bool :=
  match s with
  | EmptyString => true
  | String c s' => p c && all_chars p s'
  end.

(** Neither a space nor a slash. *)
Definition plain_char (c : ascii) : bool :=
  negb (Ascii.eqb c " " || Ascii.eqb c "/").

(** [1] when the optional value is there, and when the optional text is
    there and not empty. *)
Definition present {A} (x : option A) : nat :=
  match x with
  | Some _ => 1
  | None => 0
  end.

Definition nonempty (x : option string) : nat :=
  match x with
  | Some (String _ _) => 1
  | Some EmptyString | None => 0
  end.

(** A decimal digit. *)
Definition is_digit (c : ascii) : bool :=
  (Nat.leb 48 (nat_of_ascii c) && Nat.leb (nat_of_ascii c) 57)%bool.

(** The record with every optional text that is empty, and an empty list
    of risk factors, taken away. *)
Definition hide_text (x : option string) : option string :=
  match x with
  | Some (String c s) => Some (String c s)
  | Some EmptyString | None => None
  end.

Definition hide_blank (ar : AnnualReport) : AnnualReport :=
  {| company_name := company_name ar;
     cik := cik ar;
     fiscal_year_end := fiscal_year_end ar;
     filing_date := filing_date ar;
     total_revenue := total_revenue ar;
     net_income := net_income ar;
     total_assets := total_assets ar;
     total_liabilities := total_liabilities ar;
     operating_cash_flow := operating_cash_flow ar;
     cash_and_equivalents := cash_and_equivalents ar;
     num_employees := num_employees ar;
     auditor := hide_text (auditor ar);
     business_description := hide_text (business_description ar);
     risk_factors :=
       match risk_factors ar with
       | Some (rf :: rfs) => Some (rf :: rfs)
       | Some [] | None => None
       end;
     management_discussion := hide_text (management_discussion ar) |}.

(** A file whose second page cannot be read. *)
Definition damaged : Extractor.filesystem :=
  fun _ =>
    Extractor.Opens
      (Extractor.Pages
         [Extractor.Text "Annual report";
          Extractor.Unreadable (mk_exn (OtherException "PdfReadError") "EOF marker not found");
          Extractor.Text " 2024"]).

(** A model with a field named [anyOf], and a type. *)
Definition field_named_anyOf : json :=
  JDict [("type", JStr "object");
         ("properties", JDict [("anyOf", JDict string_type)])].

Definition integer_type : dict := [("type", JStr "integer")].

End Observe.

(** ** The runs of the pipeline *)

Module Runs.
Import Py Schema Program Extractor Text Report Validator Pipeline.
Local Open Scope string_scope.

(** What line 98 does, the schema of line 126 before cleaning, what line
    146 returns, and the document of lines 185-188. *)
Definition extraction (env : environment) : prog string :=
  load_file (fs env) "meta_10k.pdf".

Definition api_base (env : environment) : json :=
  JDict (api_schema_base (raw_schema env)).

Definition validation (env : environment) (response : string)
  : checked AnnualReport :=
  model_validate_json (parse_json env) (datetime_of_json env)
    (float_of_json env) (int_of_json env) response.

Definition html_of (env : environment) (ar : AnnualReport) : string :=
  markdown env (String.concat (newline ++ newline) (md_lines env ar)).

(** The line lines 199-202 print for an exception. *)
Definition failure_line (e : exn) : string :=
  match class e with
  | BlockedPromptException =>
      "The prompt was blocked by the safety system: " ++ message e
  | _ =>
      "An unexpected error occurred during Gemini API call or data processing: "
      ++ message e
  end.

Definition empty_text_line : event :=
  Printed "Exiting due to empty or unreadable PDF content.".

Definition no_key_lines : list event :=
  [Printed "Error: GEMINI_API_KEY environment variable not set.";
   Printed "Please create a .env file in the script's directory with GEMINI_API_KEY='YOUR_API_KEY'."].

(** There is no usable key: [if not api_key]. *)
Definition no_key (env : environment) : Prop :=
  getenv env "GEMINI_API_KEY" = None \/
  getenv env "GEMINI_API_KEY" = Some "".

(** The seven ways a run of lines 95-202 can go, each with what it does to
    the world and how it ends. *)
Inductive run (env : environment) : prog unit -> Prop :=
| run_empty_text tr0 :
    extraction env = (tr0, Returns "") ->
    run env ((tr0 ++ [empty_text_line])%list, Exits)
| run_no_key tr0 c text :
    extraction env = (tr0, Returns (String c text)) ->
    no_key env ->
    run env ((tr0 ++ no_key_lines)%list, Exits)
| run_schema_raises tr0 c text k key e :
    extraction env = (tr0, Returns (String c text)) ->
    getenv env "GEMINI_API_KEY" = Some (String k key) ->
    clean_schema (api_base env) = Raise e ->
    run env ((tr0 ++ [Configured (String k key)])%list, Raises e)
| run_generation_fails tr0 c text k key api_schema e :
    extraction env = (tr0, Returns (String c text)) ->
    getenv env "GEMINI_API_KEY" = Some (String k key) ->
    clean_schema (api_base env) = Ok api_schema ->
    generate env model_name (prompt_for (String c text)) api_schema = Raise e ->
    run env
      ((tr0 ++ [Configured (String k key);
                Generated model_name (prompt_for (String c text)) api_schema;
                Printed (failure_line e)])%list,
       Returns tt)
| run_invalid tr0 c text k key api_schema response errors :
    extraction env = (tr0, Returns (String c text)) ->
    getenv env "GEMINI_API_KEY" = Some (String k key) ->
    clean_schema (api_base env) = Ok api_schema ->
    generate env model_name (prompt_for (String c text)) api_schema
      = Ok response ->
    validation env response = Bad errors ->
    run env
      ((tr0 ++ [Configured (String k key);
                Generated model_name (prompt_for (String c text)) api_schema;
                Printed (failure_line
                           (mk_exn ValidationError (describe env errors)))])%list,
       Returns tt)
| run_write_fails tr0 c text k key api_schema response ar e :
    extraction env = (tr0, Returns (String c text)) ->
    getenv env "GEMINI_API_KEY" = Some (String k key) ->
    clean_schema (api_base env) = Ok api_schema ->
    generate env model_name (prompt_for (String c text)) api_schema
      = Ok response ->
    validation env response = Good ar ->
    write_pdf env (html_of env ar) (filename ar) = Raise e ->
    run env
      ((tr0 ++ [Configured (String k key);
                Generated model_name (prompt_for (String c text)) api_schema;
                Printed "Successfully extracted Annual Report data:";
                Printed (dumps env ar);
                Printed (newline ++ "Generating PDF: " ++ filename ar ++ "...");
                Printed (failure_line e)])%list,
       Returns tt)
| run_written tr0 c text k key api_schema response ar :
    extraction env = (tr0, Returns (String c text)) ->
    getenv env "GEMINI_API_KEY" = Some (String k key) ->
    clean_schema (api_base env) = Ok api_schema ->
    generate env model_name (prompt_for (String c text)) api_schema
      = Ok response ->
    validation env response = Good ar ->
    write_pdf env (html_of env ar) (filename ar) = Ok tt ->
    run env
      ((tr0 ++ [Configured (String k key);
                Generated model_name (prompt_for (String c text)) api_schema;
                Printed "Successfully extracted Annual Report data:";
                Printed (dumps env ar);
                Printed (newline ++ "Generating PDF: " ++ filename ar ++ "...");
                PdfWritten (filename ar) (html_of env ar);
                Printed ("PDF generated successfully at "
                         ++ abspath env (filename ar))])%list,
       Returns tt).

(** The line a handler of [load_file] prints, lines 34-39. *)
Definition load_failure_line (path : string) (e : exn) : string :=
  match class e with
  | FileNotFoundError => "Error: PDF file not found at " ++ path
  | _ => "An error occurred while reading the PDF: " ++ message e
  end.

(** Sample environments: the files, the key, the reflected schema and what
    the answer of the model parses to are given, the rest is fixed. *)
Definition with_text : filesystem :=
  fun _ => Opens (Pages [Text "Annual report"; NoText; Text " 2024"]).

Definition sample_env (files : filesystem) (key : option string)
  (raw : dict) (answer : option json) : environment :=
  {| fs := files;
     getenv := fun _ => key;
     raw_schema := raw;
     generate := fun _ _ _ => Ok "{}";
     parse_json := fun _ => answer;
     datetime_of_json := fun _ => Some epoch;
     float_of_json := fun _ => None;
     int_of_json := fun _ => None;
     describe := fun _ => "1 validation error for AnnualReport";
     dumps := fun _ => "{}";
     format_usd := fun _ => "0.00";
     strftime_ymd := fun _ => "1970-01-01";
     markdown := fun md => md;
     write_pdf := fun _ _ => Ok tt;
     abspath := fun name => name |}.

Definition object_schema : dict :=
  [("type", JStr "object");
   ("properties", JDict [("total_revenue", JDict revenue_field)]);
   ("title", JStr "AnnualReport")].

Definition anyOf_field_schema : dict :=
  [("type", JStr "object");
   ("properties", JDict [("anyOf", JDict string_type)])].

Definition acme_answer : json :=
  JDict [("company_name", JStr "Acme Corp / Holdings");
         ("cik", JStr "0000000001");
         ("fiscal_year_end", JStr "1970-01-01");
         ("filing_date", JStr "1970-01-01")].

Definition acme : AnnualReport :=
  {| company_name := "Acme Corp / Holdings";
     cik := "0000000001";
     fiscal_year_end := epoch;
     filing_date := epoch;
     total_revenue := None; net_income := None; total_assets := None;
     total_liabilities := None; operating_cash_flow := None;
     cash_and_equivalents := None; num_employees := None; auditor := None;
     business_description := None; risk_factors := None;
     management_discussion := None |}.

End Runs.

(** ** The recursion limit *)

Module Bounded.
Import Py Schema Program Extractor Text Report Validator Pipeline.
Local Open Scope string_scope.

(** What the interpreter raises when a call would nest deeper than its
    limit allows. *)
Definition recursion_error : exn :=
  mk_exn (OtherException "RecursionError") "maximum recursion depth exceeded".

(** Lines 60-85 under the recursion limit.  [frames] is the number of
    nested calls of [clean_schema] the interpreter still allows: the call
    itself takes one, and a call made when none is left raises.  The
    frames are counted as CPython counts them from version 3.12 on, one
    for a call of a function of the program and none for a comprehension
    or a built-in.  The body is the one of [Schema.clean_schema], with the
    calls of lines 76, 80 and 83 on one frame less. *)
Fixpoint clean_schema (frames : nat) (schema : json) : result json :=
  match frames with
  | O => Raise recursion_error
  | S frames' =>
      match schema with
      | JDict d =>
          cleaned <- on_key "anyOf"
                       (fun any_of =>
                          flatten_union (clean_schema frames') any_of)
                       (copy_items (clean_schema frames') copy_excluded d [])
                       d ;;
          Ok (JDict cleaned)
      | JList l =>
          l' <- for_each (clean_schema frames') l ;;
          Ok (JList l')
      | _ => Ok schema
      end
  end.

(** The number of nested calls the walk of a tree comes to: one for the
    tree, and the most any value it descends into takes.  The walk
    descends into the values of the keys it does not drop, in a dict
    without ['anyOf'] and in a branch that is not a null branch, and into
    the elements of a list. *)
Definition visited_nesting (rec : json -> nat) (excluded : list string)
  (d : dict) : nat :=
  list_max (map (fun kv => if str_in (fst kv) excluded then 0
                           else rec (snd kv)) d).

Definition branch_nesting (rec : json -> nat) (item : json) : nat :=
  match item with
  | JDict it =>
      if is_null_branch it then 0 else visited_nesting rec branch_excluded it
  | _ => 0
  end.

Definition union_nesting (rec : json -> nat) (any_of : json) : nat :=
  match any_of with
  | JList items => list_max (map (branch_nesting rec) items)
  | _ => 0
  end.

Fixpoint nesting (t : json) : nat :=
  match t with
  | JDict d =>
      S (on_key "anyOf" (union_nesting nesting)
           (visited_nesting nesting copy_excluded d) d)
  | JList l => S (list_max (map nesting l))
  | _ => 1
  end.

(** Lines 95-202 under the recursion limit: [frames] is what the
    interpreter still allows at line 126.  The script is the one of
    [Pipeline.main], with the call of line 126 under the limit. *)
Definition main (frames : nat) (env : environment) : prog unit :=
  text <~ load_file (fs env) "meta_10k.pdf" ;;
  match text with
  | EmptyString =>
      print "Exiting due to empty or unreadable PDF content." ;;; exit
  | String _ _ =>
      match getenv env "GEMINI_API_KEY" with
      | None | Some EmptyString =>
          print "Error: GEMINI_API_KEY environment variable not set." ;;;
          print "Please create a .env file in the script's directory with GEMINI_API_KEY='YOUR_API_KEY'." ;;;
          exit
      | Some api_key =>
          emit (Configured api_key) ;;;
          api_schema <~
            lift (clean_schema frames
                    (JDict (api_schema_base (raw_schema env)))) ;;
          try_except (generate_and_render env (prompt_for text) api_schema)
            report_failure
      end
  end.

(** The schema of lists nested [n] deep around strings, and a reflected
    schema with a property of that type. *)
Fixpoint nested (n : nat) : json :=
  match n with
  | O => JDict [("type", JStr "string")]
  | S n' => JDict [("type", JStr "array"); ("items", nested n')]
  end.

Definition deep_schema (n : nat) : dict :=
  [("type", JStr "object");
   ("properties", JDict [("matrix", nested n)])].

End Bounded.

(** ** The recursion limit, on the heap *)

Module HeapBounded.
Import Py Heap.

(** Lines 60-85 on the store under the recursion limit: the body is the
    one of [Heap.clean_schema], [frames] is the number of nested calls the
    interpreter still allows, as in [Bounded.clean_schema], and a call made
    when none is left raises.  [fuel] is for the loops alone, which read
    their list or dict again at every step: a loop has no result when it
    takes [fuel] steps. *)
Fixpoint clean_schema (fuel frames : nat) (schema : value) : M value :=
  match frames with
  | O => raise Bounded.recursion_error
  | S frames' =>
      match schema with
      | VRef a =>
          o <~ load a ;;
          match o with
          | ODict d =>
              cleaned <~ alloc (ODict []) ;;
              match dict_get "anyOf" d with
              | Some any_of =>
                  flatten_union fuel (clean_schema fuel frames') cleaned any_of
              | None =>
                  for_items fuel a (List.length d) 0
                    (copy_entry (clean_schema fuel frames') cleaned
                       Schema.copy_excluded)
              end ;;;
              ret (VRef cleaned)
          | OList _ =>
              cleaned <~ alloc (OList []) ;;
              for_list fuel a 0
                (fun elem =>
                   elem' <~ clean_schema fuel frames' elem ;;
                   append cleaned elem') ;;;
              ret (VRef cleaned)
          end
      | _ => ret schema
      end
  end.

(** *** Stores without dangling references *)

(** A reference points below [n]. *)
Definition closed_value (n : nat) (v : value) : bool :=
  match v with
  | VRef a => Nat.ltb a n
  | _ => true
  end.

Definition closed_object (n : nat) (o : object) : bool :=
  match o with
  | ODict d => forallb (fun kv => closed_value n (snd kv)) d
  | OList l => forallb (closed_value n) l
  end.

(** The number of entries of a dict, of elements of a list. *)
Definition width (o : object) : nat :=
  match o with
  | ODict d => List.length d
  | OList l => List.length l
  end.

(** Every reference of the store points to an object of the store, and
    every object is less than [fuel] wide.  Objects may be shared and may
    refer to themselves. *)
Definition closed_store (fuel : nat) (h : list object) : bool :=
  forallb (fun o => closed_object (List.length h) o
                    && Nat.ltb (width o) fuel) h.

(** At [c] stands a dict, a list: the object under construction. *)
Definition dict_at (c : addr) (w : world) : Prop :=
  exists d, nth_error (heap w) c = Some (ODict d).
Definition list_at (c : addr) (w : world) : Prop :=
  exists l, nth_error (heap w) c = Some (OList l).

(** The schema of a list of lists of lists and so on, which has itself
    under ['items'], beside a list that holds it twice. *)
Definition knot : world :=
  {| heap := [ODict [("type", VStr "array"); ("items", VRef 0)];
              OList [VRef 0; VRef 0]];
     stdout := ["before"] |}.

End HeapBounded.

(** * Properties *)

(** ** Dicts *)

Module DictFacts.
Import Py.

Section Facts.
Context {V : Type}.
Implicit Type d : list (string * V).
Implicit Type v : V.

Lemma dict_mem_get k d :
  dict_mem k d = match dict_get k d with Some _ => true | None => false end.
Proof.
  induction d as [|[k' v] d IH]; simpl; [reflexivity|].
  destruct (String.eqb k' k); auto.
Qed.

Lemma dict_get_none_mem k d : dict_get k d = None <-> dict_mem k d = false.
Proof.
  rewrite dict_mem_get. destruct (dict_get k d); split; congruence.
Qed.

Lemma dict_get_set_same k v d : dict_get k (dict_set k v d) = Some v.
Proof.
  induction d as [|[k' v'] d IH]; simpl.
  - now rewrite String.eqb_refl.
  - destruct (String.eqb k' k) eqn:E; simpl.
    + now rewrite String.eqb_refl.
    + now rewrite E.
Qed.

Lemma dict_get_set_other k k' v d :
  k' <> k -> dict_get k' (dict_set k v d) = dict_get k' d.
Proof.
  intros Hne. induction d as [|[k0 v0] d IH]; simpl.
  - destruct (String.eqb k k') eqn:E; [|reflexivity].
    apply String.eqb_eq in E. congruence.
  - destruct (String.eqb k0 k) eqn:E; simpl.
    + apply String.eqb_eq in E. subst k0.
      destruct (String.eqb k k') eqn:E'; [|reflexivity].
      apply String.eqb_eq in E'. congruence.
    + now rewrite IH.
Qed.

Lemma dict_mem_set k k' v d :
  dict_mem k' (dict_set k v d) = String.eqb k k' || dict_mem k' d.
Proof.
  rewrite !dict_mem_get.
  destruct (String.eqb k k') eqn:E.
  - apply String.eqb_eq in E. subst. now rewrite dict_get_set_same.
  - apply String.eqb_neq in E. rewrite dict_get_set_other by congruence.
    reflexivity.
Qed.

Lemma str_in_mem k d : str_in k (map fst d) = dict_mem k d.
Proof.
  induction d as [|[k' v] d IH]; simpl; [reflexivity|].
  rewrite IH, String.eqb_sym. destruct (String.eqb k' k); reflexivity.
Qed.

Lemma str_in_In k ks : str_in k ks = true <-> In k ks.
Proof.
  unfold str_in. rewrite existsb_exists. split.
  - intros [x [Hin Heq]]. apply String.eqb_eq in Heq. now subst.
  - intros Hin. exists k. split; [assumption|apply String.eqb_refl].
Qed.

Lemma keys_set k v d :
  map fst (dict_set k v d) =
  if dict_mem k d then map fst d else map fst d ++ [k].
Proof.
  induction d as [|[k' v'] d IH]; simpl; [reflexivity|].
  destruct (String.eqb k' k) eqn:E; simpl.
  - apply String.eqb_eq in E. now subst.
  - rewrite IH. destruct (dict_mem k d); reflexivity.
Qed.

Lemma str_in_app k xs ys : str_in k (xs ++ ys) = str_in k xs || str_in k ys.
Proof. unfold str_in. apply existsb_app. Qed.

Lemma nodupb_snoc ks k :
  nodupb (ks ++ [k]) = nodupb ks && negb (str_in k ks).
Proof.
  induction ks as [|k0 ks IH]; simpl; [reflexivity|].
  rewrite IH, str_in_app. simpl. rewrite orb_false_r.
  rewrite (String.eqb_sym k k0).
  destruct (str_in k0 ks), (String.eqb k0 k), (nodupb ks), (str_in k ks);
    reflexivity.
Qed.

(** Writing to a dict keeps its keys distinct. *)
Lemma nodupb_set k v d :
  nodupb (map fst d) = true -> nodupb (map fst (dict_set k v d)) = true.
Proof.
  intros H. rewrite keys_set. destruct (dict_mem k d) eqn:E; [assumption|].
  rewrite nodupb_snoc, H, str_in_mem, E. reflexivity.
Qed.

(** In a dict with distinct keys an entry is found under its key. *)
Lemma dict_get_In k v d :
  nodupb (map fst d) = true -> In (k, v) d -> dict_get k d = Some v.
Proof.
  induction d as [|[k' v'] d IH]; simpl; [contradiction|].
  intros Hnd [Heq|Hin].
  - inversion Heq; subst. now rewrite String.eqb_refl.
  - apply andb_prop in Hnd. destruct Hnd as [Hk Hnd].
    destruct (String.eqb k' k) eqn:E.
    + apply String.eqb_eq in E. subst k'.
      rewrite str_in_mem in Hk.
      assert (dict_mem k d = true).
      { rewrite dict_mem_get. rewrite (IH Hnd Hin). reflexivity. }
      rewrite H in Hk. discriminate.
    + auto.
Qed.

Lemma dict_get_Some_In k v d : dict_get k d = Some v -> In (k, v) d.
Proof.
  induction d as [|[k' v'] d IH]; simpl; [discriminate|].
  destruct (String.eqb k' k) eqn:E.
  - apply String.eqb_eq in E. intros [= ->]. subst. now left.
  - auto.
Qed.

Lemma In_dict_set k v k' v' d :
  In (k', v') (dict_set k v d) -> (k' = k /\ v' = v) \/ In (k', v') d.
Proof.
  induction d as [|[k0 v0] d IH]; simpl.
  - intros [[= <- <-]|[]]. now left.
  - destruct (String.eqb k0 k); simpl.
    + intros [[= <- <-]|Hin]; [now left|right; now right].
    + intros [Heq|Hin]; [right; now left|].
      destruct (IH Hin); [now left|right; now right].
Qed.

Lemma dict_set_fresh k v d :
  dict_mem k d = false -> dict_set k v d = d ++ [(k, v)].
Proof.
  induction d as [|[k' v'] d IH]; simpl; [reflexivity|].
  destruct (String.eqb k' k); [discriminate|]. intros H. now rewrite IH.
Qed.

End Facts.

End DictFacts.

(** ** The schema cleaner *)

Module SchemaFacts.
Import Py Schema DictFacts.

Lemma json_union_ind (P : json -> Prop) :
  P JNone -> (forall b, P (JBool b)) -> (forall z, P (JInt z)) ->
  (forall bits, P (JFloat bits)) -> (forall s, P (JStr s)) ->
  (forall l, Forall P l -> P (JList l)) ->
  (forall d,
      Forall (fun kv => P (snd kv)) d ->
      Forall (fun kv => below_branches P (snd kv)) d ->
      P (JDict d)) ->
  forall t, P t.
Proof.
  intros HN HB HI HF HS HL HD t.
  enough (H : P t /\ below P t) by apply H.
  induction t as [| | | | |l IH|d IH] using json_ind; simpl; auto.
  - split.
    + apply HL. eapply Forall_impl; [|exact IH]. intros x Hx. apply Hx.
    + eapply Forall_impl; [|exact IH].
      intros [| | | | | |it] [_ Hx]; auto.
  - assert (Hv : Forall (fun kv => P (snd kv)) d).
    { eapply Forall_impl; [|exact IH]. intros kv Hkv. apply Hkv. }
    split; [|exact Hv].
    apply HD; [exact Hv|].
    eapply Forall_impl; [|exact IH].
    intros [k [| | | | |items|it]] [_ Hkv]; simpl; auto.
Qed.

Lemma below_branches_value (P : json -> Prop) items it k v :
  below_branches P (JList items) -> In (JDict it) items -> In (k, v) it -> P v.
Proof.
  simpl. rewrite Forall_forall. intros H Hit Hv.
  specialize (H _ Hit). simpl in H. rewrite Forall_forall in H.
  apply (H (k, v) Hv).
Qed.

(** *** Unfolding *)

Lemma on_key_get {B} k (found : json -> B) missing d :
  on_key k found missing d =
  match dict_get k d with
  | Some v => found v
  | None => missing
  end.
Proof.
  induction d as [|[k' v] d IH]; simpl; [reflexivity|].
  destruct (String.eqb k' k); auto.
Qed.

Lemma clean_schema_dict d :
  clean_schema (JDict d) =
  match dict_get "anyOf" d with
  | Some any_of =>
      cleaned <- flatten_union clean_schema any_of ;; Ok (JDict cleaned)
  | None =>
      cleaned <- copy_items clean_schema copy_excluded d [] ;;
      Ok (JDict cleaned)
  end.
Proof.
  simpl. rewrite on_key_get. destruct (dict_get "anyOf" d); reflexivity.
Qed.

Lemma clean_schema_list l :
  clean_schema (JList l) = l' <- for_each clean_schema l ;; Ok (JList l').
Proof. reflexivity. Qed.

Lemma bind_Ok {A B} (r : result A) (k : A -> result B) b :
  bind r k = Ok b -> exists a, r = Ok a /\ k a = Ok b.
Proof. destruct r; simpl; [eauto|discriminate]. Qed.

Ltac bind_inv H :=
  let a := fresh "a" in
  let Ha := fresh "Ha" in
  apply bind_Ok in H; destruct H as [a [Ha H]].

(** *** The loops *)

Section Loops.
Variable rec : json -> result json.

(** Every entry of the dict the copy loop leaves was there before or is
    the cleaned value of an entry of the items that is not excluded. *)
Lemma copy_items_entries ex items : forall c c',
  copy_items rec ex items c = Ok c' ->
  forall k v', In (k, v') c' ->
    In (k, v') c \/
    (str_in k ex = false /\ exists v, In (k, v) items /\ rec v = Ok v').
Proof.
  induction items as [|[k0 v0] items IH]; simpl; intros c c' H k v' Hin.
  - injection H as <-. now left.
  - destruct (str_in k0 ex) eqn:Eex.
    + destruct (IH _ _ H _ _ Hin) as [Hc|[Hk [v [Hv Hr]]]]; [now left|].
      right. split; [assumption|]. exists v. split; [now right|assumption].
    + bind_inv H.
      destruct (IH _ _ H _ _ Hin) as [Hc|[Hk [v [Hv Hr]]]].
      * apply In_dict_set in Hc. destruct Hc as [[-> ->]|Hc]; [|now left].
        right. split; [assumption|]. exists v0. split; [now left|assumption].
      * right. split; [assumption|]. exists v.
        split; [now right|assumption].
Qed.

(** The keys of the dict the copy loop leaves. *)
Lemma copy_items_mem ex items : forall c c',
  copy_items rec ex items c = Ok c' ->
  forall k, dict_mem k c' =
            dict_mem k c || (dict_mem k items && negb (str_in k ex)).
Proof.
  induction items as [|[k0 v0] items IH]; simpl; intros c c' H k.
  - injection H as <-. now rewrite orb_false_r.
  - destruct (str_in k0 ex) eqn:Eex.
    + rewrite (IH _ _ H). destruct (String.eqb k0 k) eqn:E; [|reflexivity].
      apply String.eqb_eq in E. subst k0. rewrite Eex. simpl.
      now rewrite andb_false_r.
    + bind_inv H. rewrite (IH _ _ H), dict_mem_set.
      destruct (String.eqb k0 k) eqn:E.
      * apply String.eqb_eq in E. subst k0. rewrite Eex. simpl.
        now rewrite !orb_true_r.
      * simpl. reflexivity.
Qed.

(** A key the items do not write to keeps its value. *)
Lemma copy_items_other ex items : forall c c',
  copy_items rec ex items c = Ok c' ->
  forall k, dict_mem k items && negb (str_in k ex) = false ->
            dict_get k c' = dict_get k c.
Proof.
  induction items as [|[k0 v0] items IH]; simpl; intros c c' H k Hk.
  - now injection H as <-.
  - destruct (str_in k0 ex) eqn:Eex.
    + apply (IH _ _ H). destruct (String.eqb k0 k); [|assumption].
      destruct (dict_mem k items); [|reflexivity].
      destruct (str_in k ex); [reflexivity|discriminate].
    + bind_inv H. destruct (String.eqb k0 k) eqn:E.
      * apply String.eqb_eq in E. subst k0. rewrite Eex in Hk. discriminate.
      * rewrite (IH _ _ H _ Hk). apply dict_get_set_other.
        apply String.eqb_neq in E. congruence.
Qed.

(** A key of the items, not excluded, takes the cleaned value. *)
Lemma copy_items_get ex items : forall c c',
  nodupb (map fst items) = true ->
  copy_items rec ex items c = Ok c' ->
  forall k v, dict_get k items = Some v -> str_in k ex = false ->
              exists v', rec v = Ok v' /\ dict_get k c' = Some v'.
Proof.
  induction items as [|[k0 v0] items IH]; simpl; intros c c' Hnd H k v Hg Hk;
    [discriminate|].
  apply andb_prop in Hnd. destruct Hnd as [Hk0 Hnd].
  destruct (String.eqb k0 k) eqn:E.
  - apply String.eqb_eq in E. subst k0. injection Hg as ->.
    rewrite Hk in H. bind_inv H. exists a. split; [assumption|].
    rewrite (copy_items_other _ _ _ _ H).
    + apply dict_get_set_same.
    + rewrite str_in_mem in Hk0. apply negb_true_iff in Hk0.
      now rewrite Hk0.
  - destruct (str_in k0 ex).
    + eapply IH; eauto.
    + bind_inv H. eapply IH; eauto.
Qed.

(** The copy loop keeps the keys distinct. *)
Lemma copy_items_nodup ex items : forall c c',
  copy_items rec ex items c = Ok c' ->
  nodupb (map fst c) = true -> nodupb (map fst c') = true.
Proof.
  induction items as [|[k0 v0] items IH]; simpl; intros c c' H Hnd.
  - now injection H as <-.
  - destruct (str_in k0 ex); [eauto|].
    bind_inv H. eapply IH; [eassumption|]. now apply nodupb_set.
Qed.

(** The copy loop raises only what [rec] raises. *)
Lemma copy_items_total ex items : forall c,
  Forall (fun kv => exists v', rec (snd kv) = Ok v') items ->
  exists c', copy_items rec ex items c = Ok c'.
Proof.
  induction items as [|[k0 v0] items IH]; simpl; intros c Hall; [eauto|].
  inversion Hall as [|? ? [v' Hv] Hrest]; subst. simpl in Hv.
  destruct (str_in k0 ex); [auto|].
  rewrite Hv. simpl. auto.
Qed.

End Loops.

#[local] Arguments String.eqb : simpl never.

Section Branches.
Variable rec : json -> result json.

Lemma flatten_branches_mem items : forall c c',
  flatten_branches rec items c = Ok c' ->
  forall k, dict_mem k c' = dict_mem k c || existsb (branch_writes k) items.
Proof.
  induction items as [|item items IH]; simpl; intros c c' H k.
  - injection H as <-. now rewrite orb_false_r.
  - destruct item as [| | | | | |it]; try discriminate. simpl.
    destruct (is_null_branch it).
    + rewrite (IH _ _ H), dict_mem_set.
      destruct (String.eqb "nullable" k), (dict_mem k c); reflexivity.
    + bind_inv H.
      rewrite (IH _ _ H), (copy_items_mem _ _ _ _ _ Ha). now rewrite orb_assoc.
Qed.

Lemma flatten_branches_entries items : forall c c',
  flatten_branches rec items c = Ok c' ->
  forall k v', In (k, v') c' ->
    In (k, v') c \/
    (k = "nullable" /\ v' = JBool true) \/
    (str_in k branch_excluded = false /\
     exists it v, In (JDict it) items /\ is_null_branch it = false /\
                  In (k, v) it /\ rec v = Ok v').
Proof.
  induction items as [|item items IH]; simpl; intros c c' H k v' Hin.
  - injection H as <-. now left.
  - destruct item as [| | | | | |it]; try discriminate.
    destruct (is_null_branch it) eqn:En.
    + destruct (IH _ _ H _ _ Hin) as [Hc|[Hn|[Hk [it' [v [Hi Hr]]]]]].
      * apply In_dict_set in Hc. destruct Hc as [[-> ->]|Hc]; auto.
      * auto.
      * right. right. split; [assumption|]. exists it', v. tauto.
    + bind_inv H.
      destruct (IH _ _ H _ _ Hin) as [Hc|[Hn|[Hk [it' [v [Hi Hr]]]]]].
      * destruct (copy_items_entries _ _ _ _ _ Ha _ _ Hc)
          as [Hc'|[Hk [v [Hv Hr]]]]; [now left|].
        right. right. split; [assumption|]. exists it, v. tauto.
      * auto.
      * right. right. split; [assumption|]. exists it', v. tauto.
Qed.

Lemma flatten_branches_nodup items : forall c c',
  flatten_branches rec items c = Ok c' ->
  nodupb (map fst c) = true -> nodupb (map fst c') = true.
Proof.
  induction items as [|item items IH]; simpl; intros c c' H Hnd.
  - now injection H as <-.
  - destruct item as [| | | | | |it]; try discriminate.
    destruct (is_null_branch it).
    + eapply IH; [eassumption|]. now apply nodupb_set.
    + bind_inv H. eapply IH; [eassumption|].
      eapply copy_items_nodup; eassumption.
Qed.

Lemma flatten_branches_total items : forall c,
  forallb is_dict items = true ->
  below_branches (fun v => exists v', rec v = Ok v') (JList items) ->
  exists c', flatten_branches rec items c = Ok c'.
Proof.
  induction items as [|item items IH]; simpl; intros c Hd Hb; [eauto|].
  apply andb_prop in Hd. destruct Hd as [Hi Hd].
  inversion Hb as [|? ? Hit Hrest]; subst.
  destruct item as [| | | | | |it]; try discriminate.
  destruct (is_null_branch it); [now apply IH|].
  destruct (copy_items_total rec branch_excluded it c Hit) as [c1 Hc1].
  rewrite Hc1. simpl. now apply IH.
Qed.

(** The comprehension of line 83, element by element. *)
Lemma for_each_nth l : forall l',
  for_each rec l = Ok l' ->
  List.length l' = List.length l /\
  forall i x, nth_error l i = Some x ->
              exists x', rec x = Ok x' /\ nth_error l' i = Some x'.
Proof.
  induction l as [|x l IH]; simpl; intros l' H.
  - injection H as <-. split; [reflexivity|]. intros [|i] y; discriminate.
  - bind_inv H. bind_inv H. injection H as <-.
    destruct (IH _ Ha0) as [Hlen Hnth]. split; [simpl; congruence|].
    intros [|i] y; simpl.
    + intros [= <-]. eauto.
    + apply Hnth.
Qed.

Lemma for_each_In l : forall l',
  for_each rec l = Ok l' ->
  forall x', In x' l' -> exists x, In x l /\ rec x = Ok x'.
Proof.
  induction l as [|x l IH]; simpl; intros l' H x' Hin.
  - injection H as <-. contradiction.
  - bind_inv H. bind_inv H. injection H as <-.
    destruct Hin as [<-|Hin]; [eauto|].
    destruct (IH _ Ha0 _ Hin) as [y [Hy Hr]]. eauto.
Qed.

Lemma for_each_total l :
  Forall (fun x => exists x', rec x = Ok x') l ->
  exists l', for_each rec l = Ok l'.
Proof.
  induction 1 as [|x l [x' Hx] _ [l' Hl]]; simpl; [eauto|].
  rewrite Hx, Hl. simpl. eauto.
Qed.

Lemma for_each_map (f : json -> json) l :
  Forall (fun x => rec x = Ok (f x)) l -> for_each rec l = Ok (map f l).
Proof.
  induction 1 as [|x l Hx _ IH]; simpl; [reflexivity|].
  now rewrite Hx, IH.
Qed.

End Branches.

(** *** The cleaner returns on a schema tree *)

Lemma clean_schema_total t :
  schema_shaped t = true -> exists t', clean_schema t = Ok t'.
Proof.
  induction t as [| | | | |l IH|d IH IHb] using json_union_ind;
    intros Hs; try (eexists; reflexivity).
  - simpl in Hs. rewrite forallb_forall in Hs.
    destruct (for_each_total clean_schema l) as [l' Hl'].
    { rewrite Forall_forall in *. auto. }
    rewrite clean_schema_list, Hl'. simpl. eauto.
  - simpl in Hs. apply andb_prop in Hs. destruct Hs as [Hu Hv].
    rewrite forallb_forall in Hv.
    assert (Hvals : Forall (fun kv => exists v', clean_schema (snd kv) = Ok v') d).
    { rewrite Forall_forall in *. auto. }
    rewrite clean_schema_dict.
    destruct (dict_get "anyOf" d) as [any_of|] eqn:Eu.
    + destruct any_of as [| | | | |items|]; try discriminate.
      assert (Hin := dict_get_Some_In _ _ _ Eu).
      rewrite Forall_forall in IHb. specialize (IHb _ Hin). simpl in IHb.
      assert (Hv' := Hv _ Hin). simpl in Hv'. rewrite forallb_forall in Hv'.
      destruct (flatten_branches_total clean_schema items [] Hu) as [c Hc].
      { simpl. rewrite Forall_forall in *. intros item Hitem.
        specialize (IHb _ Hitem). specialize (Hv' _ Hitem).
        destruct item as [| | | | | |it]; auto.
        simpl in Hv'. apply andb_prop in Hv'. destruct Hv' as [_ Hv'].
        rewrite forallb_forall in Hv'. rewrite Forall_forall in *. auto. }
      simpl. rewrite Hc. simpl. eauto.
    + destruct (copy_items_total clean_schema copy_excluded d [] Hvals)
        as [c Hc].
      rewrite Hc. simpl. eauto.
Qed.

(** *** The output *)

Lemma wf_json_dict d :
  wf_json (JDict d) = true <->
  nodupb (map fst d) = true /\ forall k v, In (k, v) d -> wf_json v = true.
Proof.
  simpl. rewrite andb_true_iff, forallb_forall. split.
  - intros [Hn Hv]. split; [assumption|]. intros k v Hin. apply (Hv (k, v) Hin).
  - intros [Hn Hv]. split; [assumption|]. intros [k v] Hin. eapply Hv; eauto.
Qed.

(** The output has no key twice, whatever the input. *)
Lemma clean_schema_wf s : forall t, clean_schema s = Ok t -> wf_json t = true.
Proof.
  induction s as [| | | | |l IH|d IH IHb] using json_union_ind; intros t H;
    try (injection H as <-; reflexivity).
  - rewrite clean_schema_list in H. bind_inv H. injection H as <-.
    simpl. apply forallb_forall. intros x' Hx'.
    destruct (for_each_In _ _ _ Ha _ Hx') as [x [Hx Hr]].
    rewrite Forall_forall in IH. eauto.
  - rewrite clean_schema_dict in H.
    destruct (dict_get "anyOf" d) as [any_of|] eqn:Eu.
    + bind_inv H. injection H as <-.
      assert (Hin := dict_get_Some_In _ _ _ Eu).
      rewrite Forall_forall in IHb. specialize (IHb _ Hin). simpl in IHb.
      destruct any_of as [| | | |[|]|items|[|]]; try discriminate;
        try (injection Ha as <-; reflexivity).
      simpl in Ha. apply wf_json_dict. split.
      * eapply flatten_branches_nodup; [eassumption|reflexivity].
      * intros k v' Hk.
        destruct (flatten_branches_entries _ _ _ _ Ha _ _ Hk)
          as [[]|[[_ ->]|[_ [it [v [Hit [_ [Hv Hr]]]]]]]]; [reflexivity|].
        apply (below_branches_value _ _ _ _ _ IHb Hit Hv _ Hr).
    + bind_inv H. injection H as <-. apply wf_json_dict. split.
      * eapply copy_items_nodup; [eassumption|reflexivity].
      * intros k v' Hk.
        destruct (copy_items_entries _ _ _ _ _ Ha _ _ Hk)
          as [[]|[_ [v [Hv Hr]]]].
        rewrite Forall_forall in IH. apply (IH _ Hv _ Hr).
Qed.

Lemma has_key_dict_false k d :
  has_key k (JDict d) = false <->
  dict_mem k d = false /\ forall k' v, In (k', v) d -> has_key k v = false.
Proof.
  simpl. rewrite orb_false_iff. split; intros [Hm Hv]; (split; [assumption|]).
  - intros k' v Hin. destruct (has_key k v) eqn:E; [|reflexivity].
    rewrite <- Hv. symmetry. apply existsb_exists. exists (k', v). auto.
  - destruct (existsb _ d) eqn:E; [|reflexivity].
    apply existsb_exists in E. destruct E as [[k' v] [Hin Hk]].
    simpl in Hk. rewrite (Hv _ _ Hin) in Hk. discriminate.
Qed.

Lemma has_key_list_false k l :
  has_key k (JList l) = false <-> forall x, In x l -> has_key k x = false.
Proof.
  simpl. split.
  - intros H x Hin. destruct (has_key k x) eqn:E; [|reflexivity].
    rewrite <- H. symmetry. apply existsb_exists. eauto.
  - intros H. destruct (existsb _ l) eqn:E; [|reflexivity].
    apply existsb_exists in E. destruct E as [x [Hin Hk]].
    rewrite (H _ Hin) in Hk. discriminate.
Qed.

Lemma not_from_branch_value k d k' v :
  not_from_branch k (JDict d) = true -> In (k', v) d ->
  not_from_branch k v = true.
Proof.
  unfold not_from_branch. destruct (str_in k branch_excluded); [reflexivity|].
  simpl. intros H Hin. apply andb_prop in H. destruct H as [_ H].
  rewrite forallb_forall in H. apply (H (k', v) Hin).
Qed.

Lemma not_from_branch_elem k l x :
  not_from_branch k (JList l) = true -> In x l -> not_from_branch k x = true.
Proof.
  unfold not_from_branch. destruct (str_in k branch_excluded); [reflexivity|].
  simpl. intros H Hin. rewrite forallb_forall in H. auto.
Qed.

Lemma cleaned_key_not_nullable k :
  cleaned_key k = true -> String.eqb "nullable" k = false.
Proof.
  unfold cleaned_key, copy_excluded, str_in. simpl.
  intros H. apply String.eqb_neq. intros <-. discriminate.
Qed.

(** None of the five keys is in the output, unless it comes out of a branch
    of a union. *)
Lemma clean_schema_no_key k :
  cleaned_key k = true ->
  forall s t,
    not_from_branch k s = true -> clean_schema s = Ok t -> has_key k t = false.
Proof.
  intros Hk s.
  induction s as [| | | | |l IH|d IH IHb] using json_union_ind; intros t Hs H;
    try (injection H as <-; reflexivity).
  - rewrite clean_schema_list in H. bind_inv H. injection H as <-.
    apply has_key_list_false. intros x' Hx'.
    destruct (for_each_In _ _ _ Ha _ Hx') as [x [Hx Hr]].
    rewrite Forall_forall in IH.
    eapply IH; eauto using not_from_branch_elem.
  - rewrite clean_schema_dict in H.
    destruct (dict_get "anyOf" d) as [any_of|] eqn:Eu.
    + bind_inv H. injection H as <-.
      assert (Hin := dict_get_Some_In _ _ _ Eu).
      rewrite Forall_forall in IHb. specialize (IHb _ Hin). simpl in IHb.
      destruct any_of as [| | | |[|]|items|[|]]; try discriminate;
        try (injection Ha as <-; reflexivity).
      simpl in Ha. apply has_key_dict_false. split.
      * rewrite (flatten_branches_mem _ _ _ _ Ha). simpl.
        destruct (existsb (branch_writes k) items) eqn:E; [|reflexivity].
        apply existsb_exists in E. destruct E as [item [Hitem Hw]].
        destruct item as [| | | | | |it]; try discriminate.
        unfold branch_writes in Hw.
        destruct (is_null_branch it) eqn:En.
        { rewrite cleaned_key_not_nullable in Hw by assumption. discriminate. }
        unfold not_from_branch in Hs.
        destruct (str_in k branch_excluded);
          [simpl in Hw; rewrite andb_false_r in Hw; discriminate|].
        simpl in Hs. rewrite Eu in Hs. apply andb_prop in Hs.
        destruct Hs as [Hs _]. rewrite forallb_forall in Hs.
        specialize (Hs _ Hitem). simpl in Hs. rewrite En in Hs. simpl in Hs.
        rewrite andb_true_r in Hs. apply negb_true_iff in Hs.
        rewrite Hs in Hw. discriminate.
      * intros k' v' Hk'.
        destruct (flatten_branches_entries _ _ _ _ Ha _ _ Hk')
          as [[]|[[_ ->]|[_ [it [v [Hit [_ [Hv Hr]]]]]]]]; [reflexivity|].
        apply (below_branches_value _ _ _ _ _ IHb Hit Hv); [|exact Hr].
        eapply not_from_branch_value; [|exact Hv].
        eapply not_from_branch_elem; [|exact Hit].
        eapply not_from_branch_value; eassumption.
    + bind_inv H. injection H as <-. apply has_key_dict_false. split.
      * rewrite (copy_items_mem _ _ _ _ _ Ha).
        change (dict_mem k []) with false. rewrite orb_false_l.
        unfold cleaned_key in Hk. apply orb_prop in Hk.
        destruct Hk as [Hk|Hk].
        { apply String.eqb_eq in Hk. subst k.
          apply dict_get_none_mem in Eu. now rewrite Eu. }
        rewrite Hk. apply andb_false_r.
      * intros k' v' Hk'.
        destruct (copy_items_entries _ _ _ _ _ Ha _ _ Hk')
          as [[]|[_ [v [Hv Hr]]]].
        rewrite Forall_forall in IH.
        apply (IH _ Hv); [|exact Hr].
        eapply not_from_branch_value; eassumption.
Qed.

(** *** Trees without unions *)

Lemma nodupb_app_cons xs k ys :
  nodupb (xs ++ k :: ys) = true ->
  str_in k xs = false /\ nodupb (xs ++ ys) = true /\
  nodupb ((xs ++ [k]) ++ ys) = true.
Proof.
  induction xs as [|x xs IH]; simpl.
  - intros H. apply andb_prop in H. destruct H as [Hk Hn].
    rewrite Hk, Hn. auto.
  - intros H. apply andb_prop in H. destruct H as [Hx Hn].
    destruct (IH Hn) as [Hk [Hn1 Hn2]].
    rewrite !str_in_app in *. simpl in *.
    rewrite Hn1, Hn2, Hk. rewrite orb_false_r.
    destruct (str_in x xs); [discriminate|].
    simpl in *. rewrite (String.eqb_sym k x).
    destruct (String.eqb x k); [discriminate|].
    simpl in *. rewrite Hx. auto.
Qed.

(** With distinct keys the copy loop is the plain copy without the
    excluded keys. *)
Lemma copy_items_drop rec (f : json -> json) ex items : forall c,
  nodupb (map fst c ++ map fst items) = true ->
  Forall (fun kv => rec (snd kv) = Ok (f (snd kv))) items ->
  copy_items rec ex items c = Ok (c ++ drop_keys f ex items).
Proof.
  induction items as [|[k0 v0] items IH]; simpl; intros c Hnd Hall.
  - now rewrite app_nil_r.
  - inversion Hall as [|? ? Hv Hrest]; subst. simpl in Hv.
    apply nodupb_app_cons in Hnd. destruct Hnd as [Hk [Hn1 Hn2]].
    destruct (str_in k0 ex); [auto|].
    rewrite Hv. simpl. rewrite str_in_mem in Hk.
    rewrite dict_set_fresh by assumption.
    rewrite IH; [now rewrite <- app_assoc| |assumption].
    now rewrite map_app.
Qed.

Lemma union_free_dict d :
  union_free (JDict d) = true ->
  dict_get "anyOf" d = None /\
  forall k v, In (k, v) d -> union_free v = true.
Proof.
  unfold union_free. rewrite negb_true_iff, has_key_dict_false.
  intros [Hm Hv]. split; [now apply dict_get_none_mem|].
  intros k v Hin. rewrite negb_true_iff. eauto.
Qed.

(** On a tree without unions the cleaner is the copy without the metadata
    keys. *)
Lemma clean_schema_union_free s :
  wf_json s = true -> union_free s = true ->
  clean_schema s = Ok (without_metadata s).
Proof.
  induction s as [| | | | |l IH|d IH] using json_ind; intros Hwf Hu;
    try reflexivity.
  - rewrite clean_schema_list.
    rewrite (for_each_map _ without_metadata); [reflexivity|].
    simpl in Hwf. rewrite forallb_forall in Hwf.
    unfold union_free in Hu. rewrite negb_true_iff, has_key_list_false in Hu.
    rewrite Forall_forall in *. intros x Hx. apply IH; auto.
    unfold union_free. rewrite negb_true_iff. auto.
  - apply wf_json_dict in Hwf. destruct Hwf as [Hnd Hwf].
    apply union_free_dict in Hu. destruct Hu as [Hg Hu].
    rewrite clean_schema_dict, Hg.
    rewrite (copy_items_drop _ without_metadata); [reflexivity|exact Hnd|].
    rewrite Forall_forall in *. intros [k v] Hin. simpl.
    apply (IH _ Hin); eauto.
Qed.

Lemma drop_keys_id (f : json -> json) ex d :
  (forall k, In k ex -> dict_mem k d = false) ->
  (forall k v, In (k, v) d -> f v = v) ->
  drop_keys f ex d = d.
Proof.
  induction d as [|[k0 v0] d IH]; simpl; intros Hex Hf; [reflexivity|].
  destruct (str_in k0 ex) eqn:E.
  - apply str_in_In in E. specialize (Hex _ E).
    rewrite String.eqb_refl in Hex. discriminate.
  - rewrite (Hf k0 v0) by now left. rewrite IH; [reflexivity| |].
    + intros k Hk. specialize (Hex _ Hk).
      destruct (String.eqb k0 k); [discriminate|assumption].
    + intros k v Hin. eapply Hf. right. eassumption.
Qed.

(** A tree without the metadata keys has nothing to lose. *)
Lemma without_metadata_id t :
  (forall k, In k copy_excluded -> has_key k t = false) ->
  without_metadata t = t.
Proof.
  induction t as [| | | | |l IH|d IH] using json_ind; intros H;
    try reflexivity.
  - simpl. f_equal. rewrite <- (map_id l) at 2. apply map_ext_in.
    intros x Hx. rewrite Forall_forall in IH. apply IH; [assumption|].
    intros k Hk. specialize (H _ Hk). rewrite has_key_list_false in H. auto.
  - simpl. f_equal. apply drop_keys_id.
    + intros k Hk. specialize (H _ Hk). apply has_key_dict_false in H. tauto.
    + intros k v Hin. rewrite Forall_forall in IH. apply (IH _ Hin).
      intros k' Hk'. specialize (H _ Hk'). apply has_key_dict_false in H.
      destruct H as [_ H]. eauto.
Qed.

(** A tree none of whose dicts has one of the five keys is left as it is. *)
Lemma clean_schema_fixed t :
  wf_json t = true ->
  (forall k, cleaned_key k = true -> has_key k t = false) ->
  clean_schema t = Ok t.
Proof.
  intros Hwf H.
  rewrite clean_schema_union_free; [|assumption|].
  - f_equal. apply without_metadata_id. intros k Hk. apply H.
    unfold cleaned_key. apply str_in_In in Hk. rewrite Hk. apply orb_true_r.
  - unfold union_free. rewrite H; reflexivity.
Qed.

Lemma branch_avoids_one ks k item :
  branch_avoids ks item = true -> In k ks -> branch_avoids [k] item = true.
Proof.
  destruct item as [| | | | | |it]; simpl; auto.
  destruct (is_null_branch it); simpl; [reflexivity|].
  rewrite forallb_forall. intros H Hk. rewrite (H _ Hk). reflexivity.
Qed.

Lemma branches_avoid_one ks k t :
  In k ks -> branches_avoid ks t = true -> branches_avoid [k] t = true.
Proof.
  intros Hk.
  induction t as [| | | | |l IH|d IH] using json_ind; intros H;
    try reflexivity.
  - simpl in *. rewrite forallb_forall in *. rewrite Forall_forall in IH. auto.
  - simpl in *. apply andb_prop in H. destruct H as [Hb Hv].
    apply andb_true_intro. split.
    + destruct (dict_get "anyOf" d) as [[| | | | |items|]|]; auto.
      rewrite forallb_forall in *. eauto using branch_avoids_one.
    + rewrite forallb_forall in *. rewrite Forall_forall in IH.
      intros kv Hin. apply (IH _ Hin). auto.
Qed.

(** The second pass changes nothing when no branch of a union brings in a
    key the copy path drops or a union of its own. *)
Lemma clean_schema_twice s t :
  branches_avoid ["$ref"; "$defs"; "anyOf"] s = true ->
  clean_schema s = Ok t -> clean_schema t = Ok t.
Proof.
  intros Hb H. apply clean_schema_fixed.
  - eapply clean_schema_wf; eassumption.
  - intros k Hk. eapply clean_schema_no_key; [exact Hk| |exact H].
    unfold not_from_branch.
    destruct (str_in k branch_excluded) eqn:E; [reflexivity|]. simpl.
    eapply branches_avoid_one; [|exact Hb].
    unfold cleaned_key, copy_excluded, branch_excluded, str_in in *.
    simpl in *.
    destruct (String.eqb k "anyOf") eqn:E1;
      [apply String.eqb_eq in E1; subst; simpl; tauto|].
    destruct (String.eqb k "title"); [discriminate|].
    destruct (String.eqb k "description"); [discriminate|].
    destruct (String.eqb k "$ref") eqn:E2;
      [apply String.eqb_eq in E2; subst; simpl; tauto|].
    destruct (String.eqb k "$defs") eqn:E3;
      [apply String.eqb_eq in E3; subst; simpl; tauto|].
    discriminate.
Qed.

(** *** Positions *)

Lemma wf_json_child st s u :
  wf_json s = true -> child st s = Some u -> wf_json u = true.
Proof.
  destruct st as [k|i], s as [| | | | |l|d]; simpl; try discriminate.
  - intros H Hg. apply andb_prop in H. destruct H as [_ H].
    rewrite forallb_forall in H.
    apply (H (k, u)). now apply dict_get_Some_In.
  - intros H Hn. rewrite forallb_forall in H. apply H.
    eapply nth_error_In; eassumption.
Qed.

Lemma wf_json_at_path p : forall s u,
  wf_json s = true -> at_path p s = Some u -> wf_json u = true.
Proof.
  induction p as [|st p IH]; simpl; intros s u Hwf H.
  - now injection H as <-.
  - destruct (child st s) as [s'|] eqn:E; [|discriminate].
    eauto using wf_json_child.
Qed.

(** A kept step leads in the output to the cleaned child. *)
Lemma clean_schema_child st s t u :
  wf_json s = true -> clean_schema s = Ok t ->
  kept_step st s = true -> child st s = Some u ->
  exists u', child st t = Some u' /\ clean_schema u = Ok u'.
Proof.
  destruct st as [k|i], s as [| | | | |l|d]; simpl; try discriminate;
    intros Hwf H Hk Hc.
  - apply andb_prop in Hk. destruct Hk as [Hu Hk].
    rewrite negb_true_iff in Hu, Hk. apply dict_get_none_mem in Hu.
    change (clean_schema (JDict d) = Ok t) in H.
    rewrite clean_schema_dict, Hu in H. bind_inv H. injection H as <-.
    apply andb_prop in Hwf. destruct Hwf as [Hnd _].
    destruct (copy_items_get _ _ _ _ _ Hnd Ha _ _ Hc Hk) as [v' [Hv Hg]].
    exists v'. simpl. auto.
  - change (clean_schema (JList l) = Ok t) in H.
    rewrite clean_schema_list in H. bind_inv H. injection H as <-.
    destruct (for_each_nth _ _ _ Ha) as [_ Hn].
    destruct (Hn _ _ Hc) as [x' [Hx Hn']]. exists x'. simpl. auto.
Qed.

Lemma clean_schema_at_path p : forall s t u,
  wf_json s = true -> clean_schema s = Ok t ->
  kept_path p s = true -> at_path p s = Some u ->
  exists u', at_path p t = Some u' /\ clean_schema u = Ok u'.
Proof.
  induction p as [|st p IH]; simpl; intros s t u Hwf H Hk Hp.
  - injection Hp as <-. eauto.
  - apply andb_prop in Hk. destruct Hk as [Hst Hk].
    destruct (child st s) as [s'|] eqn:E; [|discriminate].
    destruct (clean_schema_child _ _ _ _ Hwf H Hst E) as [t' [Ht' Hc]].
    rewrite Ht'. apply (IH s' t' u); try assumption.
    eapply wf_json_child; eassumption.
Qed.

(** *** The union of a real type and null *)

Lemma clean_optional_union d real out :
  wf_json (JDict d) = true ->
  optional_union d real ->
  dict_mem "nullable" real = false ->
  clean_schema (JDict d) = Ok out ->
  exists c,
    out = JDict c /\
    dict_get "nullable" c = Some (JBool true) /\
    (forall k v,
        dict_get k real = Some v -> str_in k branch_excluded = false ->
        exists v', clean_schema v = Ok v' /\ dict_get k c = Some v') /\
    (forall k,
        dict_mem k c =
        String.eqb "nullable" k ||
        (dict_mem k real && negb (str_in k branch_excluded))).
Proof.
  intros Hwf [Hreal [null [Hnull Hu]]] Hn H.
  rewrite clean_schema_dict in H.
  assert (Hnd : nodupb (map fst real) = true).
  { assert (Hw : wf_json (JList [JDict real; JDict null]) = true \/
                 wf_json (JList [JDict null; JDict real]) = true).
    { destruct Hu as [Hu|Hu]; [left|right];
        apply (wf_json_child (Key "anyOf") _ _ Hwf Hu). }
    simpl in Hw. rewrite !andb_true_iff in Hw. tauto. }
  destruct Hu as [Hu|Hu]; rewrite Hu in H; simpl in H;
    rewrite Hreal, ?Hnull in H.
  - bind_inv H. injection H as <-. bind_inv Ha. injection Ha as <-.
    eexists. split; [reflexivity|]. split; [apply dict_get_set_same|]. split.
    + intros k v Hg Hk.
      destruct (copy_items_get _ _ _ _ _ Hnd Ha0 _ _ Hg Hk) as [v' [Hv Hg']].
      exists v'. split; [assumption|].
      rewrite dict_get_set_other; [assumption|].
      intros ->. apply dict_get_none_mem in Hn. congruence.
    + intros k. rewrite dict_mem_set, (copy_items_mem _ _ _ _ _ Ha0).
      reflexivity.
  - bind_inv H. injection H as <-. bind_inv Ha. injection Ha as <-.
    eexists. split; [reflexivity|]. split; [|split].
    + rewrite (copy_items_other _ _ _ _ _ Ha0); [reflexivity|].
      now rewrite Hn.
    + intros k v Hg Hk.
      apply (copy_items_get _ _ _ _ _ Hnd Ha0 _ _ Hg Hk).
    + intros k. rewrite (copy_items_mem _ _ _ _ _ Ha0). simpl.
      destruct (String.eqb "nullable" k); reflexivity.
Qed.

(** *** Several branches that are not null *)

(** With two branches that are not null, a key of the second takes the
    value of the second, whatever the first holds under it. *)
Lemma later_branch_wins d a b c k v :
  wf_json (JDict d) = true ->
  dict_get "anyOf" d = Some (JList [JDict a; JDict b]) ->
  is_null_branch a = false -> is_null_branch b = false ->
  dict_get k b = Some v -> str_in k branch_excluded = false ->
  clean_schema (JDict d) = Ok (JDict c) ->
  exists v', clean_schema v = Ok v' /\ dict_get k c = Some v'.
Proof.
  intros Hwf Hu Ha Hb Hg Hk H.
  rewrite clean_schema_dict, Hu in H. simpl in H. rewrite Ha in H.
  bind_inv H. injection H as <-. bind_inv Ha0. rewrite Hb in Ha0.
  bind_inv Ha0. injection Ha0 as <-.
  assert (Hw := wf_json_child (Key "anyOf") _ _ Hwf Hu). simpl in Hw.
  rewrite !andb_true_iff in Hw.
  eapply copy_items_get; [|eassumption|eassumption|assumption]. tauto.
Qed.

End SchemaFacts.

(** ** What the specification says of the schema cleaner *)

Module SchemaClaims.
Import Py Schema DictFacts SchemaFacts.

#[local] Arguments String.eqb : simpl never.

(** C1, as amended.  In a schema tree whose dicts have distinct keys, take
    a union of exactly two branches, a real type without a key ['nullable']
    of its own and a null branch, at a position the copy path keeps.  Then
    [clean_schema] returns, and at that position of the output stands a dict
    with ['nullable'] set to [True], with every key of the real type but
    ['title'] and ['description'] bound to the cleaned value, and with no
    other key.  No ['anyOf'] key is left anywhere in the output when no
    branch of a union of the input, other than a null branch, has an
    ['anyOf'] key of its own. *)
Theorem optional_union_collapsed s p d real :
  wf_json s = true ->
  schema_shaped s = true ->
  kept_path p s = true ->
  at_path p s = Some (JDict d) ->
  optional_union d real ->
  dict_mem "nullable" real = false ->
  exists t c,
    clean_schema s = Ok t /\
    at_path p t = Some (JDict c) /\
    dict_get "nullable" c = Some (JBool true) /\
    (forall k v,
        dict_get k real = Some v -> str_in k branch_excluded = false ->
        exists v', clean_schema v = Ok v' /\ dict_get k c = Some v') /\
    (forall k,
        dict_mem k c =
        String.eqb "nullable" k ||
        (dict_mem k real && negb (str_in k branch_excluded))) /\
    (branches_avoid ["anyOf"] s = true -> has_key "anyOf" t = false).
Proof.
  intros Hwf Hshape Hkept Hat Hunion Hnullable.
  destruct (clean_schema_total s Hshape) as [t Ht].
  destruct (clean_schema_at_path _ _ _ _ Hwf Ht Hkept Hat) as [u' [Hat' Hu']].
  assert (Hwfd := wf_json_at_path _ _ _ Hwf Hat).
  destruct (clean_optional_union _ _ _ Hwfd Hunion Hnullable Hu')
    as [c [-> [Hn [Hfields Hkeys]]]].
  exists t, c. repeat split; try assumption.
  intros Hb. apply (clean_schema_no_key "anyOf" eq_refl s t); [|exact Ht].
  unfold not_from_branch. rewrite Hb. apply orb_true_r.
Qed.

Lemma optional_union_collapsed_witness :
  exists t c,
    clean_schema report_schema = Ok t /\
    at_path [Key "properties"; Key "total_revenue"] t = Some (JDict c) /\
    dict_get "nullable" c = Some (JBool true) /\
    dict_get "type" c = Some (JStr "number") /\
    dict_mem "title" c = false /\
    has_key "anyOf" t = false.
Proof.
  assert (Hunion : optional_union revenue_field number_type).
  { split; [reflexivity|]. exists null_type.
    split; [reflexivity|left; reflexivity]. }
  destruct (optional_union_collapsed report_schema
              [Key "properties"; Key "total_revenue"] revenue_field
              number_type eq_refl eq_refl eq_refl eq_refl Hunion eq_refl)
    as [t [c [Ht [Hc [Hn [Hfields [Hkeys Hany]]]]]]].
  exists t, c. repeat (split; [assumption|]).
  split; [|split; [rewrite Hkeys; reflexivity|exact (Hany eq_refl)]].
  destruct (Hfields "type" (JStr "number") eq_refl eq_refl) as [v' [Hv Hg]].
  injection Hv as <-. exact Hg.
Defined.

(** C1 as stated fails: the real type below is the second branch and has
    the keys ['nullable'] and ['anyOf'] of its own.  The output node has
    ['nullable'] set to [False], and ['anyOf'] is still a key of it. *)
Lemma optional_union_counterexample :
  wf_json (JDict optional_constrained_string) = true /\
  schema_shaped (JDict optional_constrained_string) = true /\
  optional_union optional_constrained_string constrained_string /\
  exists c,
    clean_schema (JDict optional_constrained_string) = Ok (JDict c) /\
    dict_get "nullable" c = Some (JBool false) /\
    dict_mem "anyOf" c = true /\
    has_key "anyOf" (JDict c) = true.
Proof.
  split; [reflexivity|]. split; [reflexivity|]. split.
  - split; [reflexivity|]. exists null_type.
    split; [reflexivity|right; reflexivity].
  - eexists. split; [reflexivity|]. repeat split.
Qed.

(** C2, as amended.  For a tree of dicts with distinct keys: without a
    union, [clean_schema] returns the tree without the keys ['title'],
    ['description'], ['$ref'] and ['$defs'] at every level, nothing else
    changed, and returns the same on its own output; with unions, on a
    schema tree none of whose union branches, the null branches apart, has
    a key ['$ref'], ['$defs'] or ['anyOf'], it returns a tree that it
    leaves as it is. *)
Theorem clean_schema_idempotent s :
  wf_json s = true ->
  (union_free s = true ->
   clean_schema s = Ok (without_metadata s) /\
   clean_schema (without_metadata s) = Ok (without_metadata s)) /\
  (schema_shaped s = true ->
   branches_avoid ["$ref"; "$defs"; "anyOf"] s = true ->
   exists t, clean_schema s = Ok t /\ clean_schema t = Ok t).
Proof.
  intros Hwf. split.
  - intros Hu. assert (H := clean_schema_union_free s Hwf Hu).
    split; [exact H|].
    apply (clean_schema_twice s); [|exact H].
    clear H. unfold union_free in Hu. apply negb_true_iff in Hu.
    induction s as [| | | | |l IH|d IH] using json_ind; try reflexivity.
    + simpl. apply forallb_forall. intros x Hx.
      rewrite Forall_forall in IH. apply IH; [assumption| |].
      * simpl in Hwf. rewrite forallb_forall in Hwf. auto.
      * rewrite has_key_list_false in Hu. auto.
    + apply has_key_dict_false in Hu. destruct Hu as [Hm Hv].
      apply wf_json_dict in Hwf. destruct Hwf as [_ Hwf].
      simpl. apply dict_get_none_mem in Hm. rewrite Hm. simpl.
      apply forallb_forall. intros [k v] Hin.
      rewrite Forall_forall in IH. apply (IH _ Hin); simpl; eauto.
  - intros Hshape Hb. destruct (clean_schema_total s Hshape) as [t Ht].
    exists t. split; [exact Ht|]. eapply clean_schema_twice; eassumption.
Qed.

Lemma clean_schema_idempotent_witness :
  (clean_schema company_schema = Ok (without_metadata company_schema) /\
   clean_schema (without_metadata company_schema) =
   Ok (without_metadata company_schema)) /\
  (exists t, clean_schema report_schema = Ok t /\ clean_schema t = Ok t).
Proof.
  split.
  - apply (proj1 (clean_schema_idempotent company_schema eq_refl)).
    reflexivity.
  - apply (proj2 (clean_schema_idempotent report_schema eq_refl));
      reflexivity.
Defined.

(** C2 as stated fails: the first pass keeps the ['$ref'] of the branch of
    the union, the second pass is on the copy path and drops it. *)
Lemma idempotence_counterexample :
  wf_json optional_address = true /\
  schema_shaped optional_address = true /\
  clean_schema optional_address =
    Ok (JDict [("$ref", JStr "#/$defs/Address"); ("nullable", JBool true)]) /\
  clean_schema
    (JDict [("$ref", JStr "#/$defs/Address"); ("nullable", JBool true)]) =
    Ok (JDict [("nullable", JBool true)]) /\
  (exists once twice,
      clean_schema optional_address = Ok once /\
      clean_schema once = Ok twice /\
      has_key "$ref" once = true /\ has_key "$ref" twice = false /\
      twice <> once).
Proof.
  repeat (split; [reflexivity|]).
  do 2 eexists. repeat (split; [reflexivity|]). discriminate.
Qed.

(** C3: the code at a union of two branches that are not null.  The key
    ['type'] is in both; the output holds the value of the second branch,
    not of the first. *)
Theorem first_branch_overwritten :
  clean_schema
    (JDict [("anyOf", JList [JDict [("type", JStr "string")];
                             JDict [("type", JStr "integer")]])]) =
  Ok (JDict [("type", JStr "integer")]).
Proof. reflexivity. Qed.

(** C5.  A value that is neither a dict nor a list is returned as it is. *)
Theorem clean_schema_scalar s :
  is_dict s = false -> is_list s = false -> clean_schema s = Ok s.
Proof. destruct s; simpl; intros Hd Hl; try reflexivity; discriminate. Qed.

Lemma clean_schema_scalar_witness : clean_schema (JStr "string") = Ok (JStr "string").
Proof. apply (clean_schema_scalar (JStr "string")); reflexivity. Defined.

(** C10.  Take a union node [u] with a branch [it], not a null branch, that
    has the key [k], one of ['$ref'] and ['$defs'], and a node [n] without
    union that has the same key.  The output for [u] has the key [k], bound
    to the cleaned value of [k] in a branch of [u], and the output for [n]
    does not have it; neither has ['title'] or ['description']. *)
Theorem metadata_filter_asymmetric (u n : dict) items it k :
  schema_shaped (JDict u) = true ->
  schema_shaped (JDict n) = true ->
  dict_get "anyOf" u = Some (JList items) ->
  In (JDict it) items ->
  is_null_branch it = false ->
  dict_mem k it = true ->
  dict_get "anyOf" n = None ->
  dict_mem k n = true ->
  In k ["$ref"; "$defs"] ->
  (exists c,
      clean_schema (JDict u) = Ok (JDict c) /\
      (exists it' v v',
          In (JDict it') items /\ is_null_branch it' = false /\
          In (k, v) it' /\ clean_schema v = Ok v' /\
          dict_get k c = Some v') /\
      dict_mem "title" c = false /\ dict_mem "description" c = false) /\
  (exists c,
      clean_schema (JDict n) = Ok (JDict c) /\
      dict_mem k c = false /\
      dict_mem "title" c = false /\ dict_mem "description" c = false).
Proof.
  intros Hu Hn Hany Hit Hnull Hk Hnone Hkn Hkin.
  assert (Hkb : str_in k branch_excluded = false /\
                str_in k copy_excluded = true).
  { simpl in Hkin. destruct Hkin as [<-|[<-|[]]]; split; reflexivity. }
  destruct Hkb as [Hkb Hkc].
  split.
  - destruct (clean_schema_total _ Hu) as [t Ht].
    rewrite clean_schema_dict, Hany in Ht. bind_inv Ht. injection Ht as <-.
    simpl in Ha. rewrite clean_schema_dict, Hany. simpl. rewrite Ha. simpl.
    exists a. split; [reflexivity|].
    assert (Hmem := flatten_branches_mem _ _ _ _ Ha).
    repeat split.
    + assert (Hm : dict_mem k a = true).
      { rewrite Hmem. simpl. apply existsb_exists. exists (JDict it).
        split; [assumption|]. unfold branch_writes.
        now rewrite Hnull, Hk, Hkb. }
      rewrite dict_mem_get in Hm.
      destruct (dict_get k a) as [v'|] eqn:Eg; [|discriminate].
      destruct (flatten_branches_entries _ _ _ _ Ha _ _
                  (dict_get_Some_In _ _ _ Eg))
        as [[]|[[-> _]|[_ [it' [v [Hit' [Hn' [Hv Hr]]]]]]]];
        [discriminate|].
      exists it', v, v'. auto.
    + rewrite Hmem. simpl.
      destruct (existsb (branch_writes "title") items) eqn:E; [|reflexivity].
      apply existsb_exists in E. destruct E as [[| | | | | |x] [_ Hw]];
        try discriminate.
      unfold branch_writes in Hw. destruct (is_null_branch x);
        [discriminate|]. now rewrite andb_false_r in Hw.
    + rewrite Hmem. simpl.
      destruct (existsb (branch_writes "description") items) eqn:E;
        [|reflexivity].
      apply existsb_exists in E. destruct E as [[| | | | | |x] [_ Hw]];
        try discriminate.
      unfold branch_writes in Hw. destruct (is_null_branch x);
        [discriminate|]. now rewrite andb_false_r in Hw.
  - destruct (clean_schema_total _ Hn) as [t Ht].
    rewrite clean_schema_dict, Hnone in Ht. bind_inv Ht. injection Ht as <-.
    rewrite clean_schema_dict, Hnone, Ha. simpl.
    exists a. split; [reflexivity|].
    assert (Hmem := copy_items_mem _ _ _ _ _ Ha).
    repeat split; rewrite Hmem.
    + rewrite Hkc. simpl. apply andb_false_r.
    + change (str_in "title" copy_excluded) with true.
      simpl. apply andb_false_r.
    + change (str_in "description" copy_excluded) with true.
      simpl. apply andb_false_r.
Qed.

Lemma metadata_filter_asymmetric_witness :
  (exists c,
      clean_schema
        (JDict [("anyOf", JList [JDict address_ref_titled; JDict null_type])])
      = Ok (JDict c) /\
      (exists it' v v',
          In (JDict it') [JDict address_ref_titled; JDict null_type] /\
          is_null_branch it' = false /\
          In ("$ref", v) it' /\ clean_schema v = Ok v' /\
          dict_get "$ref" c = Some v') /\
      dict_mem "title" c = false /\ dict_mem "description" c = false) /\
  (exists c,
      clean_schema (JDict address_ref_titled) = Ok (JDict c) /\
      dict_mem "$ref" c = false /\
      dict_mem "title" c = false /\ dict_mem "description" c = false).
Proof.
  apply (metadata_filter_asymmetric
           [("anyOf", JList [JDict address_ref_titled; JDict null_type])]
           address_ref_titled
           [JDict address_ref_titled; JDict null_type]
           address_ref_titled "$ref");
    try reflexivity.
  - left. reflexivity.
  - left. reflexivity.
Defined.

End SchemaClaims.

(** ** The extractor *)

Module ExtractorFacts.
Import Py Program Extractor.
Local Open Scope string_scope.

Lemma or_empty_some s : or_empty (Some s) = s.
Proof. destruct s; reflexivity. Qed.

Lemma concat_empty_cons s l :
  String.concat "" (s :: l) = s ++ String.concat "" l.
Proof.
  destruct l as [|x l]; simpl; [|reflexivity].
  induction s as [|c s IH]; simpl; [reflexivity|]. now rewrite <- IH.
Qed.

(** Pages that do not raise: the texts in order, nothing for a page
    without text. *)
Lemma join_pages_readable pages :
  forallb readable pages = true ->
  join_pages pages = Ok (String.concat "" (map page_text pages)).
Proof.
  induction pages as [|p pages IH]; intros H; [reflexivity|].
  simpl in H. apply andb_prop in H. destruct H as [Hp H].
  cbn [join_pages map]. rewrite concat_empty_cons, (IH H).
  destruct p as [s| |e]; [|reflexivity|discriminate].
  cbn [extract_text bind page_text]. now rewrite or_empty_some.
Qed.

(** main.py: [load_file] returns whatever the file is, and prints at
    most. *)
Lemma load_file_returns fs path :
  exists trace text,
    load_file fs path = (trace, Returns text) /\
    existsb is_api_call trace = false /\
    (fs path = NoSuchFile ->
     text = "" /\
     trace = [Printed ("Error: PDF file not found at " ++ path)]) /\
    (forall e, fs path = Unopenable e \/ fs path = Opens (Corrupt e) ->
     text = "" /\ exists line, trace = [Printed line]) /\
    (forall pages, fs path = Opens (Pages pages) ->
     forallb readable pages = true ->
     text = String.concat "" (map page_text pages) /\ trace = []).
Proof.
  unfold load_file, read_pdf.
  destruct (fs path) as [|e|[e|pages]].
  - do 2 eexists. split; [reflexivity|]. split; [reflexivity|].
    split; [auto|]. split; [intros e [H|H]; discriminate|discriminate].
  - destruct e as [[| | | | | |name] msg];
      (do 2 eexists; split; [reflexivity|]; split; [reflexivity|];
       split; [discriminate|];
       split; [intros e' _; split; [reflexivity|eexists; reflexivity]
              |discriminate]).
  - destruct e as [[| | | | | |name] msg];
      (do 2 eexists; split; [reflexivity|]; split; [reflexivity|];
       split; [discriminate|];
       split; [intros e' _; split; [reflexivity|eexists; reflexivity]
              |discriminate]).
  - destruct (join_pages pages) as [text|e] eqn:E.
    + do 2 eexists. split; [reflexivity|]. split; [reflexivity|].
      split; [discriminate|]. split; [intros e [H|H]; discriminate|].
      intros pages' [= <-] Hr. rewrite (join_pages_readable _ Hr) in E.
      injection E as <-. auto.
    + destruct e as [[| | | | | |name] msg];
        (do 2 eexists; split; [reflexivity|]; split; [reflexivity|];
         split; [discriminate|];
         split; [intros e' [H|H]; discriminate|];
         intros pages' [= <-] Hr; rewrite (join_pages_readable _ Hr) in E;
         discriminate).
Qed.

End ExtractorFacts.

Module ExtractorClaims.
Import Py Program Extractor.
Local Open Scope string_scope.

(** C6: the two [load_file] on a missing file.  The one of counter.py
    raises [FileNotFoundError]; the one of main.py prints and returns the
    empty string. *)
Theorem counter_load_file_raises :
  Counter.load_file empty_disk "meta_10k.pdf" =
    ([], Raises (file_not_found "meta_10k.pdf")) /\
  load_file empty_disk "meta_10k.pdf" =
    ([Printed "Error: PDF file not found at meta_10k.pdf"], Returns "").
Proof. split; reflexivity. Qed.

End ExtractorClaims.

(** ** The pipeline *)

Module PipelineClaims.
Import Py Program Extractor Text Report Validator Pipeline ExtractorFacts.
Local Open Scope string_scope.

(** C7.  When the extraction returns the empty text, the run prints what
    the extraction printed and the line that says why it stops, and ends
    with [exit()]; neither [genai.configure] nor the generation call is
    among its events. *)
Theorem empty_text_stops_before_api env trace :
  load_file (fs env) "meta_10k.pdf" = (trace, Returns "") ->
  main env =
    ((trace ++ [Printed "Exiting due to empty or unreadable PDF content."])%list,
     Exits) /\
  existsb is_api_call (fst (main env)) = false.
Proof.
  intros H.
  assert (Hmain : main env =
    ((trace ++ [Printed "Exiting due to empty or unreadable PDF content."])%list,
     Exits)).
  { unfold main. rewrite H. reflexivity. }
  split; [exact Hmain|].
  rewrite Hmain. simpl. rewrite existsb_app. simpl. rewrite orb_false_r.
  destruct (load_file_returns (fs env) "meta_10k.pdf")
    as [trace' [text [Hl [Hapi _]]]].
  rewrite H in Hl. injection Hl as <- _. exact Hapi.
Qed.

Lemma empty_text_stops_before_api_witness :
  main without_input =
    ([Printed "Error: PDF file not found at meta_10k.pdf";
      Printed "Exiting due to empty or unreadable PDF content."],
     Exits) /\
  existsb is_api_call (fst (main without_input)) = false.
Proof.
  apply (empty_text_stops_before_api without_input
           [Printed "Error: PDF file not found at meta_10k.pdf"]).
  reflexivity.
Defined.

End PipelineClaims.

(** ** The name of the report *)

Module ReportClaims.
Import Py Text Report.
Local Open Scope string_scope.

Lemma replace_char a b s :
  replace (String a "") (String b "") s =
  map_chars (fun c => if Ascii.eqb c a then b else c) s.
Proof.
  unfold replace.
  induction s as [|c s IH]; [reflexivity|].
  cbn [replace_from map_chars prefix String.length Nat.sub].
  rewrite IH. destruct (ascii_dec a c) as [->|Hne].
  - rewrite Ascii.eqb_refl. destruct s; reflexivity.
  - destruct (Ascii.eqb c a) eqn:E; [|reflexivity].
    apply Ascii.eqb_eq in E. congruence.
Qed.

Lemma map_chars_compose f g s :
  map_chars g (map_chars f s) = map_chars (fun c => g (f c)) s.
Proof. induction s as [|c s IH]; simpl; [reflexivity|]. now rewrite IH. Qed.

Lemma map_chars_ext f g s :
  (forall c, f c = g c) -> map_chars f s = map_chars g s.
Proof.
  intros H. induction s as [|c s IH]; simpl; [reflexivity|].
  now rewrite H, IH.
Qed.

(** C8.  The file name is ["annual_report_"], the company name with every
    space and every slash turned into an underscore and every other
    character as it is, ["_"], the year of the fiscal year end in decimal,
    and [".pdf"]; for "Meta Platforms, Inc." and 2024 it is
    ["annual_report_Meta_Platforms,_Inc._2024.pdf"]. *)
Theorem filename_underscored :
  (forall ar,
      filename ar =
      "annual_report_" ++ map_chars underscored (company_name ar) ++ "_"
      ++ str_of_N (year (fiscal_year_end ar)) ++ ".pdf") /\
  filename meta_2024 = "annual_report_Meta_Platforms,_Inc._2024.pdf".
Proof.
  split; [|reflexivity].
  intros ar. unfold filename. do 2 f_equal.
  change "/" with (String "/"%char "").
  change " " with (String " "%char "").
  change "_" with (String "_"%char "").
  rewrite !replace_char, map_chars_compose.
  apply map_chars_ext. intros c. unfold underscored.
  destruct (Ascii.eqb c " ") eqn:E1; [reflexivity|].
  destruct (Ascii.eqb c "/") eqn:E2; reflexivity.
Qed.

End ReportClaims.

(** ** The validator *)

Module ValidatorClaims.
Import Py Text Report Validator.
Local Open Scope string_scope.




Section Claims.
Variable parse_json : string -> option json.
Variable datetime_of_json : json -> option datetime.
Variable float_of_json : json -> option float.
Variable int_of_json : json -> option Z.

#[local] Abbreviation validate :=
  (model_validate_json parse_json datetime_of_json float_of_json int_of_json).


End Claims.



End ValidatorClaims.

(** ** The schema cleaner on the heap *)

Module HeapFacts.
Import Py Heap DictFacts.

#[local] Arguments String.eqb : simpl never.

(** *** What a run leaves as it was *)

Lemma keeps_refl n w : keeps n w w.
Proof. repeat split; auto. Qed.

Lemma keeps_trans n w1 w2 w3 :
  keeps n w1 w2 -> keeps n w2 w3 -> keeps n w1 w3.
Proof.
  intros [Ho1 [Hl1 Ha1]] [Ho2 [Hl2 Ha2]]. repeat split.
  - congruence.
  - lia.
  - intros a Ha. rewrite Ha2, Ha1; auto.
Qed.

Lemma keeps_le n m w w' : n <= m -> keeps m w w' -> keeps n w w'.
Proof.
  intros Hle [Ho [Hl Ha]]. repeat split; auto. intros a Hlt. apply Ha. lia.
Qed.

Lemma frame_ret {A} n (a : A) : frame_ok n (ret a).
Proof. intros w r w' _ [= <- <-]. apply keeps_refl. Qed.

Lemma frame_raise {A} n e : frame_ok n (@raise A e).
Proof. intros w r w' _ [= <- <-]. apply keeps_refl. Qed.

Lemma frame_stuck {A} n : frame_ok n (@stuck A).
Proof. intros w r w' _ [=]. Qed.

Lemma frame_load n a : frame_ok n (load a).
Proof.
  intros w r w' _. unfold load.
  destruct (nth_error (heap w) a); intros [= <- <-]. apply keeps_refl.
Qed.

Lemma frame_bind {A B} n (m : M A) (k : A -> M B) :
  frame_ok n m ->
  (forall a w w',
      n <= List.length (heap w) -> m w = Some (Ok a, w') -> frame_ok n (k a)) ->
  frame_ok n (mbind m k).
Proof.
  intros Hm Hk w r w' Hn. unfold mbind.
  destruct (m w) as [[[a|e] w1]|] eqn:E; [| |discriminate].
  - intros H. assert (H1 := Hm _ _ _ Hn E).
    apply (keeps_trans _ _ _ _ H1).
    apply (Hk _ _ _ Hn E w1 r w'); [|exact H]. destruct H1 as [_ [Hl _]]. lia.
  - intros [= <- <-]. eauto.
Qed.

Lemma frame_alloc n o : frame_ok n (alloc o).
Proof.
  intros w r w' Hn [= <- <-]. repeat split; simpl.
  - rewrite length_app. lia.
  - intros a Ha. apply nth_error_app1. lia.
Qed.

Lemma length_set_nth {A} a (x : A) l :
  List.length (set_nth a x l) = List.length l.
Proof.
  revert a. induction l as [|y l IH]; intros [|a]; simpl; auto.
Qed.

Lemma nth_error_set_nth_other {A} a b (x : A) l :
  a <> b -> nth_error (set_nth a x l) b = nth_error l b.
Proof.
  revert a b. induction l as [|y l IH]; intros [|a] [|b] Hne; simpl; auto.
  congruence.
Qed.

Lemma nth_error_set_nth_same {A} a (x y : A) l :
  nth_error l a = Some y -> nth_error (set_nth a x l) a = Some x.
Proof.
  revert a. induction l as [|z l IH]; intros [|a]; simpl; auto; discriminate.
Qed.

Lemma frame_store n a o : n <= a -> frame_ok n (store a o).
Proof.
  intros Hle w r w' _. unfold store.
  destruct (nth_error (heap w) a); intros [= <- <-]. repeat split; simpl.
  - rewrite length_set_nth. lia.
  - intros b Hb. apply nth_error_set_nth_other. lia.
Qed.

Lemma frame_set_item n c k v : n <= c -> frame_ok n (set_item c k v).
Proof.
  intros Hle. apply frame_bind; [apply frame_load|].
  intros [d|l] w w' _ _; [now apply frame_store|apply frame_raise].
Qed.

Lemma frame_append n r v : n <= r -> frame_ok n (append r v).
Proof.
  intros Hle. apply frame_bind; [apply frame_load|].
  intros [d|l] w w' _ _; [apply frame_raise|now apply frame_store].
Qed.

Lemma frame_for_list n fuel : forall a i body,
  (forall x, frame_ok n (body x)) -> frame_ok n (for_list fuel a i body).
Proof.
  induction fuel as [|fuel IH]; intros a i body Hb; [apply frame_stuck|].
  simpl. apply frame_bind; [apply frame_load|].
  intros [d|l] w w' _ _; [apply frame_stuck|].
  destruct (nth_error l i); [|apply frame_ret].
  apply frame_bind; [apply Hb|]. intros; now apply IH.
Qed.

Lemma frame_for_items n fuel : forall a size i body,
  (forall k v, frame_ok n (body k v)) ->
  frame_ok n (for_items fuel a size i body).
Proof.
  induction fuel as [|fuel IH]; intros a size i body Hb; [apply frame_stuck|].
  simpl. apply frame_bind; [apply frame_load|].
  intros [d|l] w w' _ _; [|apply frame_stuck].
  destruct (negb _); [apply frame_raise|].
  destruct (nth_error d i) as [[k v]|]; [|apply frame_ret].
  apply frame_bind; [apply Hb|]. intros; now apply IH.
Qed.

Lemma frame_copy_entry n rec c ex k v :
  n <= c -> (forall x, frame_ok n (rec x)) ->
  frame_ok n (copy_entry rec c ex k v).
Proof.
  intros Hle Hrec. unfold copy_entry.
  destruct (str_in k ex); [apply frame_ret|].
  apply frame_bind; [apply Hrec|]. intros; now apply frame_set_item.
Qed.

Lemma frame_flatten_branch n fuel rec c item :
  n <= c -> (forall x, frame_ok n (rec x)) ->
  frame_ok n (flatten_branch fuel rec c item).
Proof.
  intros Hle Hrec. unfold flatten_branch.
  destruct item; try apply frame_raise.
  apply frame_bind; [apply frame_load|].
  intros [it|l] w w' _ _; [|apply frame_raise].
  destruct (is_null_branch it); [now apply frame_set_item|].
  apply frame_for_items. intros; now apply frame_copy_entry.
Qed.

Lemma frame_flatten_union n fuel rec c any_of :
  n <= c -> (forall x, frame_ok n (rec x)) ->
  frame_ok n (flatten_union fuel rec c any_of).
Proof.
  intros Hle Hrec. unfold flatten_union.
  destruct any_of as [| | | |[|]|b]; try apply frame_raise;
    try apply frame_ret.
  apply frame_bind; [apply frame_load|].
  intros [[|]|l] w w' _ _; [apply frame_ret|apply frame_raise|].
  apply frame_for_list. intros; now apply frame_flatten_branch.
Qed.

(** A call of [clean_schema] changes no object that was there before the
    call and prints nothing, whatever the store and however the call
    ends. *)
Lemma frame_clean_schema fuel : forall n schema,
  frame_ok n (clean_schema fuel schema).
Proof.
  induction fuel as [|fuel IH]; intros n schema; [apply frame_stuck|].
  simpl. destruct schema as [| | | | |a]; try apply frame_ret.
  apply frame_bind; [apply frame_load|].
  intros [d|l] w w' _ _.
  - apply frame_bind; [apply frame_alloc|].
    intros c w1 w2 Hn [= <- _].
    apply frame_bind; [|intros; apply frame_ret].
    destruct (dict_get "anyOf" d).
    + now apply frame_flatten_union.
    + apply frame_for_items. intros; now apply frame_copy_entry.
  - apply frame_bind; [apply frame_alloc|].
    intros c w1 w2 Hn [= <- _].
    apply frame_bind; [|intros; apply frame_ret].
    apply frame_for_list. intros x.
    apply frame_bind; [apply IH|]. intros; now apply frame_append.
Qed.

(** *** Trees in the store *)

Lemma all2_impl_Forall {A B} (P : A -> Prop) (R R' : A -> B -> Prop) xs :
  Forall P xs ->
  (forall x y, P x -> R x y -> R' x y) ->
  forall ys, all2 R xs ys -> all2 R' xs ys.
Proof.
  intros HP Himp. induction HP as [|x xs Hx _ IH]; intros [|y ys]; simpl; auto.
  intros [Hxy Hrest]. auto.
Qed.

Lemma all2_impl {A B} (R R' : A -> B -> Prop) xs :
  (forall x y, R x y -> R' x y) ->
  forall ys, all2 R xs ys -> all2 R' xs ys.
Proof.
  intros Himp. induction xs as [|x xs IH]; intros [|y ys]; simpl; auto.
  intros [Hxy Hrest]. auto.
Qed.

Lemma all2_length {A B} (R : A -> B -> Prop) xs :
  forall ys, all2 R xs ys -> List.length xs = List.length ys.
Proof.
  induction xs as [|x xs IH]; intros [|y ys]; simpl; try tauto.
  intros [_ H]. f_equal. auto.
Qed.

Lemma all2_app {A B} (R : A -> B -> Prop) xs xs' :
  forall ys ys',
    all2 R xs ys -> all2 R xs' ys' -> all2 R (xs ++ xs') (ys ++ ys').
Proof.
  induction xs as [|x xs IH]; intros [|y ys] ys'; simpl; try tauto.
  intros [Hxy H] H'. auto.
Qed.

(** A tree stays where it is when the objects from [lo] on stay. *)
Lemma repr_transport lo lo' h h' t :
  lo' <= lo ->
  (forall a o, lo <= a -> nth_error h a = Some o -> nth_error h' a = Some o) ->
  forall v, repr lo h t v -> repr lo' h' t v.
Proof.
  intros Hle Hh.
  induction t as [| | | | |ts IH|td IH] using json_ind; simpl; auto.
  - intros v [a [vs [-> [Ha [Hn Hall]]]]]. exists a, vs.
    repeat split; [lia|auto|]. revert Hall.
    apply (all2_impl_Forall (fun t => forall v, repr lo h t v ->
                                                repr lo' h' t v));
      [exact IH|auto].
  - intros v [a [vd [-> [Ha [Hn Hall]]]]]. exists a, vd.
    repeat split; [lia|auto|]. revert Hall.
    apply (all2_impl_Forall (fun kt => forall v, repr lo h (snd kt) v ->
                                                  repr lo' h' (snd kt) v));
      [exact IH|].
    intros kt kv Hkt [Hk Hr]. split; auto.
Qed.

Lemma base_keeps h w w' :
  base h w -> keeps (List.length h) w w' -> base h w'.
Proof.
  intros Hb [_ [_ Ha]] a o Hn. rewrite Ha; [auto|].
  apply nth_error_Some. congruence.
Qed.

Lemma repr_base h w t v : base h w -> repr 0 h t v -> repr 0 (heap w) t v.
Proof. intros Hb. apply repr_transport; [lia|]. intros a o _. apply Hb. Qed.

Lemma keeps_at n w w' a o :
  keeps n w w' -> a < n -> nth_error (heap w) a = Some o ->
  nth_error (heap w') a = Some o.
Proof. intros [_ [_ Ha]] Hlt Hn. rewrite Ha; auto. Qed.

(** Related dicts. *)
Lemma related_get lo h k td :
  forall vd,
    all2 (entry_repr lo h) td vd ->
    match dict_get k td, dict_get k vd with
    | Some t, Some v => repr lo h t v
    | None, None => True
    | _, _ => False
    end.
Proof.
  induction td as [|[k1 t] td IH]; intros [|[k2 v] vd]; simpl; try tauto.
  intros [[Hk Hr] Hall]. simpl in Hk, Hr. subst k2.
  destruct (String.eqb k1 k); [exact Hr|apply IH; exact Hall].
Qed.

Lemma related_set lo h k t v td :
  forall vd,
    all2 (entry_repr lo h) td vd -> repr lo h t v ->
    all2 (entry_repr lo h) (dict_set k t td) (dict_set k v vd).
Proof.
  induction td as [|[k1 t1] td IH]; intros [|[k2 v1] vd]; simpl; try tauto.
  - intros _ Hr. repeat split; auto.
  - intros [[Hk Hr1] Hall] Hr. simpl in Hk, Hr1. subst k2.
    destruct (String.eqb k1 k); simpl.
    + repeat split; auto.
    + repeat split; auto.
Qed.

Lemma repr_str lo h t v s : repr lo h t v -> (t = JStr s <-> v = VStr s).
Proof.
  destruct t; simpl.
  1-5: intros ->; split; congruence.
  - intros [a [vs [-> _]]]. split; discriminate.
  - intros [a [vd [-> _]]]. split; discriminate.
Qed.

Lemma related_is_null lo h td vd :
  all2 (entry_repr lo h) td vd ->
  Schema.is_null_branch td = is_null_branch vd.
Proof.
  intros H. assert (Hg := related_get lo h "type" td vd H).
  unfold Schema.is_null_branch, is_null_branch.
  destruct (dict_get "type" td) as [t|], (dict_get "type" vd) as [v|];
    try tauto.
  destruct t; simpl in Hg; try (subst v; reflexivity).
  - destruct Hg as [a [vs [-> _]]]. reflexivity.
  - destruct Hg as [a [vs [-> _]]]. reflexivity.
Qed.

(** Sizes. *)
Lemma size_pos t : 1 <= size t.
Proof. destruct t; simpl; lia. Qed.

Lemma size_elem t ts : In t ts -> size t <= list_sum (map size ts).
Proof.
  induction ts as [|x ts IH]; simpl; [contradiction|].
  intros [->|Hin]; [lia|]. specialize (IH Hin). lia.
Qed.

Lemma size_value (kt : string * json) td :
  In kt td -> size (snd kt) <= list_sum (map (fun kt => size (snd kt)) td).
Proof.
  induction td as [|x td IH]; simpl; [contradiction|].
  intros [->|Hin]; [lia|]. specialize (IH Hin). lia.
Qed.

Lemma length_le_sizes ts : List.length ts <= list_sum (map size ts).
Proof.
  induction ts as [|x ts IH]; simpl; [lia|]. assert (H := size_pos x). lia.
Qed.

Lemma length_le_value_sizes (td : dict) :
  List.length td <= list_sum (map (fun kt => size (snd kt)) td).
Proof.
  induction td as [|x td IH]; simpl; [lia|].
  assert (H := size_pos (snd x)). lia.
Qed.

(** *** Running *)

Lemma run_load {B} a o (k : object -> M B) w :
  nth_error (heap w) a = Some o -> mbind (load a) k w = k o w.
Proof. intros H. unfold mbind, load. now rewrite H. Qed.

Lemma run_bind_ok {A B} (m : M A) (k : A -> M B) w a w1 :
  m w = Some (Ok a, w1) -> mbind m k w = k a w1.
Proof. intros H. unfold mbind. now rewrite H. Qed.

Lemma run_bind_raise {A B} (m : M A) (k : A -> M B) w e w1 :
  m w = Some (Raise e, w1) -> mbind m k w = Some (Raise e, w1).
Proof. intros H. unfold mbind. now rewrite H. Qed.

Lemma run_append r v l w :
  nth_error (heap w) r = Some (OList l) ->
  append r v w = Some (Ok tt, stored r (OList (l ++ [v])) w).
Proof.
  intros H. unfold append. rewrite (run_load _ _ _ _ H).
  unfold store. now rewrite H.
Qed.

Lemma run_set_item c k v d w :
  nth_error (heap w) c = Some (ODict d) ->
  set_item c k v w = Some (Ok tt, stored c (ODict (dict_set k v d)) w).
Proof.
  intros H. unfold set_item. rewrite (run_load _ _ _ _ H).
  unfold store. now rewrite H.
Qed.

Lemma nth_error_middle {A} (xs : list A) x ys :
  nth_error (xs ++ x :: ys) (List.length xs) = Some x.
Proof. rewrite nth_error_app2, Nat.sub_diag by lia. reflexivity. Qed.

Lemma nth_error_end {A} (xs : list A) :
  nth_error (xs ++ []) (List.length xs) = None.
Proof. apply nth_error_None. rewrite app_nil_r. lia. Qed.

Lemma nth_error_lt {A} (l : list A) a x :
  nth_error l a = Some x -> a < List.length l.
Proof. intros H. apply nth_error_Some. congruence. Qed.

(** After a call that keeps the store of [w] and a write at [c], the
    objects of [w] other than [c] are where they were. *)
Lemma stored_other w w1 c o a o' :
  keeps (List.length (heap w)) w w1 ->
  a <> c -> nth_error (heap w) a = Some o' ->
  nth_error (heap (stored c o w1)) a = Some o'.
Proof.
  intros Hk Hne Hn. simpl. rewrite nth_error_set_nth_other by congruence.
  eapply keeps_at; eauto using nth_error_lt.
Qed.

Lemma stored_same w w1 c o o' :
  keeps (List.length (heap w)) w w1 ->
  nth_error (heap w) c = Some o' ->
  nth_error (heap (stored c o w1)) c = Some o.
Proof.
  intros Hk Hn. simpl. eapply nth_error_set_nth_same.
  eapply keeps_at; eauto using nth_error_lt.
Qed.

Lemma base_stored h0 w w1 c o :
  base h0 w -> keeps (List.length (heap w)) w w1 ->
  List.length h0 <= c -> base h0 (stored c o w1).
Proof.
  intros Hb Hk Hc a o' Hn.
  eapply stored_other; eauto. apply nth_error_lt in Hn. lia.
Qed.

(** *** The cleaner on the heap does what the cleaner on trees does *)

(** The comprehension of line 83, from position [length vs1], with the
    list under construction at [r]. *)
Lemma sim_for_list h0 a r fb : forall ts2,
  Forall sim ts2 ->
  (forall t, In t ts2 -> size t < fb) ->
  forall fl vs1 vs2 acc_t acc_v w,
    List.length vs2 < fl ->
    base h0 w ->
    List.length h0 <= r ->
    nth_error h0 a = Some (OList (vs1 ++ vs2)) ->
    nth_error (heap w) r = Some (OList acc_v) ->
    all2 (repr 0 h0) ts2 vs2 ->
    all2 (repr (S r) (heap w)) acc_t acc_v ->
    exists res w',
      for_list fl a (List.length vs1)
        (fun elem => elem' <~ clean_schema fb elem ;; append r elem') w
      = Some (res, w') /\
      match Schema.for_each Schema.clean_schema ts2 with
      | Ok ts2' =>
          res = Ok tt /\
          exists acc_v',
            nth_error (heap w') r = Some (OList acc_v') /\
            all2 (repr (S r) (heap w')) (acc_t ++ ts2') acc_v'
      | Raise e => res = Raise e
      end.
Proof.
  induction ts2 as [|t ts2 IH]; intros Hsim Hsize fl vs1 vs2 acc_t acc_v w
    Hfl Hbase Hr Ha Hacc Hin Hout.
  - destruct vs2 as [|v vs2]; [|contradiction].
    destruct fl as [|fl]; [simpl in Hfl; lia|].
    cbn [for_list]. rewrite (run_load _ _ _ _ (Hbase _ _ Ha)).
    rewrite nth_error_end. exists (Ok tt), w. split; [reflexivity|].
    simpl. split; [reflexivity|]. exists acc_v. now rewrite app_nil_r.
  - destruct vs2 as [|v vs2]; [contradiction|]. destruct Hin as [Hv Hin].
    destruct fl as [|fl]; [simpl in Hfl; lia|].
    cbn [for_list]. rewrite (run_load _ _ _ _ (Hbase _ _ Ha)).
    rewrite nth_error_middle.
    inversion Hsim as [|? ? Ht Hsim']; subst.
    destruct (Ht v w fb (repr_base _ _ _ _ Hbase Hv)
                (Hsize _ (or_introl eq_refl))) as [r1 [w1 [Hrun Hag]]].
    assert (Hk := frame_clean_schema fb _ v w r1 w1 (le_n _) Hrun).
    unfold agrees in Hag. cbn [Schema.for_each].
    destruct (Schema.clean_schema t) as [t'|e].
    + destruct Hag as [v' [-> Hv']].
      assert (Hacc1 : nth_error (heap w1) r = Some (OList acc_v))
        by (eapply keeps_at; eauto using nth_error_lt).
      assert (Hrl := nth_error_lt _ _ _ Hacc).
      destruct (IH Hsim' (fun t Ht => Hsize t (or_intror Ht)) fl
                  (vs1 ++ [v]) vs2 (acc_t ++ [t']) (acc_v ++ [v'])
                  (stored r (OList (acc_v ++ [v'])) w1))
        as [res [w' [Hloop Hres]]].
      * simpl in Hfl. lia.
      * eapply base_stored; eauto.
      * assumption.
      * now rewrite <- app_assoc.
      * eapply stored_same; eauto.
      * assumption.
      * apply all2_app.
        -- revert Hout. apply all2_impl. intros x y.
           apply repr_transport; [lia|]. intros b o Hb Hn.
           eapply stored_other; eauto. lia.
        -- simpl. split; [|exact I]. revert Hv'.
           apply repr_transport; [lia|]. intros b o Hb Hn.
           simpl. rewrite nth_error_set_nth_other by lia. exact Hn.
      * exists res, w'. split.
        -- rewrite (run_bind_ok _ _ w tt (stored r (OList (acc_v ++ [v'])) w1)).
           ++ rewrite length_app, Nat.add_1_r in Hloop. exact Hloop.
           ++ rewrite (run_bind_ok _ _ _ _ _ Hrun). now apply run_append.
        -- simpl. destruct (Schema.for_each Schema.clean_schema ts2);
             [|exact Hres].
           simpl. now rewrite <- app_assoc in Hres.
    + subst r1. exists (Raise e), w1. split; [|reflexivity].
      apply run_bind_raise. now apply run_bind_raise.
Qed.

(** The loop of lines 74-76 and 78-80, from position [length it1], with
    the dict under construction at [c]. *)
Lemma sim_for_items h0 e c fb ex : forall tit2,
  Forall (fun kt => sim (snd kt)) tit2 ->
  (forall kt, In kt tit2 -> size (snd kt) < fb) ->
  forall fl it1 it2 tc cd w,
    List.length it2 < fl ->
    base h0 w ->
    List.length h0 <= c ->
    nth_error h0 e = Some (ODict (it1 ++ it2)) ->
    nth_error (heap w) c = Some (ODict cd) ->
    all2 (entry_repr 0 h0) tit2 it2 ->
    all2 (entry_repr (S c) (heap w)) tc cd ->
    exists res w',
      for_items fl e (List.length (it1 ++ it2)) (List.length it1)
        (copy_entry (clean_schema fb) c ex) w
      = Some (res, w') /\
      match Schema.copy_items Schema.clean_schema ex tit2 tc with
      | Ok tc' =>
          res = Ok tt /\
          exists cd',
            nth_error (heap w') c = Some (ODict cd') /\
            all2 (entry_repr (S c) (heap w')) tc' cd'
      | Raise e => res = Raise e
      end.
Proof.
  induction tit2 as [|[k t] tit2 IH]; intros Hsim Hsize fl it1 it2 tc cd w
    Hfl Hbase Hc He Hacc Hin Hout.
  - destruct it2 as [|kv it2]; [|contradiction].
    destruct fl as [|fl]; [simpl in Hfl; lia|].
    cbn [for_items]. rewrite (run_load _ _ _ _ (Hbase _ _ He)).
    rewrite Nat.eqb_refl. cbn [negb]. rewrite nth_error_end.
    exists (Ok tt), w. split; [reflexivity|].
    simpl. split; [reflexivity|]. exists cd. auto.
  - destruct it2 as [|[k' v] it2]; [contradiction|].
    destruct Hin as [[Hk Hv] Hin]. simpl in Hk, Hv. subst k'.
    destruct fl as [|fl]; [simpl in Hfl; lia|].
    cbn [for_items]. rewrite (run_load _ _ _ _ (Hbase _ _ He)).
    rewrite Nat.eqb_refl. cbn [negb]. rewrite nth_error_middle.
    inversion Hsim as [|? ? Ht Hsim']; subst. simpl in Ht.
    assert (Hsize' : forall kt, In kt tit2 -> size (snd kt) < fb)
      by (intros kt Hkt; apply Hsize; now right).
    assert (Hlen : List.length (it1 ++ (k, v) :: it2) =
                   List.length ((it1 ++ [(k, v)]) ++ it2))
      by now rewrite <- app_assoc.
    assert (Hidx : S (List.length it1) = List.length (it1 ++ [(k, v)]))
      by (rewrite length_app, Nat.add_1_r; reflexivity).
    cbn [Schema.copy_items]. unfold copy_entry at 1.
    destruct (str_in k ex).
    + destruct (IH Hsim' Hsize' fl (it1 ++ [(k, v)]) it2 tc cd w)
        as [res [w' [Hloop Hres]]]; try assumption.
      * simpl in Hfl. lia.
      * now rewrite <- app_assoc.
      * exists res, w'. split; [|exact Hres].
        rewrite (run_bind_ok _ _ w tt w) by reflexivity.
        rewrite Hlen, Hidx. exact Hloop.
    + destruct (Ht v w fb (repr_base _ _ _ _ Hbase Hv)
                  (Hsize (k, t) (or_introl eq_refl))) as [r1 [w1 [Hrun Hag]]].
      assert (Hk := frame_clean_schema fb _ v w r1 w1 (le_n _) Hrun).
      unfold agrees in Hag.
      destruct (Schema.clean_schema t) as [t'|e0].
      * destruct Hag as [v' [-> Hv']].
        assert (Hacc1 : nth_error (heap w1) c = Some (ODict cd))
          by (eapply keeps_at; eauto using nth_error_lt).
        assert (Hcl := nth_error_lt _ _ _ Hacc).
        destruct (IH Hsim' Hsize' fl (it1 ++ [(k, v)]) it2
                    (dict_set k t' tc) (dict_set k v' cd)
                    (stored c (ODict (dict_set k v' cd)) w1))
          as [res [w' [Hloop Hres]]].
        -- simpl in Hfl. lia.
        -- eapply base_stored; eauto.
        -- assumption.
        -- now rewrite <- app_assoc.
        -- eapply stored_same; eauto.
        -- assumption.
        -- apply related_set.
           ++ revert Hout. apply all2_impl. intros x y [Hxy Hr].
              split; [assumption|]. revert Hr.
              apply repr_transport; [lia|]. intros b o Hb Hn.
              eapply stored_other; eauto. lia.
           ++ revert Hv'. apply repr_transport; [lia|]. intros b o Hb Hn.
              simpl. rewrite nth_error_set_nth_other by lia. exact Hn.
        -- exists res, w'. split; [|exact Hres].
           rewrite (run_bind_ok _ _ w tt
                      (stored c (ODict (dict_set k v' cd)) w1)).
           ++ rewrite Hlen, Hidx. exact Hloop.
           ++ rewrite (run_bind_ok _ _ _ _ _ Hrun). now apply run_set_item.
      * subst r1. exists (Raise e0), w1. split; [|reflexivity].
        apply run_bind_raise. now apply run_bind_raise.
Qed.

(** The loop of lines 69-76 over the branches of a union, from position
    [length vs1], with the dict under construction at [c]. *)
Lemma sim_for_branches h0 b c fb : forall titems,
  Schema.below_branches sim (JList titems) ->
  (forall item, In item titems -> size item <= fb) ->
  forall fl vs1 vs2 tc cd w,
    List.length vs2 < fl ->
    base h0 w ->
    List.length h0 <= c ->
    nth_error h0 b = Some (OList (vs1 ++ vs2)) ->
    nth_error (heap w) c = Some (ODict cd) ->
    all2 (repr 0 h0) titems vs2 ->
    all2 (entry_repr (S c) (heap w)) tc cd ->
    exists res w',
      for_list fl b (List.length vs1)
        (flatten_branch fb (clean_schema fb) c) w
      = Some (res, w') /\
      match Schema.flatten_branches Schema.clean_schema titems tc with
      | Ok tc' =>
          res = Ok tt /\
          exists cd',
            nth_error (heap w') c = Some (ODict cd') /\
            all2 (entry_repr (S c) (heap w')) tc' cd'
      | Raise e => res = Raise e
      end.
Proof.
  induction titems as [|item titems IH]; intros Hsim Hsize fl vs1 vs2 tc cd w
    Hfl Hbase Hc Hb Hacc Hin Hout.
  - destruct vs2 as [|v vs2]; [|contradiction].
    destruct fl as [|fl]; [simpl in Hfl; lia|].
    cbn [for_list]. rewrite (run_load _ _ _ _ (Hbase _ _ Hb)).
    rewrite nth_error_end. exists (Ok tt), w. split; [reflexivity|].
    simpl. split; [reflexivity|]. exists cd. auto.
  - destruct vs2 as [|v vs2]; [contradiction|]. destruct Hin as [Hv Hin].
    destruct fl as [|fl]; [simpl in Hfl; lia|].
    cbn [for_list]. rewrite (run_load _ _ _ _ (Hbase _ _ Hb)).
    rewrite nth_error_middle.
    simpl in Hsim. inversion Hsim as [|? ? Hitem Hsim']; subst.
    assert (Hsize' : forall x, In x titems -> size x <= fb)
      by (intros x Hx; apply Hsize; now right).
    assert (Hidx : S (List.length vs1) = List.length (vs1 ++ [v]))
      by (rewrite length_app, Nat.add_1_r; reflexivity).
    assert (Hb' : nth_error h0 b = Some (OList ((vs1 ++ [v]) ++ vs2)))
      by now rewrite <- app_assoc.
    assert (Hfl' : List.length vs2 < fl) by (simpl in Hfl; lia).
    assert (Hcl := nth_error_lt _ _ _ Hacc).
    destruct item as [| | | | |ts|it_t];
      try (simpl in Hv; subst v; eexists; exists w;
           split; [reflexivity|reflexivity]).
    + (* a list among the branches *)
      cbn [repr] in Hv. destruct Hv as [a [vs [-> [_ [Ha _]]]]].
      exists (Raise (Schema.no_get "list")), w. split; [|reflexivity].
      apply run_bind_raise. unfold flatten_branch.
      now rewrite (run_load _ _ _ _ (Hbase _ _ Ha)).
    + (* a dict *)
      cbn [repr] in Hv. destruct Hv as [e [it_v [-> [_ [He Hit]]]]].
      change (all2 (entry_repr 0 h0) it_t it_v) in Hit.
      cbn [Schema.flatten_branches].
      rewrite (related_is_null _ _ _ _ Hit).
      destruct (is_null_branch it_v) eqn:Enull.
      * (* the null branch *)
        destruct (IH Hsim' Hsize' fl (vs1 ++ [VRef e]) vs2
                    (dict_set "nullable" (JBool true) tc)
                    (dict_set "nullable" (VBool true) cd)
                    (stored c (ODict (dict_set "nullable" (VBool true) cd)) w))
          as [res [w' [Hloop Hres]]]; try assumption.
        -- eapply base_stored; eauto using keeps_refl.
        -- eapply stored_same; eauto using keeps_refl.
        -- apply related_set; [|reflexivity].
           revert Hout. apply all2_impl. intros x y [Hxy Hr].
           split; [assumption|]. revert Hr.
           apply repr_transport; [lia|]. intros a o Ha Hn.
           eapply stored_other; eauto using keeps_refl. lia.
        -- exists res, w'. split; [|exact Hres].
           rewrite (run_bind_ok _ _ w tt
                      (stored c (ODict (dict_set "nullable" (VBool true) cd))
                         w)).
           ++ rewrite Hidx. exact Hloop.
           ++ unfold flatten_branch.
              rewrite (run_load _ _ _ _ (Hbase _ _ He)), Enull.
              now apply run_set_item.
      * (* a branch that is copied *)
        assert (Hsz := Hsize (JDict it_t) (or_introl eq_refl)).
        simpl in Hsz.
        assert (Hlen := all2_length _ _ _ Hit).
        assert (Hl := length_le_value_sizes it_t).
        destruct (sim_for_items h0 e c fb Schema.branch_excluded it_t Hitem)
          with (fl := fb) (it1 := @nil (string * value)) (it2 := it_v)
               (tc := tc) (cd := cd) (w := w)
          as [r1 [w1 [Hrun Hag]]]; try assumption.
        -- intros kt Hkt. assert (Hs := size_value kt it_t Hkt). lia.
        -- lia.
        -- assert (Hk : keeps (List.length h0) w w1).
           { eapply (frame_for_items (List.length h0)); [|lia|exact Hrun].
             intros k x. apply frame_copy_entry; [lia|].
             intros y. apply frame_clean_schema. }
           destruct (Schema.copy_items Schema.clean_schema
                       Schema.branch_excluded it_t tc) as [tc1|e0].
           ++ destruct Hag as [-> [cd1 [Hacc1 Hout1]]]. simpl.
              destruct (IH Hsim' Hsize' fl (vs1 ++ [VRef e]) vs2 tc1 cd1 w1)
                as [res [w' [Hloop Hres]]]; try assumption.
              ** eapply base_keeps; eauto.
              ** exists res, w'. split; [|exact Hres].
                 rewrite (run_bind_ok _ _ w tt w1).
                 --- rewrite Hidx. exact Hloop.
                 --- unfold flatten_branch.
                     rewrite (run_load _ _ _ _ (Hbase _ _ He)), Enull.
                     exact Hrun.
           ++ subst r1. exists (Raise e0), w1. split; [|reflexivity].
              apply run_bind_raise. unfold flatten_branch.
              rewrite (run_load _ _ _ _ (Hbase _ _ He)), Enull. exact Hrun.
Qed.

Lemma base_alloc w o :
  base (heap w) {| heap := heap w ++ [o]; stdout := stdout w |}.
Proof.
  intros a o' Hn. simpl. rewrite nth_error_app1; [exact Hn|].
  eapply nth_error_lt; eassumption.
Qed.

Lemma nth_error_alloc (h : list object) o :
  nth_error (h ++ [o]) (List.length h) = Some o.
Proof. apply nth_error_middle. Qed.

Lemma repr_dict_at lo h c tc cd :
  lo <= c -> nth_error h c = Some (ODict cd) ->
  all2 (entry_repr (S c) h) tc cd ->
  repr lo h (JDict tc) (VRef c).
Proof.
  intros Hle Hn Hall. simpl. exists c, cd. repeat split; auto.
  revert Hall. apply all2_impl. intros x y [Hxy Hr]. split; [assumption|].
  revert Hr. apply repr_transport; [lia|auto].
Qed.

Lemma repr_list_at lo h r ts vs :
  lo <= r -> nth_error h r = Some (OList vs) ->
  all2 (repr (S r) h) ts vs ->
  repr lo h (JList ts) (VRef r).
Proof.
  intros Hle Hn Hall. simpl. exists r, vs. repeat split; auto.
  revert Hall. apply all2_impl. intros x y.
  apply repr_transport; [lia|auto].
Qed.

(** With fuel above the size of the tree, the run on the heap ends as the
    function on trees does, and what it returns stands for the tree the
    function returns, in objects made by the run. *)
Lemma sim_all t : sim t.
Proof.
  induction t as [| | | | |ts IH|d IH IHb] using SchemaFacts.json_union_ind;
    intros v w fuel Hrepr Hfuel;
    (destruct fuel as [|f]; [simpl in Hfuel; lia|]).
  1-5: simpl in Hrepr; subst v; eexists; exists w;
       (split; [reflexivity|]); eexists; split; reflexivity.
  - (* a list *)
    cbn [repr] in Hrepr. destruct Hrepr as [a [vs [-> [_ [Ha Hall]]]]].
    cbn [size] in Hfuel.
    assert (Hlen := all2_length _ _ _ Hall).
    assert (Hl := length_le_sizes ts).
    cbn [clean_schema]. rewrite (run_load _ _ _ _ Ha).
    set (w1 := {| heap := heap w ++ [OList []]; stdout := stdout w |}).
    rewrite (run_bind_ok _ _ w (List.length (heap w)) w1) by reflexivity.
    destruct (sim_for_list (heap w) a (List.length (heap w)) f ts IH)
      with (fl := f) (vs1 := @nil value) (vs2 := vs) (acc_t := @nil json)
           (acc_v := @nil value) (w := w1)
      as [res [w' [Hrun Hres]]]; try assumption.
    + intros t Ht. assert (Hs := size_elem t ts Ht). lia.
    + lia.
    + apply base_alloc.
    + lia.
    + apply nth_error_alloc.
    + exact I.
    + rewrite SchemaFacts.clean_schema_list. unfold agrees.
      destruct (Schema.for_each Schema.clean_schema ts) as [ts'|e].
      * destruct Hres as [-> [acc_v' [Hacc Hout]]].
        exists (Ok (VRef (List.length (heap w)))), w'. split.
        -- now rewrite (run_bind_ok _ _ _ _ _ Hrun).
        -- simpl. eexists. split; [reflexivity|].
           eapply repr_list_at; eauto.
      * subst res. exists (Raise e), w'. split; [|reflexivity].
        now apply run_bind_raise.
  - (* a dict *)
    cbn [repr] in Hrepr. destruct Hrepr as [a [vd [-> [_ [Ha Hall]]]]].
    change (all2 (entry_repr 0 (heap w)) d vd) in Hall.
    cbn [size] in Hfuel.
    assert (Hlen := all2_length _ _ _ Hall).
    assert (Hl := length_le_value_sizes d).
    cbn [clean_schema]. rewrite (run_load _ _ _ _ Ha).
    set (w1 := {| heap := heap w ++ [ODict []]; stdout := stdout w |}).
    rewrite (run_bind_ok _ _ w (List.length (heap w)) w1) by reflexivity.
    assert (Hc : nth_error (heap w1) (List.length (heap w)) = Some (ODict []))
      by apply nth_error_alloc.
    assert (Hbase : base (heap w) w1) by apply base_alloc.
    rewrite SchemaFacts.clean_schema_dict. unfold agrees.
    assert (Hany := related_get 0 (heap w) "anyOf" d vd Hall).
    destruct (dict_get "anyOf" d) as [any_t|] eqn:Et;
      destruct (dict_get "anyOf" vd) as [any_v|] eqn:Ev; try contradiction.
    + (* a union *)
      assert (Hin := dict_get_Some_In _ _ _ Et).
      assert (Hsz := size_value _ _ Hin). simpl in Hsz.
      destruct any_t as [| | | |s|titems|td'].
      1-4: simpl in Hany; subst any_v; eexists; exists w1;
           (split; [reflexivity|reflexivity]).
      * (* a string *)
        simpl in Hany. subst any_v. destruct s as [|ch s].
        -- eexists. exists w1. split; [reflexivity|].
           simpl. eexists. split; [reflexivity|].
           apply (repr_dict_at _ _ _ [] []); auto; exact I.
        -- eexists. exists w1. split; reflexivity.
      * (* a list of branches *)
        cbn [repr] in Hany. destruct Hany as [b [vs [-> [_ [Hb Hvs]]]]].
        assert (Hlen' := all2_length _ _ _ Hvs).
        assert (Hl' := length_le_sizes titems).
        cbn [size] in Hsz.
        rewrite Forall_forall in IHb. specialize (IHb _ Hin).
        assert (Hsizes : forall item, In item titems -> size item <= f).
        { intros item Hitem. assert (Hs := size_elem item titems Hitem). lia. }
        assert (Hfl : List.length vs < f) by lia.
        destruct (sim_for_branches (heap w) b (List.length (heap w)) f
                    titems IHb Hsizes f [] vs [] [] w1 Hfl Hbase (le_n _)
                    Hb Hc Hvs I)
          as [res [w' [Hrun Hres]]].
        cbn [List.length] in Hrun.
        cbn [Schema.flatten_union].
        assert (Hfu : flatten_union f (clean_schema f)
                        (List.length (heap w)) (VRef b) w1 = Some (res, w')).
        { unfold flatten_union.
          rewrite (run_load _ _ _ _ (Hbase _ _ Hb)). exact Hrun. }
        destruct (Schema.flatten_branches Schema.clean_schema titems [])
          as [tc'|e].
        -- destruct Hres as [-> [cd' [Hacc Hout]]].
           exists (Ok (VRef (List.length (heap w)))), w'. split.
           ++ now rewrite (run_bind_ok _ _ _ _ _ Hfu).
           ++ simpl. eexists. split; [reflexivity|].
              eapply repr_dict_at; eauto.
        -- subst res. exists (Raise e), w'. split; [|reflexivity].
           now apply run_bind_raise.
      * (* a dict under 'anyOf' *)
        cbn [repr] in Hany. destruct Hany as [b [vd' [-> [_ [Hb Hvd]]]]].
        destruct td' as [|kt td'], vd' as [|kv vd']; try contradiction.
        -- eexists. exists w1. split.
           ++ unfold flatten_union.
              rewrite (run_bind_ok _ _ w1 tt w1); [reflexivity|].
              now rewrite (run_load _ _ _ _ (Hbase _ _ Hb)).
           ++ simpl. eexists. split; [reflexivity|].
              apply (repr_dict_at _ _ _ [] []); auto; exact I.
        -- eexists. exists w1. split; [|reflexivity].
           apply run_bind_raise. unfold flatten_union.
           now rewrite (run_load _ _ _ _ (Hbase _ _ Hb)).
    + (* no union *)
      assert (Hsizes : forall kt, In kt d -> size (snd kt) < f).
      { intros kt Hkt. assert (Hs := size_value kt d Hkt). lia. }
      assert (Hfl : List.length vd < f) by lia.
      destruct (sim_for_items (heap w) a (List.length (heap w)) f
                  Schema.copy_excluded d IH Hsizes f [] vd [] [] w1 Hfl Hbase
                  (le_n _) Ha Hc Hall I)
        as [res [w' [Hrun Hres]]].
      simpl in Hrun.
      destruct (Schema.copy_items Schema.clean_schema Schema.copy_excluded
                  d []) as [tc'|e].
      * destruct Hres as [-> [cd' [Hacc Hout]]].
        exists (Ok (VRef (List.length (heap w)))), w'. split.
        -- now rewrite (run_bind_ok _ _ _ _ _ Hrun).
        -- simpl. eexists. split; [reflexivity|].
           eapply repr_dict_at; eauto.
      * subst res. exists (Raise e), w'. split; [|reflexivity].
        now apply run_bind_raise.
Qed.

End HeapFacts.

Module HeapClaims.
Import Py Heap HeapFacts.

(** C4.  Let the value [v] stand for the tree [t] in the store of [w], and
    call [clean_schema] on it twice, one call after the other, each with
    fuel above the size of [t].  Both calls end.  Neither changes an object
    that was in the store when it began, so the input still stands for [t],
    and neither prints.  Both end as the function on trees ends on [t]:
    with the same exception, or with values that stand for the same tree,
    in objects the call made itself. *)
Theorem clean_schema_pure t v w fuel1 fuel2 :
  repr 0 (heap w) t v ->
  size t < fuel1 ->
  size t < fuel2 ->
  exists r1 w1 r2 w2,
    clean_schema fuel1 v w = Some (r1, w1) /\
    clean_schema fuel2 v w1 = Some (r2, w2) /\
    keeps (List.length (heap w)) w w1 /\
    keeps (List.length (heap w1)) w1 w2 /\
    repr 0 (heap w2) t v /\
    agrees (List.length (heap w)) (Schema.clean_schema t) r1 w2 /\
    agrees (List.length (heap w1)) (Schema.clean_schema t) r2 w2.
Proof.
  intros Hrepr Hf1 Hf2.
  destruct (sim_all t v w fuel1 Hrepr Hf1) as [r1 [w1 [Hrun1 Hag1]]].
  assert (Hk1 := frame_clean_schema fuel1 _ v w r1 w1 (le_n _) Hrun1).
  assert (Hb1 : base (heap w) w1) by
    (apply (base_keeps _ w); [intros a o Ha; exact Ha|exact Hk1]).
  assert (Hrepr1 := repr_base _ _ _ _ Hb1 Hrepr).
  destruct (sim_all t v w1 fuel2 Hrepr1 Hf2) as [r2 [w2 [Hrun2 Hag2]]].
  assert (Hk2 := frame_clean_schema fuel2 _ v w1 r2 w2 (le_n _) Hrun2).
  assert (Hb2 : base (heap w1) w2) by
    (apply (base_keeps _ w1); [intros a o Ha; exact Ha|exact Hk2]).
  exists r1, w1, r2, w2.
  split; [exact Hrun1|]. split; [exact Hrun2|].
  split; [exact Hk1|]. split; [exact Hk2|].
  split; [eapply repr_base; eassumption|].
  split; [|exact Hag2].
  unfold agrees in *.
  destruct (Schema.clean_schema t) as [t'|e]; [|assumption].
  destruct Hag1 as [v' [-> Hv']]. exists v'. split; [reflexivity|].
  revert Hv'. apply repr_transport; [lia|]. intros b o _. apply Hb2.
Qed.

Lemma clean_schema_pure_witness :
  exists r1 w1 r2 w2,
    clean_schema 10 (VRef 3) revenue_store = Some (r1, w1) /\
    clean_schema 10 (VRef 3) w1 = Some (r2, w2) /\
    keeps (List.length (heap revenue_store)) revenue_store w1 /\
    keeps (List.length (heap w1)) w1 w2 /\
    repr 0 (heap w2) revenue_tree (VRef 3) /\
    agrees (List.length (heap revenue_store))
      (Schema.clean_schema revenue_tree) r1 w2 /\
    agrees (List.length (heap w1)) (Schema.clean_schema revenue_tree) r2 w2.
Proof.
  apply (clean_schema_pure revenue_tree (VRef 3) revenue_store 10 10).
  - simpl. exists 3. eexists. repeat split; try reflexivity; try lia.
    + exists 2. eexists. repeat split; try reflexivity; try lia.
      * exists 0. eexists. repeat split; try reflexivity; lia.
      * exists 1. eexists. repeat split; try reflexivity; lia.
  - simpl. lia.
  - simpl. lia.
Defined.

End HeapClaims.

(** ** More on the schema cleaner *)

Module SchemaMoreFacts.
Import Py Schema Observe DictFacts SchemaFacts.

#[local] Arguments String.eqb : simpl never.

Lemma clean_schema_dict_shape d t :
  clean_schema (JDict d) = Ok t -> exists c, t = JDict c.
Proof.
  rewrite clean_schema_dict.
  destruct (dict_get "anyOf" d); intros H; bind_inv H; injection H as <-;
    eauto.
Qed.

Lemma bind_returns {A} (r : result A) (f : A -> json) :
  (exists t, (a <- r ;; Ok (f a)) = Ok t) <-> (exists a, r = Ok a).
Proof.
  destruct r as [a|e]; simpl; split; intros [x H]; eauto; discriminate.
Qed.

Section Returns.
Variable rec : json -> result json.
Variable chk : json -> bool.

(** The copy loop returns exactly when [rec] returns on the values of the
    keys that are not excluded. *)
Lemma copy_items_returns ex items :
  Forall (fun kv => chk (snd kv) = true <-> exists v', rec (snd kv) = Ok v')
    items ->
  forall c,
    visited_values chk ex items = true <->
    exists c', copy_items rec ex items c = Ok c'.
Proof.
  unfold visited_values.
  induction 1 as [|[k v] items Hv _ IH]; intros c; simpl.
  - split; eauto.
  - simpl in Hv. destruct (str_in k ex); simpl; [apply IH|].
    rewrite andb_true_iff, Hv. split.
    + intros [[v' Hv'] Hrest]. rewrite Hv'. simpl. now apply IH.
    + intros [c' Hc]. bind_inv Hc. split; [eauto|]. apply (IH (dict_set k a c)).
      eauto.
Qed.

(** The loop over the branches returns exactly when every item is a dict
    and [rec] returns on the values it is called on. *)
Lemma flatten_branches_returns items :
  below_branches
    (fun v => chk v = true <-> exists v', rec v = Ok v') (JList items) ->
  forall c,
    forallb (branch_cleanable chk) items = true <->
    exists c', flatten_branches rec items c = Ok c'.
Proof.
  simpl. induction 1 as [|item items Hitem _ IH]; intros c; simpl.
  - split; eauto.
  - destruct item as [| | | | | |it];
      try (split; [discriminate|intros [c' Hc]; discriminate]).
    simpl. destruct (is_null_branch it); simpl; [apply IH|].
    rewrite andb_true_iff, (copy_items_returns branch_excluded it Hitem c).
    split.
    + intros [[c1 Hc1] Hrest]. rewrite Hc1. simpl. now apply IH.
    + intros [c' Hc]. bind_inv Hc. split; [eauto|]. apply (IH a). eauto.
Qed.

End Returns.

(** [clean_schema] returns exactly on the cleanable trees. *)
Lemma cleanable_returns s :
  cleanable s = true <-> exists t, clean_schema s = Ok t.
Proof.
  induction s as [| | | | |l IH|d IH IHb] using json_union_ind;
    try (split; [eexists; reflexivity|reflexivity]).
  - rewrite clean_schema_list, bind_returns. simpl.
    induction IH as [|x l Hx _ IHl]; simpl.
    + split; eauto.
    + rewrite andb_true_iff, Hx, IHl. split.
      * intros [[x' Hx'] [l' Hl']]. rewrite Hx', Hl'. simpl. eauto.
      * intros [l' Hl']. bind_inv Hl'. bind_inv Hl'. eauto.
  - rewrite clean_schema_dict. cbn [cleanable]. rewrite on_key_get.
    destruct (dict_get "anyOf" d) as [any_of|] eqn:Eu.
    + rewrite bind_returns.
      assert (Hin := dict_get_Some_In _ _ _ Eu).
      rewrite Forall_forall in IHb. specialize (IHb _ Hin).
      destruct any_of as [| | | |[|]|items|[|]];
        cbn [union_cleanable flatten_union];
        try solve [split; [discriminate|intros [c' Hc]; discriminate]];
        try solve [split; eauto].
      apply (flatten_branches_returns clean_schema cleanable items IHb).
    + rewrite bind_returns. now apply copy_items_returns.
Qed.

(** A tree with a list of dicts under every ['anyOf'] is cleanable. *)
Lemma schema_shaped_cleanable s : schema_shaped s = true -> cleanable s = true.
Proof.
  intros H. apply cleanable_returns. now apply clean_schema_total.
Qed.

(** *** The loop over the branches, piece by piece *)

Lemma flatten_branches_app rec xs ys c :
  flatten_branches rec (xs ++ ys) c =
  (c1 <- flatten_branches rec xs c ;; flatten_branches rec ys c1).
Proof.
  revert c. induction xs as [|x xs IH]; intros c; simpl; [reflexivity|].
  destruct x as [| | | | | |it]; try reflexivity.
  destruct (is_null_branch it); [apply IH|].
  destruct (copy_items rec branch_excluded it c); simpl; [apply IH|reflexivity].
Qed.

(** A key no branch writes keeps its value. *)
Lemma flatten_branches_other rec items : forall c c',
  flatten_branches rec items c = Ok c' ->
  forall k, existsb (branch_writes k) items = false ->
            dict_get k c' = dict_get k c.
Proof.
  induction items as [|item items IH]; simpl; intros c c' H k Hk.
  - now injection H as <-.
  - apply orb_false_iff in Hk. destruct Hk as [Hitem Hk].
    destruct item as [| | | | | |it]; try discriminate.
    unfold branch_writes in Hitem. destruct (is_null_branch it).
    + rewrite (IH _ _ H _ Hk). apply dict_get_set_other.
      apply String.eqb_neq in Hitem. congruence.
    + bind_inv H. rewrite (IH _ _ H _ Hk).
      eapply copy_items_other; eassumption.
Qed.

(** Writing the same entry twice is writing it once. *)
Lemma dict_set_twice {V} k (v : V) d :
  dict_set k v (dict_set k v d) = dict_set k v d.
Proof.
  induction d as [|[k0 v0] d IH]; simpl.
  - now rewrite String.eqb_refl.
  - destruct (String.eqb k0 k) eqn:E; simpl.
    + now rewrite String.eqb_refl.
    + now rewrite E, IH.
Qed.

(** Only null branches: the key ['nullable'] and nothing else. *)
Lemma flatten_null_branches rec items :
  forallb (fun item => match item with
                       | JDict it => is_null_branch it
                       | _ => false
                       end) items = true ->
  forall c,
    flatten_branches rec items c =
    Ok (match items with
        | [] => c
        | _ :: _ => dict_set "nullable" (JBool true) c
        end).
Proof.
  induction items as [|item items IH]; simpl; intros H c; [reflexivity|].
  apply andb_prop in H. destruct H as [Hitem H].
  destruct item as [| | | | | |it]; try discriminate. rewrite Hitem.
  rewrite (IH H). destruct items; [reflexivity|]. f_equal.
  apply dict_set_twice.
Qed.

(** The keys of the copy, in order. *)
Lemma copy_items_keys rec ex items : forall c c',
  nodupb (map fst c ++ map fst items) = true ->
  copy_items rec ex items c = Ok c' ->
  map fst c' =
  map fst c ++ filter (fun k => negb (str_in k ex)) (map fst items).
Proof.
  induction items as [|[k0 v0] items IH]; simpl; intros c c' Hnd H.
  - injection H as <-. now rewrite app_nil_r.
  - apply nodupb_app_cons in Hnd. destruct Hnd as [Hk [Hn1 Hn2]].
    destruct (str_in k0 ex); simpl; [now apply IH|].
    bind_inv H. rewrite str_in_mem in Hk.
    assert (Hkeys : map fst (dict_set k0 a c) = map fst c ++ [k0])
      by (rewrite keys_set; now rewrite Hk).
    rewrite (IH (dict_set k0 a c) c'); [|now rewrite Hkeys|exact H].
    rewrite Hkeys. now rewrite <- app_assoc.
Qed.

End SchemaMoreFacts.

Module SchemaExtras.
Import Py Schema Observe DictFacts SchemaFacts SchemaMoreFacts.

#[local] Arguments String.eqb : simpl never.

(** X1.  Whatever the input, a tree [clean_schema] returns has no key
    ['title'] and no key ['description'] at any level: not in a copied
    dict, not in a collapsed union, and not among the names of the
    properties either. *)
Theorem no_title_no_description s t :
  clean_schema s = Ok t ->
  has_key "title" t = false /\ has_key "description" t = false.
Proof.
  intros H. split.
  - apply (clean_schema_no_key "title" eq_refl s t); [reflexivity|exact H].
  - apply (clean_schema_no_key "description" eq_refl s t);
      [reflexivity|exact H].
Qed.

Lemma no_title_no_description_witness :
  has_key "title" (without_metadata company_schema) = false /\
  has_key "description" (without_metadata company_schema) = false.
Proof.
  apply (no_title_no_description company_schema). reflexivity.
Defined.

(** X3.  An exception below reaches the caller: when [clean_schema] raises
    on a node at a position of the copy path, it raises on the whole tree
    (dicts with distinct keys). *)
Theorem exception_reaches_the_root s p u e :
  wf_json s = true ->
  kept_path p s = true ->
  at_path p s = Some u ->
  clean_schema u = Raise e ->
  exists e', clean_schema s = Raise e'.
Proof.
  intros Hwf Hk Hat Hu. destruct (clean_schema s) as [t|e'] eqn:E; [|eauto].
  destruct (clean_schema_at_path _ _ _ _ Hwf E Hk Hat) as [u' [_ Hu']].
  congruence.
Qed.

Lemma exception_reaches_the_root_witness :
  exists e', clean_schema field_named_anyOf = Raise e'.
Proof.
  apply (exception_reaches_the_root field_named_anyOf [Key "properties"]
           (JDict [("anyOf", JDict string_type)]) (no_get "str"));
    reflexivity.
Defined.

(** X4.  The keys beside ['anyOf'] in a union node, such as ['default'],
    ['title'] and ['description'], do not count: the node is cleaned as if
    ['anyOf'] were its only key. *)
Theorem union_siblings_ignored d any_of :
  dict_get "anyOf" d = Some any_of ->
  clean_schema (JDict d) = clean_schema (JDict [("anyOf", any_of)]).
Proof.
  intros H. rewrite !clean_schema_dict, H. reflexivity.
Qed.

Lemma union_siblings_ignored_witness :
  clean_schema (JDict revenue_field) =
  clean_schema
    (JDict [("anyOf", JList [JDict number_type; JDict null_type])]).
Proof.
  apply (union_siblings_ignored revenue_field). reflexivity.
Defined.

(** X5.  A union with null branches only is cleaned to
    [{'nullable': True}], and an empty union to [{}]. *)
Theorem null_only_union d items :
  dict_get "anyOf" d = Some (JList items) ->
  forallb (fun item => match item with
                       | JDict it => is_null_branch it
                       | _ => false
                       end) items = true ->
  clean_schema (JDict d) =
  Ok (JDict (match items with
             | [] => []
             | _ :: _ => [("nullable", JBool true)]
             end)).
Proof.
  intros Hu Hnull. rewrite clean_schema_dict, Hu.
  cbn [flatten_union]. rewrite (flatten_null_branches _ _ Hnull).
  destruct items; reflexivity.
Qed.

Lemma null_only_union_witness :
  clean_schema
    (JDict [("anyOf", JList [JDict null_type; JDict null_type]);
            ("default", JNone)]) =
  Ok (JDict [("nullable", JBool true)]).
Proof.
  apply (null_only_union
           [("anyOf", JList [JDict null_type; JDict null_type]);
            ("default", JNone)]
           [JDict null_type; JDict null_type]);
    reflexivity.
Defined.

(** X6.  In a union with any number of branches, a key of a branch that is
    not a null branch takes the cleaned value of the last branch that
    writes it: the value of [b] under [k] when no branch after [b] writes
    [k]. *)
Theorem last_writer_wins d pre b post k v :
  wf_json (JDict d) = true ->
  cleanable (JDict d) = true ->
  dict_get "anyOf" d = Some (JList (pre ++ JDict b :: post)) ->
  is_null_branch b = false ->
  dict_get k b = Some v ->
  str_in k branch_excluded = false ->
  existsb (branch_writes k) post = false ->
  exists c v',
    clean_schema (JDict d) = Ok (JDict c) /\
    clean_schema v = Ok v' /\
    dict_get k c = Some v'.
Proof.
  intros Hwf Hcl Hu Hb Hg Hk Hpost.
  apply cleanable_returns in Hcl. destruct Hcl as [t Ht].
  destruct (clean_schema_dict_shape _ _ Ht) as [c ->].
  assert (Hnd : nodupb (map fst b) = true).
  { assert (Hw := wf_json_child (Key "anyOf") _ _ Hwf Hu). simpl in Hw.
    rewrite forallb_forall in Hw.
    specialize (Hw (JDict b) (in_elt _ _ _)). simpl in Hw.
    now apply andb_prop in Hw. }
  exists c. assert (Hc := Ht).
  rewrite clean_schema_dict, Hu in Ht. bind_inv Ht.
  injection Ht as <-. cbn [flatten_union] in Ha.
  rewrite flatten_branches_app in Ha. bind_inv Ha.
  cbn [flatten_branches] in Ha. rewrite Hb in Ha. bind_inv Ha.
  destruct (copy_items_get _ _ _ _ _ Hnd Ha1 _ _ Hg Hk) as [v' [Hv Hg']].
  exists v'. split; [exact Hc|]. split; [exact Hv|].
  now rewrite (flatten_branches_other _ _ _ _ Ha _ Hpost).
Qed.

Lemma last_writer_wins_witness :
  exists c v',
    clean_schema
      (JDict [("anyOf", JList [JDict string_type; JDict integer_type;
                               JDict null_type])]) = Ok (JDict c) /\
    clean_schema (JStr "integer") = Ok v' /\
    dict_get "type" c = Some v'.
Proof.
  apply (last_writer_wins
           [("anyOf", JList [JDict string_type; JDict integer_type;
                             JDict null_type])]
           [JDict string_type] integer_type [JDict null_type] "type"
           (JStr "integer"));
    reflexivity.
Defined.

(** X7.  The keys of a collapsed union are the keys its branches write:
    ['nullable'] when there is a null branch, and the keys of the other
    branches but ['title'] and ['description']. *)
Theorem union_keys d items :
  cleanable (JDict d) = true ->
  dict_get "anyOf" d = Some (JList items) ->
  exists c,
    clean_schema (JDict d) = Ok (JDict c) /\
    forall k, dict_mem k c = existsb (branch_writes k) items.
Proof.
  intros Hcl Hu. apply cleanable_returns in Hcl. destruct Hcl as [t Ht].
  destruct (clean_schema_dict_shape _ _ Ht) as [c ->]. exists c.
  split; [exact Ht|]. rewrite clean_schema_dict, Hu in Ht. bind_inv Ht.
  injection Ht as <-. intros k.
  now rewrite (flatten_branches_mem _ _ _ _ Ha).
Qed.

Lemma union_keys_witness :
  exists c,
    clean_schema (JDict revenue_field) = Ok (JDict c) /\
    forall k,
      dict_mem k c =
      existsb (branch_writes k) [JDict number_type; JDict null_type].
Proof.
  apply (union_keys revenue_field); reflexivity.
Defined.

(** X8.  A dict without ['anyOf'] and with distinct keys keeps its keys
    other than ['title'], ['description'], ['$ref'] and ['$defs'], in their
    order, each with its cleaned value; this holds above unions too. *)
Theorem copied_dict d :
  wf_json (JDict d) = true ->
  cleanable (JDict d) = true ->
  dict_get "anyOf" d = None ->
  exists c,
    clean_schema (JDict d) = Ok (JDict c) /\
    map fst c =
      filter (fun k => negb (str_in k copy_excluded)) (map fst d) /\
    forall k v,
      dict_get k d = Some v -> str_in k copy_excluded = false ->
      exists v', clean_schema v = Ok v' /\ dict_get k c = Some v'.
Proof.
  intros Hwf Hcl Hu. apply cleanable_returns in Hcl. destruct Hcl as [t Ht].
  destruct (clean_schema_dict_shape _ _ Ht) as [c ->]. exists c.
  split; [exact Ht|]. rewrite clean_schema_dict, Hu in Ht. bind_inv Ht.
  injection Ht as <-. apply wf_json_dict in Hwf. destruct Hwf as [Hnd _].
  split.
  - now rewrite (copy_items_keys clean_schema copy_excluded d [] a Hnd Ha).
  - intros k v Hg Hk. eapply copy_items_get; eassumption.
Qed.

Lemma copied_dict_witness :
  exists c,
    clean_schema report_schema = Ok (JDict c) /\
    map fst c = ["type"; "properties"; "required"] /\
    forall k v,
      dict_get k [("type", JStr "object");
                  ("properties", JDict [("total_revenue", JDict revenue_field)]);
                  ("required", JList [JStr "company_name"; JStr "cik"])]
      = Some v ->
      str_in k copy_excluded = false ->
      exists v', clean_schema v = Ok v' /\ dict_get k c = Some v'.
Proof.
  apply (copied_dict
           [("type", JStr "object");
            ("properties", JDict [("total_revenue", JDict revenue_field)]);
            ("required", JList [JStr "company_name"; JStr "cik"])]);
    reflexivity.
Defined.

(** X9.  What stands in the input at a position of the copy path stands,
    cleaned, at the same position of the output, and a list keeps its
    length (dicts with distinct keys). *)
Theorem copied_positions s t p u :
  wf_json s = true ->
  clean_schema s = Ok t ->
  kept_path p s = true ->
  at_path p s = Some u ->
  exists u',
    at_path p t = Some u' /\ clean_schema u = Ok u' /\
    forall l, u = JList l ->
              exists l', u' = JList l' /\ List.length l' = List.length l.
Proof.
  intros Hwf Ht Hk Hat.
  destruct (clean_schema_at_path _ _ _ _ Hwf Ht Hk Hat) as [u' [Hat' Hu']].
  exists u'. repeat split; try assumption.
  intros l ->. rewrite clean_schema_list in Hu'. bind_inv Hu'.
  injection Hu' as <-. exists a. split; [reflexivity|].
  now destruct (for_each_nth _ _ _ Ha).
Qed.

Lemma copied_positions_witness :
  exists u',
    at_path [Key "required"] (without_metadata company_schema) = Some u' /\
    clean_schema (JList [JStr "company_name"]) = Ok u' /\
    forall l, JList [JStr "company_name"] = JList l ->
              exists l', u' = JList l' /\ List.length l' = List.length l.
Proof.
  apply (copied_positions company_schema (without_metadata company_schema)
           [Key "required"] (JList [JStr "company_name"]));
    reflexivity.
Defined.

End SchemaExtras.

(** ** More on the extractor and the pipeline *)

Module PipelineFacts.
Import Py Schema Observe Program Extractor Text Report Validator Pipeline.
Import Runs ExtractorFacts.
Local Open Scope string_scope.

(** The first page [extract_text] raises on decides. *)
Lemma join_pages_unreadable pre e post :
  forallb readable pre = true ->
  join_pages (pre ++ Unreadable e :: post) = Raise e.
Proof.
  induction pre as [|p pre IH]; intros H; [reflexivity|].
  simpl in H. apply andb_prop in H. destruct H as [Hp H].
  cbn [join_pages app]. rewrite (IH H).
  destruct p; [reflexivity|reflexivity|discriminate].
Qed.

Lemma load_file_handles fs path e :
  read_pdf fs path = ([], Raises e) ->
  load_file fs path = ([Printed (load_failure_line path e)], Returns "").
Proof.
  intros H. unfold load_file, load_failure_line. rewrite H.
  destruct e as [[| | | | | |name] msg]; reflexivity.
Qed.

(** [load_file] of main.py prints and does nothing else to the world. *)
Lemma load_file_prints fs path :
  forallb is_printed (fst (load_file fs path)) = true.
Proof.
  unfold load_file, read_pdf.
  destruct (fs path) as [|e|[e|pages]].
  - reflexivity.
  - destruct e as [[| | | | | |name] msg]; reflexivity.
  - destruct e as [[| | | | | |name] msg]; reflexivity.
  - destruct (join_pages pages) as [text|e]; [reflexivity|].
    destruct e as [[| | | | | |name] msg]; reflexivity.
Qed.

Lemma load_file_ends fs path :
  exists trace text, load_file fs path = (trace, Returns text).
Proof.
  destruct (load_file_returns fs path) as [trace [text [H _]]]. eauto.
Qed.

Lemma report_failure_prints e :
  report_failure e = ([Printed (failure_line e)], Returns tt).
Proof.
  unfold report_failure, failure_line.
  destruct e as [[| | | | | |name] msg]; reflexivity.
Qed.

Ltac run_on :=
  cbn [then_ emit lift ret raise print validated try_except app].

(** Every run of [main] is one of the seven. *)
Lemma main_runs env : run env (main env).
Proof.
  destruct (load_file_ends (fs env) "meta_10k.pdf") as [tr0 [text Hload]].
  unfold main. rewrite Hload. cbn [then_].
  destruct text as [|c text].
  - apply run_empty_text. exact Hload.
  - destruct (getenv env "GEMINI_API_KEY") as [[|k key]|] eqn:Ekey.
    + apply (run_no_key env tr0 c text Hload). right. exact Ekey.
    + destruct (clean_schema (JDict (api_schema_base (raw_schema env))))
        as [api_schema|e] eqn:Eclean; run_on.
      * unfold generate_and_render.
        destruct (generate env model_name (prompt_for (String c text))
                    api_schema) as [response|e] eqn:Egen; run_on.
        -- destruct (model_validate_json (parse_json env)
                       (datetime_of_json env) (float_of_json env)
                       (int_of_json env) response) as [ar|errors] eqn:Eval;
             run_on.
           ++ destruct (write_pdf env
                          (markdown env
                             (String.concat (newline ++ newline)
                                (md_lines env ar)))
                          (filename ar)) as [[]|e] eqn:Ewrite; run_on.
              ** eapply run_written; eassumption.
              ** rewrite report_failure_prints.
                 eapply run_write_fails; eassumption.
           ++ rewrite report_failure_prints.
              eapply run_invalid; eassumption.
        -- rewrite report_failure_prints.
           eapply run_generation_fails; eassumption.
      * eapply run_schema_raises; eassumption.
    + apply (run_no_key env tr0 c text Hload). left. exact Ekey.
Qed.

End PipelineFacts.

Module PipelineMoreFacts.
Import Py Schema Observe Program Extractor Text Report Validator Pipeline.
Import Runs DictFacts SchemaFacts ExtractorFacts PipelineFacts.
Local Open Scope string_scope.

Lemma printed_no_api tr :
  forallb is_printed tr = true -> existsb is_api_call tr = false.
Proof.
  induction tr as [|[] tr IH]; simpl; auto; discriminate.
Qed.

Lemma printed_not_generated tr :
  forallb is_printed tr = true -> filter is_generated tr = [].
Proof.
  induction tr as [|[] tr IH]; simpl; auto; discriminate.
Qed.

Lemma printed_not_written tr :
  forallb is_printed tr = true -> filter is_written tr = [].
Proof.
  induction tr as [|[] tr IH]; simpl; auto; discriminate.
Qed.

Lemma printed_In tr e :
  forallb is_printed tr = true -> In e tr -> is_printed e = true.
Proof. intros H. rewrite forallb_forall in H. apply H. Qed.

Lemma extraction_prints env tr0 text :
  extraction env = (tr0, Returns text) -> forallb is_printed tr0 = true.
Proof.
  intros H. assert (Hp := load_file_prints (fs env) "meta_10k.pdf").
  unfold extraction in H. now rewrite H in Hp.
Qed.

(** The schema of lines 118-123 has a list of dicts under every ['anyOf']
    when the reflected schema has. *)
Lemma get_or_shaped k default raw :
  schema_shaped (JDict raw) = true -> schema_shaped default = true ->
  schema_shaped (get_or k default raw) = true.
Proof.
  intros H Hd. unfold get_or. destruct (dict_get k raw) as [v|] eqn:E; [|auto].
  simpl in H. apply andb_prop in H. destruct H as [_ H].
  rewrite forallb_forall in H. apply (H (k, v)).
  now apply dict_get_Some_In.
Qed.

Lemma api_base_shaped env :
  schema_shaped (JDict (raw_schema env)) = true ->
  schema_shaped (api_base env) = true.
Proof.
  intros H. unfold api_base, api_schema_base.
  assert (H1 := get_or_shaped "type" (JStr "object") _ H eq_refl).
  assert (H2 := get_or_shaped "properties" (JDict []) _ H eq_refl).
  destruct (dict_get "required" (raw_schema env)) as [r|] eqn:E.
  - assert (H3 : schema_shaped r = true).
    { simpl in H. apply andb_prop in H. destruct H as [_ H].
      rewrite forallb_forall in H. apply (H ("required", r)).
      now apply dict_get_Some_In. }
    cbn. now rewrite H1, H2, H3.
  - cbn. now rewrite H1, H2.
Qed.

#[local] Arguments String.eqb : simpl never.

(** The keys of the schema of lines 118-123. *)
Lemma api_schema_base_keys raw k :
  dict_mem k (api_schema_base raw) =
  String.eqb "type" k || String.eqb "properties" k ||
  (String.eqb "required" k && dict_mem "required" raw).
Proof.
  unfold api_schema_base. rewrite (dict_mem_get "required" raw).
  destruct (dict_get "required" raw) as [r|].
  - replace (dict_set "required" r
               [("type", get_or "type" (JStr "object") raw);
                ("properties", get_or "properties" (JDict []) raw)])
      with [("type", get_or "type" (JStr "object") raw);
            ("properties", get_or "properties" (JDict []) raw);
            ("required", r)] by reflexivity.
    cbn [dict_mem].
    destruct (String.eqb "type" k), (String.eqb "properties" k),
      (String.eqb "required" k); reflexivity.
  - cbn [dict_mem].
    destruct (String.eqb "type" k), (String.eqb "properties" k),
      (String.eqb "required" k); reflexivity.
Qed.

Lemma api_schema_base_no_union raw :
  dict_get "anyOf" (api_schema_base raw) = None.
Proof.
  apply dict_get_none_mem. rewrite api_schema_base_keys. reflexivity.
Qed.

End PipelineMoreFacts.

Module PipelineExtras.
Import Py Schema Observe Program Extractor Text Report Validator Pipeline.
Import Runs DictFacts SchemaFacts SchemaMoreFacts ExtractorFacts.
Import PipelineFacts PipelineMoreFacts.
Local Open Scope string_scope.

#[local] Arguments String.eqb : simpl never.

(** Case analysis on the run of [main]: [Hrun] is the run, [Hmain] the
    equation for [main env]. *)
Ltac by_run env :=
  let Hrun := fresh "Hrun" in
  assert (Hrun := main_runs env);
  inversion Hrun as
    [ tr0 Hload Hmain
    | tr0 c text Hload Hkey Hmain
    | tr0 c text k key e0 Hload Hkey Hclean Hmain
    | tr0 c text k key api_schema e0 Hload Hkey Hclean Hgen Hmain
    | tr0 c text k key api_schema response errors Hload Hkey Hclean Hgen
        Hval Hmain
    | tr0 c text k key api_schema response ar e0 Hload Hkey Hclean Hgen
        Hval Hwrite Hmain
    | tr0 c text k key api_schema response ar Hload Hkey Hclean Hgen Hval
        Hwrite Hmain ];
  clear Hrun.

Lemma last_after {A} (l : list A) x l' d :
  last (l ++ x :: l')%list d = last (x :: l') d.
Proof.
  induction l as [|y l IH]; [reflexivity|].
  cbn [app]. rewrite <- IH. cbn [last].
  destruct (l ++ x :: l')%list eqn:E; [destruct l; discriminate|reflexivity].
Qed.

(** X10.  Without a usable API key (the variable unset or empty), a run
    that extracted text prints the two diagnostic lines and ends with
    [exit()]; neither [genai.configure] nor the generation call is among
    its events. *)
Theorem missing_key_stops_before_api env tr0 c text :
  extraction env = (tr0, Returns (String c text)) ->
  no_key env ->
  main env = ((tr0 ++ no_key_lines)%list, Exits) /\
  existsb is_api_call (fst (main env)) = false.
Proof.
  intros Hload Hkey.
  assert (Hmain : main env = ((tr0 ++ no_key_lines)%list, Exits)).
  { unfold main. unfold extraction in Hload. rewrite Hload. cbn [then_].
    destruct Hkey as [-> | ->]; reflexivity. }
  split; [exact Hmain|]. rewrite Hmain. cbn [fst].
  rewrite existsb_app, (printed_no_api _ (extraction_prints _ _ _ Hload)).
  reflexivity.
Qed.

Lemma missing_key_stops_before_api_witness :
  main (sample_env with_text None object_schema None) = (no_key_lines, Exits) /\
  existsb is_api_call (fst (main (sample_env with_text None object_schema None)))
  = false.
Proof.
  apply (missing_key_stops_before_api
           (sample_env with_text None object_schema None) []
           "A"%char "nnual report 2024").
  - reflexivity.
  - left. reflexivity.
Defined.

(** X11.  A run ends with an exception nobody caught only when
    [clean_schema] raised on the schema of lines 118-123: it is that
    exception, and the run made no generation call and wrote no file. *)
Theorem uncaught_only_from_clean_schema env e :
  snd (main env) = Raises e ->
  clean_schema (api_base env) = Raise e /\
  existsb is_generated (fst (main env)) = false /\
  existsb is_written (fst (main env)) = false.
Proof.
  intros H. by_run env; try rewrite <- Hmain in *; cbn [fst snd] in *;
    try discriminate.
  injection H as <-. split; [exact Hclean|].
  assert (Hp := extraction_prints _ _ _ Hload).
  rewrite !existsb_app. cbn.
  assert (Hg : existsb is_generated tr0 = false).
  { destruct (existsb is_generated tr0) eqn:E; [|reflexivity].
    apply existsb_exists in E. destruct E as [x [Hx Hgx]].
    assert (Hpx := printed_In _ _ Hp Hx). destruct x; discriminate. }
  assert (Hw : existsb is_written tr0 = false).
  { destruct (existsb is_written tr0) eqn:E; [|reflexivity].
    apply existsb_exists in E. destruct E as [x [Hx Hwx]].
    assert (Hpx := printed_In _ _ Hp Hx). destruct x; discriminate. }
  now rewrite Hg, Hw.
Qed.

Lemma uncaught_only_from_clean_schema_witness :
  clean_schema (api_base (sample_env with_text (Some "key") anyOf_field_schema None))
  = Raise (no_get "str") /\
  existsb is_generated
    (fst (main (sample_env with_text (Some "key") anyOf_field_schema None)))
  = false /\
  existsb is_written
    (fst (main (sample_env with_text (Some "key") anyOf_field_schema None)))
  = false.
Proof.
  apply (uncaught_only_from_clean_schema
           (sample_env with_text (Some "key") anyOf_field_schema None)).
  reflexivity.
Defined.

(** X13.  Nothing is tried twice: a run makes at most one generation call
    and writes at most one file. *)
Theorem at_most_one_call env :
  List.length (filter is_generated (fst (main env))) <= 1 /\
  List.length (filter is_written (fst (main env))) <= 1.
Proof.
  by_run env; try rewrite <- Hmain; cbn [fst];
    assert (Hp := extraction_prints _ _ _ Hload);
    rewrite !filter_app, (printed_not_generated _ Hp),
      (printed_not_written _ Hp);
    cbn; lia.
Qed.

(** X14.  No partial output: a file is written only by a run in which the
    generation call returned, its answer passed the validation and
    [write_pdf] returned; the file has the name of lines 191-192 for the
    validated record, its content is the rendering of that record, and the
    run ends normally. *)
Theorem written_only_when_valid env name html :
  In (PdfWritten name html) (fst (main env)) ->
  exists tr0 text api_schema response ar,
    extraction env = (tr0, Returns text) /\
    clean_schema (api_base env) = Ok api_schema /\
    generate env model_name (prompt_for text) api_schema = Ok response /\
    validation env response = Good ar /\
    name = filename ar /\
    html = html_of env ar /\
    write_pdf env html name = Ok tt /\
    snd (main env) = Returns tt.
Proof.
  intros Hin.
  by_run env; try rewrite <- Hmain in *; cbn [fst snd] in *;
    assert (Hp := extraction_prints _ _ _ Hload);
    apply in_app_or in Hin;
    (destruct Hin as [Hin|Hin];
     [apply (printed_In _ _ Hp) in Hin; discriminate|]);
    cbn in Hin;
    repeat (destruct Hin as [Hin|Hin]; [try discriminate|]);
    try contradiction.
  injection Hin as <- <-.
  exists tr0, (String c text), api_schema, response, ar. repeat split;
    assumption.
Qed.

Lemma written_only_when_valid_witness :
  exists tr0 text api_schema response ar,
    extraction (sample_env with_text (Some "key") object_schema
                  (Some acme_answer)) = (tr0, Returns text) /\
    clean_schema (api_base (sample_env with_text (Some "key") object_schema
                              (Some acme_answer))) = Ok api_schema /\
    generate (sample_env with_text (Some "key") object_schema
                (Some acme_answer)) model_name (prompt_for text) api_schema
    = Ok response /\
    validation (sample_env with_text (Some "key") object_schema
                  (Some acme_answer)) response = Good ar /\
    filename acme = filename ar /\
    html_of (sample_env with_text (Some "key") object_schema
               (Some acme_answer)) acme
    = html_of (sample_env with_text (Some "key") object_schema
                 (Some acme_answer)) ar /\
    write_pdf (sample_env with_text (Some "key") object_schema
                 (Some acme_answer))
      (html_of (sample_env with_text (Some "key") object_schema
                  (Some acme_answer)) acme)
      (filename acme) = Ok tt /\
    snd (main (sample_env with_text (Some "key") object_schema
                 (Some acme_answer))) = Returns tt.
Proof.
  apply (written_only_when_valid
           (sample_env with_text (Some "key") object_schema
              (Some acme_answer))
           (filename acme)
           (html_of (sample_env with_text (Some "key") object_schema
                       (Some acme_answer)) acme)).
  vm_compute. do 5 right. left. reflexivity.
Defined.

(** X15.  What is sent: every generation call of a run names the model
    ['gemini-2.0-flash'], carries the prompt of lines 129-130 around the
    extracted text, which is not empty, and carries the tree [clean_schema]
    returned for the schema of lines 118-123.  That tree is a dict whose
    keys are ['type'], ['properties'] and, when the reflected schema has
    it, ['required'], and nothing else of the reflected schema (no
    ['$defs'], no ['title']) is at its top level. *)
Theorem generation_call_content env m p sent :
  In (Generated m p sent) (fst (main env)) ->
  exists tr0 c text cleaned,
    extraction env = (tr0, Returns (String c text)) /\
    m = model_name /\
    p = prompt_for (String c text) /\
    clean_schema (api_base env) = Ok sent /\
    sent = JDict cleaned /\
    forall k,
      dict_mem k cleaned
      = (String.eqb "type" k || String.eqb "properties" k
         || (String.eqb "required" k && dict_mem "required" (raw_schema env))).
Proof.
  intros Hin.
  assert (Hkeys : forall api_schema,
             clean_schema (api_base env) = Ok api_schema ->
             exists cleaned, api_schema = JDict cleaned /\
               forall k,
                 dict_mem k cleaned
                 = (String.eqb "type" k || String.eqb "properties" k
                    || (String.eqb "required" k
                        && dict_mem "required" (raw_schema env)))).
  { intros api_schema Hclean. unfold api_base in Hclean.
    rewrite clean_schema_dict, api_schema_base_no_union in Hclean.
    bind_inv Hclean. injection Hclean as <-. exists a. split; [reflexivity|].
    intros k. rewrite (copy_items_mem _ _ _ _ _ Ha k).
    cbn [dict_mem orb]. rewrite api_schema_base_keys.
    destruct (String.eqb "type" k) eqn:Et.
    { apply String.eqb_eq in Et. subst k. reflexivity. }
    destruct (String.eqb "properties" k) eqn:Ep.
    { apply String.eqb_eq in Ep. subst k. reflexivity. }
    destruct (String.eqb "required" k) eqn:Er.
    { apply String.eqb_eq in Er. subst k.
      replace (str_in "required" copy_excluded) with false by reflexivity.
      cbn [orb andb negb]. now rewrite andb_true_r. }
    reflexivity. }
  by_run env; try rewrite <- Hmain in *; cbn [fst snd] in *;
    assert (Hp := extraction_prints _ _ _ Hload);
    apply in_app_or in Hin;
    (destruct Hin as [Hin|Hin];
     [apply (printed_In _ _ Hp) in Hin; discriminate|]);
    cbn in Hin;
    repeat (destruct Hin as [Hin|Hin]; [try discriminate|]);
    try contradiction;
    injection Hin as <- <- <-;
    destruct (Hkeys _ Hclean) as [cleaned [Hc Hk]];
    exists tr0, c, text, cleaned; repeat split; assumption.
Qed.

Lemma generation_call_content_witness :
  exists tr0 c text cleaned,
    extraction (sample_env with_text (Some "key") object_schema None)
    = (tr0, Returns (String c text)) /\
    model_name = model_name /\
    prompt_for "Annual report 2024" = prompt_for (String c text) /\
    clean_schema (api_base (sample_env with_text (Some "key") object_schema
                              None))
    = Ok (JDict [("type", JStr "object");
                 ("properties",
                  JDict [("total_revenue",
                          JDict [("type", JStr "number");
                                 ("nullable", JBool true)])])]) /\
    JDict [("type", JStr "object");
           ("properties",
            JDict [("total_revenue",
                    JDict [("type", JStr "number");
                           ("nullable", JBool true)])])]
    = JDict cleaned /\
    forall k,
      dict_mem k cleaned
      = (String.eqb "type" k || String.eqb "properties" k
         || (String.eqb "required" k
             && dict_mem "required"
                  (raw_schema (sample_env with_text (Some "key") object_schema
                                 None)))).
Proof.
  apply (generation_call_content
           (sample_env with_text (Some "key") object_schema None)).
  vm_compute. right. left. reflexivity.
Defined.

(** X16.  Every failure inside the [try] is caught and reported: a run
    that made the generation call returns normally, and when it wrote no
    file the last thing it did was to print the line of lines 199-202 for
    one exception, which is the one the generation call raised, or the
    validation error of the answer, or the one the writing of the file
    raised. *)
Theorem failure_reported env :
  existsb is_generated (fst (main env)) = true ->
  existsb is_written (fst (main env)) = false ->
  snd (main env) = Returns tt /\
  exists e text api_schema,
    last (fst (main env)) empty_text_line = Printed (failure_line e) /\
    (generate env model_name (prompt_for text) api_schema = Raise e \/
     (exists response errors,
         generate env model_name (prompt_for text) api_schema = Ok response /\
         validation env response = Bad errors /\
         e = mk_exn ValidationError (describe env errors)) \/
     (exists response ar,
         generate env model_name (prompt_for text) api_schema = Ok response /\
         validation env response = Good ar /\
         write_pdf env (html_of env ar) (filename ar) = Raise e)).
Proof.
  intros Hg Hw.
  by_run env; try rewrite <- Hmain in *; cbn [fst snd] in *;
    assert (Hp := extraction_prints _ _ _ Hload);
    rewrite existsb_app in Hg, Hw;
    apply orb_false_iff in Hw; destruct Hw as [_ Hw];
    try discriminate Hw;
    (apply orb_true_iff in Hg; destruct Hg as [Hg|Hg];
     [ apply existsb_exists in Hg; destruct Hg as [x [Hx Hgx]];
       apply (printed_In _ _ Hp) in Hx; destruct x; discriminate
     | try discriminate Hg ]);
    (split; [reflexivity|]).
  - exists e0, (String c text), api_schema. split.
    + rewrite last_after. reflexivity.
    + left. exact Hgen.
  - exists (mk_exn ValidationError (describe env errors)), (String c text),
      api_schema. split.
    + rewrite last_after. reflexivity.
    + right. left. exists response, errors. repeat split; assumption.
  - exists e0, (String c text), api_schema. split.
    + rewrite last_after. reflexivity.
    + right. right. exists response, ar. repeat split; assumption.
Qed.

Lemma failure_reported_witness :
  snd (main (sample_env with_text (Some "key") object_schema None))
  = Returns tt /\
  exists e text api_schema,
    last (fst (main (sample_env with_text (Some "key") object_schema None)))
      empty_text_line
    = Printed (failure_line e) /\
    (generate (sample_env with_text (Some "key") object_schema None)
       model_name (prompt_for text) api_schema = Raise e \/
     (exists response errors,
         generate (sample_env with_text (Some "key") object_schema None)
           model_name (prompt_for text) api_schema = Ok response /\
         validation (sample_env with_text (Some "key") object_schema None)
           response = Bad errors /\
         e = mk_exn ValidationError
               (describe (sample_env with_text (Some "key") object_schema None)
                  errors)) \/
     (exists response ar,
         generate (sample_env with_text (Some "key") object_schema None)
           model_name (prompt_for text) api_schema = Ok response /\
         validation (sample_env with_text (Some "key") object_schema None)
           response = Good ar /\
         write_pdf (sample_env with_text (Some "key") object_schema None)
           (html_of (sample_env with_text (Some "key") object_schema None) ar)
           (filename ar) = Raise e)).
Proof.
  apply (failure_reported
           (sample_env with_text (Some "key") object_schema None));
    reflexivity.
Defined.

(** X17.  A model with a field named [anyOf] stops the pipeline: when the
    properties of the reflected schema have a key ['anyOf'] over the
    (non-empty) dict of that field, and what stands under ['type'] can be
    cleaned, a run that extracted text and found a key configures the API
    and then ends with the [AttributeError] of line 70, a string having no
    [get]; no generation call is made and nothing is reported. *)
Theorem field_named_anyOf_crashes env tr0 c text k key props field_key
    field_value field :
  extraction env = (tr0, Returns (String c text)) ->
  getenv env "GEMINI_API_KEY" = Some (String k key) ->
  cleanable (get_or "type" (JStr "object") (raw_schema env)) = true ->
  dict_get "properties" (raw_schema env) = Some (JDict props) ->
  dict_get "anyOf" props = Some (JDict ((field_key, field_value) :: field)) ->
  main env = ((tr0 ++ [Configured (String k key)])%list, Raises (no_get "str")).
Proof.
  intros Hload Hkey Htype Hprops Hfield.
  apply cleanable_returns in Htype. destruct Htype as [ty Hty].
  assert (Hp : clean_schema (JDict props) = Raise (no_get "str")).
  { rewrite clean_schema_dict, Hfield. reflexivity. }
  assert (Hclean : clean_schema (api_base env) = Raise (no_get "str")).
  { unfold api_base.
    rewrite clean_schema_dict, api_schema_base_no_union.
    unfold api_schema_base.
    replace (get_or "properties" (JDict []) (raw_schema env))
      with (JDict props) by (unfold get_or; now rewrite Hprops).
    destruct (dict_get "required" (raw_schema env)) as [r|];
      [replace (dict_set "required" r
                  [("type", get_or "type" (JStr "object") (raw_schema env));
                   ("properties", JDict props)])
         with [("type", get_or "type" (JStr "object") (raw_schema env));
               ("properties", JDict props); ("required", r)]
         by reflexivity|];
      cbn [copy_items];
      replace (str_in "type" copy_excluded) with false by reflexivity;
      replace (str_in "properties" copy_excluded) with false by reflexivity;
      rewrite Hty; cbn [bind]; rewrite Hp; reflexivity. }
  unfold main. unfold extraction in Hload. rewrite Hload, Hkey.
  cbn [then_]. unfold api_base in Hclean. rewrite Hclean. run_on.
  reflexivity.
Qed.

Lemma field_named_anyOf_crashes_witness :
  main (sample_env with_text (Some "key") anyOf_field_schema None)
  = ([Configured "key"], Raises (no_get "str")).
Proof.
  apply (field_named_anyOf_crashes
           (sample_env with_text (Some "key") anyOf_field_schema None)
           [] "A"%char "nnual report 2024" "k"%char "ey"
           [("anyOf", JDict string_type)] "type" (JStr "string") []);
    reflexivity.
Defined.

End PipelineExtras.

Module ExtractorExtras.
Import Py Program Extractor Text Observe Runs ExtractorFacts PipelineFacts.
Local Open Scope string_scope.

Lemma append_assoc (s t u : string) : (s ++ t) ++ u = s ++ (t ++ u).
Proof. induction s as [|c s IH]; simpl; [reflexivity|]. now rewrite IH. Qed.

Lemma read_pdf_silent fs path :
  (exists text, read_pdf fs path = ([], Returns text)) \/
  (exists e, read_pdf fs path = ([], Raises e)).
Proof.
  unfold read_pdf.
  destruct (fs path) as [|e|[e|pages]];
    [right; eexists; reflexivity ..|].
  destruct (join_pages pages) as [text|e];
    [left|right]; eexists; reflexivity.
Qed.

(** X18.  [load_file] of main.py handles every exception of its body and
    [load_file] of counter.py none.  For every file system and path,
    either both return the same text and print nothing, or the one of
    counter.py raises an exception and the one of main.py prints one line
    for that exception (the line of line 35 for a missing file, the line
    of line 38 with the message of the exception otherwise) and returns
    the empty string. *)
Theorem load_file_handles_everything fs path :
  (exists text,
      Counter.load_file fs path = ([], Returns text) /\
      load_file fs path = ([], Returns text)) \/
  (exists e,
      Counter.load_file fs path = ([], Raises e) /\
      load_file fs path = ([Printed (load_failure_line path e)], Returns "")).
Proof.
  unfold Counter.load_file.
  destruct (read_pdf_silent fs path) as [[text H]|[e H]].
  - left. exists text. split; [exact H|]. unfold load_file. now rewrite H.
  - right. exists e. split; [exact H|]. now apply load_file_handles.
Qed.

(** X19.  One page whose [extract_text] raises loses the text of all the
    pages: the pages before it were read, and still [load_file] of main.py
    returns the empty string, printing the line of line 38, and
    [load_file] of counter.py raises the exception of that page. *)
Theorem unreadable_page_loses_all fs path pre e post :
  fs path = Opens (Pages (pre ++ Unreadable e :: post)) ->
  forallb readable pre = true ->
  class e <> FileNotFoundError ->
  load_file fs path
  = ([Printed ("An error occurred while reading the PDF: " ++ message e)],
     Returns "") /\
  Counter.load_file fs path = ([], Raises e).
Proof.
  intros Hfs Hpre Hclass.
  assert (H : read_pdf fs path = ([], Raises e)).
  { unfold read_pdf. rewrite Hfs, (join_pages_unreadable _ _ _ Hpre).
    reflexivity. }
  split; [|exact H].
  rewrite (load_file_handles _ _ _ H). unfold load_failure_line.
  destruct (class e); try reflexivity. contradiction.
Qed.

Lemma unreadable_page_loses_all_witness :
  load_file damaged "meta_10k.pdf"
  = ([Printed "An error occurred while reading the PDF: EOF marker not found"],
     Returns "") /\
  Counter.load_file damaged "meta_10k.pdf"
  = ([], Raises (mk_exn (OtherException "PdfReadError") "EOF marker not found")).
Proof.
  apply (unreadable_page_loses_all damaged "meta_10k.pdf"
           [Text "Annual report"]
           (mk_exn (OtherException "PdfReadError") "EOF marker not found")
           [Text " 2024"]).
  - reflexivity.
  - reflexivity.
  - discriminate.
Defined.

(** X20.  When the file opens and no page raises, both [load_file] print
    nothing and return the texts of the pages joined in order, with
    nothing for a page without text; the text of two runs of pages is the
    text of the first followed by the text of the second. *)
Theorem readable_pages_joined fs path pages1 pages2 :
  fs path = Opens (Pages (pages1 ++ pages2)) ->
  forallb readable (pages1 ++ pages2) = true ->
  load_file fs path
  = ([], Returns (String.concat "" (map page_text pages1)
                  ++ String.concat "" (map page_text pages2))) /\
  Counter.load_file fs path = load_file fs path.
Proof.
  intros Hfs Hr.
  assert (Hjoin : forall ps qs,
             String.concat "" (map page_text (ps ++ qs))
             = String.concat "" (map page_text ps)
               ++ String.concat "" (map page_text qs)).
  { induction ps as [|p ps IH]; intros qs; [reflexivity|].
    cbn [app map]. rewrite !concat_empty_cons, IH.
    now rewrite append_assoc. }
  assert (H : read_pdf fs path
              = ([], Returns (String.concat "" (map page_text pages1)
                              ++ String.concat "" (map page_text pages2)))).
  { unfold read_pdf. rewrite Hfs, (join_pages_readable _ Hr), Hjoin.
    reflexivity. }
  unfold Counter.load_file, load_file. rewrite H. split; reflexivity.
Qed.

Lemma readable_pages_joined_witness :
  load_file with_text "meta_10k.pdf"
  = ([], Returns ("Annual report" ++ " 2024")) /\
  Counter.load_file with_text "meta_10k.pdf"
  = load_file with_text "meta_10k.pdf".
Proof.
  apply (readable_pages_joined with_text "meta_10k.pdf"
           [Text "Annual report"; NoText] [Text " 2024"]);
    reflexivity.
Defined.

(** X21.  The script of counter.py prints at most once, and only the
    number of tokens: either the extraction raises, or the extraction
    returns and the tokenizer has no encoder for ['gpt-4o'], or the encoder
    raises on the text, and then the script ends with that exception having
    printed nothing; or it prints the number of tokens of the text, in
    decimal, and returns. *)
Theorem counter_script_outcomes fs encoding_for_model :
  (exists e,
      Counter.load_file fs "meta_10k.pdf" = ([], Raises e) /\
      CounterScript.main fs encoding_for_model = ([], Raises e)) \/
  (exists text e,
      Counter.load_file fs "meta_10k.pdf" = ([], Returns text) /\
      encoding_for_model "gpt-4o" = Raise e /\
      CounterScript.main fs encoding_for_model = ([], Raises e)) \/
  (exists text encode e,
      Counter.load_file fs "meta_10k.pdf" = ([], Returns text) /\
      encoding_for_model "gpt-4o" = Ok encode /\
      encode text = Raise e /\
      CounterScript.main fs encoding_for_model = ([], Raises e)) \/
  (exists text encode tokens,
      Counter.load_file fs "meta_10k.pdf" = ([], Returns text) /\
      encoding_for_model "gpt-4o" = Ok encode /\
      encode text = Ok tokens /\
      CounterScript.main fs encoding_for_model
      = ([Printed (str_of_N (N.of_nat (List.length tokens)))], Returns tt)).
Proof.
  unfold CounterScript.main, Counter.load_file.
  destruct (read_pdf_silent fs "meta_10k.pdf") as [[text H]|[e H]];
    rewrite H.
  - right. cbn [then_ app].
    destruct (encoding_for_model "gpt-4o") as [encode|e] eqn:Eenc;
      cbn [lift then_ ret raise app].
    + right.
      destruct (encode text) as [tokens|e] eqn:Etok;
        cbn [lift then_ ret raise print emit app].
      * right. exists text, encode, tokens.
        split; [reflexivity|]. split; [reflexivity|]. split; [exact Etok|].
        reflexivity.
      * left. exists text, encode, e.
        split; [reflexivity|]. split; [reflexivity|]. split; [exact Etok|].
        reflexivity.
    + left. exists text, e.
      split; [reflexivity|]. split; reflexivity.
  - left. exists e. split; reflexivity.
Qed.

End ExtractorExtras.

Module ReportExtras.
Import Py Text Report Observe Pipeline Runs ReportClaims.
Local Open Scope string_scope.

Lemma all_chars_app p s t :
  all_chars p (s ++ t) = all_chars p s && all_chars p t.
Proof.
  induction s as [|c s IH]; [reflexivity|].
  cbn [append all_chars]. now rewrite IH, andb_assoc.
Qed.

Lemma all_chars_impl (p q : ascii -> bool) s :
  (forall c, p c = true -> q c = true) ->
  all_chars p s = true -> all_chars q s = true.
Proof.
  intros H. induction s as [|c s IH]; [reflexivity|].
  cbn [all_chars]. intros Hs. apply andb_prop in Hs. destruct Hs as [Hc Hs].
  now rewrite (H c Hc), (IH Hs).
Qed.

Lemma digits_of_uint u : all_chars is_digit (NilEmpty.string_of_uint u) = true.
Proof. induction u; cbn [NilEmpty.string_of_uint all_chars]; auto. Qed.

Lemma str_of_N_digits n : all_chars is_digit (str_of_N n) = true.
Proof. apply digits_of_uint. Qed.

Lemma is_digit_plain c : is_digit c = true -> plain_char c = true.
Proof.
  unfold is_digit, plain_char. intros H. apply andb_prop in H.
  destruct H as [H1 H2]. apply Nat.leb_le in H1.
  destruct (Ascii.eqb c " ") eqn:E1.
  { apply Ascii.eqb_eq in E1. subst c. cbn in H1. lia. }
  destruct (Ascii.eqb c "/") eqn:E2; [|reflexivity].
  apply Ascii.eqb_eq in E2. subst c. cbn in H1. lia.
Qed.

Lemma map_chars_all (f : ascii -> ascii) p s :
  (forall c, p (f c) = true) -> all_chars p (map_chars f s) = true.
Proof.
  intros H. induction s as [|c s IH]; [reflexivity|].
  cbn [map_chars all_chars]. now rewrite H, IH.
Qed.

(** X22.  The name of the output file has no space and no slash, whatever
    the company name and the year are: it names a file in the working
    directory. *)
Theorem filename_plain ar : all_chars plain_char (filename ar) = true.
Proof.
  unfold filename.
  change "/" with (String "/"%char "").
  change " " with (String " "%char "").
  change "_" with (String "_"%char "").
  rewrite !replace_char, map_chars_compose.
  rewrite !all_chars_app.
  rewrite (all_chars_impl _ _ _ is_digit_plain (str_of_N_digits _)).
  rewrite map_chars_all; [reflexivity|].
  intros c. cbv beta.
  destruct (Ascii.eqb c " ") eqn:E1; [reflexivity|].
  destruct (Ascii.eqb c "/") eqn:E2; [reflexivity|].
  unfold plain_char. now rewrite E1, E2.
Qed.

(** X23.  The document does not tell an empty optional text from a
    missing one: with the auditor, the business description and the
    management discussion that are empty strings, and an empty list of
    risk factors, taken away from the record, the lines of lines 152-182,
    the document and the file name are the same. *)
Theorem blank_is_missing env ar :
  md_lines env (hide_blank ar) = md_lines env ar /\
  html_of env (hide_blank ar) = html_of env ar /\
  filename (hide_blank ar) = filename ar.
Proof.
  assert (H : md_lines env (hide_blank ar) = md_lines env ar).
  { unfold md_lines, hide_blank. cbn [company_name cik fiscal_year_end
      filing_date total_revenue net_income total_assets total_liabilities
      operating_cash_flow cash_and_equivalents num_employees auditor
      business_description risk_factors management_discussion].
    destruct (auditor ar) as [[|? ?]|];
      destruct (business_description ar) as [[|? ?]|];
      destruct (risk_factors ar) as [[|? ?]|];
      destruct (management_discussion ar) as [[|? ?]|]; reflexivity. }
  split; [exact H|]. split; [|reflexivity].
  unfold html_of. now rewrite H.
Qed.

End ReportExtras.


Module BoundedFacts.
Import Py Schema Observe Bounded DictFacts SchemaFacts SchemaMoreFacts.

#[local] Arguments String.eqb : simpl never.

(** *** Two functions in the loops *)

Section TwoFunctions.
Variables rec rec' : json -> result json.

Lemma copy_items_ext ex items :
  (forall k v, In (k, v) items -> str_in k ex = false -> rec v = rec' v) ->
  forall c, copy_items rec ex items c = copy_items rec' ex items c.
Proof.
  induction items as [|[k v] items IH]; intros H c; [reflexivity|].
  cbn [copy_items]. destruct (str_in k ex) eqn:E.
  - apply IH. intros k' v' Hin. apply H. now right.
  - rewrite (H k v (or_introl eq_refl) E).
    destruct (rec' v) as [v'|e]; [|reflexivity]. cbn [bind].
    apply IH. intros k' v0 Hin. apply H. now right.
Qed.

Lemma flatten_branches_ext items :
  (forall it k v,
      In (JDict it) items -> is_null_branch it = false ->
      In (k, v) it -> str_in k branch_excluded = false -> rec v = rec' v) ->
  forall c, flatten_branches rec items c = flatten_branches rec' items c.
Proof.
  induction items as [|item items IH]; intros H c; [reflexivity|].
  assert (Hrest : forall c', flatten_branches rec items c'
                             = flatten_branches rec' items c').
  { apply IH. intros it k v Hin. apply H. now right. }
  cbn [flatten_branches]. destruct item as [| | | | | |it]; try reflexivity.
  destruct (is_null_branch it) eqn:En; [apply Hrest|].
  rewrite (copy_items_ext branch_excluded it
             (fun k v => H it k v (or_introl eq_refl) En)).
  destruct (copy_items rec' branch_excluded it c); [|reflexivity].
  cbn [bind]. apply Hrest.
Qed.

Lemma for_each_ext l :
  (forall x, In x l -> rec x = rec' x) -> for_each rec l = for_each rec' l.
Proof.
  induction l as [|x l IH]; intros H; [reflexivity|].
  cbn [for_each]. rewrite (H x (or_introl eq_refl)), IH; [reflexivity|].
  intros y Hy. apply H. now right.
Qed.

End TwoFunctions.

(** *** What a loop that returns, and one that raises, says of its calls *)

Section OneFunction.
Variable rec : json -> result json.

Lemma copy_items_calls_return ex items : forall c c',
  copy_items rec ex items c = Ok c' ->
  forall k v, In (k, v) items -> str_in k ex = false ->
              exists v', rec v = Ok v'.
Proof.
  induction items as [|[k0 v0] items IH]; intros c c' H k v Hin Hk;
    [contradiction|].
  cbn [copy_items] in H. destruct Hin as [[= -> ->]|Hin].
  - rewrite Hk in H. bind_inv H. eauto.
  - destruct (str_in k0 ex); [eauto|]. bind_inv H. eauto.
Qed.

Lemma copy_items_raises ex items : forall c e,
  copy_items rec ex items c = Raise e ->
  exists k v, In (k, v) items /\ str_in k ex = false /\ rec v = Raise e.
Proof.
  induction items as [|[k0 v0] items IH]; intros c e H; [discriminate|].
  cbn [copy_items] in H. destruct (str_in k0 ex) eqn:E.
  - destruct (IH _ _ H) as [k [v [Hin Hr]]]. exists k, v. split; [now right|].
    exact Hr.
  - destruct (rec v0) as [v'|e'] eqn:Ev; cbn [bind] in H.
    + destruct (IH _ _ H) as [k [v [Hin Hr]]]. exists k, v.
      split; [now right|]. exact Hr.
    + injection H as <-. exists k0, v0. split; [now left|]. split; assumption.
Qed.

Lemma flatten_branches_calls_return items : forall c c',
  flatten_branches rec items c = Ok c' ->
  forall it k v,
    In (JDict it) items -> is_null_branch it = false ->
    In (k, v) it -> str_in k branch_excluded = false ->
    exists v', rec v = Ok v'.
Proof.
  induction items as [|item items IH]; intros c c' H it k v Hit Hn Hin Hk;
    [contradiction|].
  cbn [flatten_branches] in H.
  destruct item as [| | | | | |it0]; try discriminate.
  destruct Hit as [[= ->]|Hit].
  - rewrite Hn in H. bind_inv H.
    eapply copy_items_calls_return; eassumption.
  - destruct (is_null_branch it0); [eauto|]. bind_inv H. eauto.
Qed.

Lemma flatten_branches_raises items : forall c e,
  flatten_branches rec items c = Raise e ->
  (exists item, In item items /\ is_dict item = false) \/
  (exists it k v,
      In (JDict it) items /\ is_null_branch it = false /\
      In (k, v) it /\ str_in k branch_excluded = false /\ rec v = Raise e).
Proof.
  induction items as [|item items IH]; intros c e H; [discriminate|].
  assert (Hrest : forall c0,
             flatten_branches rec items c0 = Raise e ->
             (exists item0, In item0 (item :: items) /\ is_dict item0 = false) \/
             (exists it k v,
                 In (JDict it) (item :: items) /\ is_null_branch it = false /\
                 In (k, v) it /\ str_in k branch_excluded = false /\
                 rec v = Raise e)).
  { intros c0 H0. destruct (IH _ _ H0) as [[x [Hx Hd]]|[it [k [v [Hit Hr]]]]].
    - left. exists x. split; [now right|exact Hd].
    - right. exists it, k, v. split; [now right|exact Hr]. }
  cbn [flatten_branches] in H.
  destruct item as [| | | | | |it0];
    try solve [left; eexists; split; [now left|reflexivity]].
  destruct (is_null_branch it0) eqn:En; [eauto|].
  destruct (copy_items rec branch_excluded it0 c) as [c1|e1] eqn:Ec;
    cbn [bind] in H; [eauto|].
  injection H as <-.
  destruct (copy_items_raises _ _ _ _ Ec) as [k [v [Hin [Hk Hr]]]].
  right. exists it0, k, v. split; [now left|]. repeat split; assumption.
Qed.

Lemma for_each_calls_return l : forall l',
  for_each rec l = Ok l' -> forall x, In x l -> exists x', rec x = Ok x'.
Proof.
  induction l as [|x0 l IH]; intros l' H x Hin; [contradiction|].
  cbn [for_each] in H. bind_inv H. bind_inv H.
  destruct Hin as [<-|Hin]; eauto.
Qed.

Lemma for_each_raises l : forall e,
  for_each rec l = Raise e -> exists x, In x l /\ rec x = Raise e.
Proof.
  induction l as [|x0 l IH]; intros e H; [discriminate|].
  cbn [for_each] in H. destruct (rec x0) as [x'|e'] eqn:Ex; cbn [bind] in H.
  - destruct (for_each rec l) as [l'|e'] eqn:El; cbn [bind] in H;
      [discriminate|].
    injection H as <-. destruct (IH _ eq_refl) as [x [Hx Hr]].
    exists x. split; [now right|exact Hr].
  - injection H as <-. exists x0. split; [now left|exact Ex].
Qed.

End OneFunction.

(** *** The nesting of the values the walk descends into *)

Lemma list_max_bound (l : list nat) n :
  list_max l <= n <-> forall x, In x l -> x <= n.
Proof. rewrite list_max_le, Forall_forall. reflexivity. Qed.

Lemma visited_nesting_bound rec ex d n :
  visited_nesting rec ex d <= n <->
  forall k v, In (k, v) d -> str_in k ex = false -> rec v <= n.
Proof.
  unfold visited_nesting. rewrite list_max_bound. split.
  - intros H k v Hin Hk.
    specialize (H _ (in_map (fun kv => if str_in (fst kv) ex then 0
                                        else rec (snd kv)) _ _ Hin)).
    cbn [fst snd] in H. now rewrite Hk in H.
  - intros H x Hx. apply in_map_iff in Hx. destruct Hx as [[k v] [<- Hin]].
    cbn [fst snd]. destruct (str_in k ex) eqn:E; [lia|]. now apply (H k v).
Qed.

Lemma union_nesting_bound rec items n :
  union_nesting rec (JList items) <= n <->
  forall it k v,
    In (JDict it) items -> is_null_branch it = false ->
    In (k, v) it -> str_in k branch_excluded = false -> rec v <= n.
Proof.
  cbn [union_nesting]. rewrite list_max_bound. split.
  - intros H it k v Hit Hn Hin Hk.
    specialize (H _ (in_map (branch_nesting rec) _ _ Hit)).
    cbn [branch_nesting] in H. rewrite Hn in H.
    apply (proj1 (visited_nesting_bound rec branch_excluded it n) H k v);
      assumption.
  - intros H x Hx. apply in_map_iff in Hx. destruct Hx as [item [<- Hin]].
    destruct item as [| | | | | |it]; cbn [branch_nesting]; try lia.
    destruct (is_null_branch it) eqn:En; [lia|].
    apply visited_nesting_bound. intros k v Hkv Hk. now apply (H it k v).
Qed.

Lemma nesting_dict d :
  nesting (JDict d) =
  S (match dict_get "anyOf" d with
     | Some any_of => union_nesting nesting any_of
     | None => visited_nesting nesting copy_excluded d
     end).
Proof. cbn [nesting]. now rewrite on_key_get. Qed.

Lemma nesting_pos t : 1 <= nesting t.
Proof. destruct t; cbn [nesting]; lia. Qed.

Lemma bounded_dict frames d :
  Bounded.clean_schema (S frames) (JDict d) =
  match dict_get "anyOf" d with
  | Some any_of =>
      cleaned <- flatten_union (Bounded.clean_schema frames) any_of ;;
      Ok (JDict cleaned)
  | None =>
      cleaned <- copy_items (Bounded.clean_schema frames) copy_excluded d [] ;;
      Ok (JDict cleaned)
  end.
Proof.
  cbn [Bounded.clean_schema]. rewrite on_key_get.
  destruct (dict_get "anyOf" d); reflexivity.
Qed.

Lemma cleanable_dict d :
  cleanable (JDict d) =
  match dict_get "anyOf" d with
  | Some any_of => union_cleanable cleanable any_of
  | None => visited_values cleanable copy_excluded d
  end.
Proof. cbn [cleanable]. now rewrite on_key_get. Qed.

Lemma visited_values_kept chk ex d k v :
  visited_values chk ex d = true -> In (k, v) d -> str_in k ex = false ->
  chk v = true.
Proof.
  unfold visited_values. rewrite forallb_forall. intros H Hin Hk.
  specialize (H _ Hin). cbn [fst snd] in H. now rewrite Hk in H.
Qed.

(** *** The walk under the limit and the walk without one *)

(** With frames for the nesting of the tree, the limit is not met. *)
Lemma within_limit frames : forall s,
  nesting s <= frames ->
  Bounded.clean_schema frames s = Schema.clean_schema s.
Proof.
  induction frames as [|frames IH]; intros s Hn.
  - assert (H := nesting_pos s). lia.
  - destruct s as [| | | | |l|d]; try reflexivity.
    + cbn [nesting] in Hn. apply le_S_n in Hn.
      rewrite clean_schema_list. cbn [Bounded.clean_schema].
      rewrite (for_each_ext _ Schema.clean_schema); [reflexivity|].
      intros x Hx. apply IH.
      apply (proj1 (list_max_bound _ _) Hn). now apply in_map.
    + rewrite nesting_dict in Hn. apply le_S_n in Hn.
      rewrite clean_schema_dict, bounded_dict.
      destruct (dict_get "anyOf" d) as [any_of|].
      * destruct any_of as [| | | | |items|]; try reflexivity.
        cbn [flatten_union].
        rewrite (flatten_branches_ext _ Schema.clean_schema); [reflexivity|].
        intros it k v Hit Hnull Hin Hk. apply IH.
        apply (proj1 (union_nesting_bound _ _ _) Hn it k v); assumption.
      * rewrite (copy_items_ext _ Schema.clean_schema); [reflexivity|].
        intros k v Hin Hk. apply IH.
        apply (proj1 (visited_nesting_bound _ _ _ _) Hn k v); assumption.
Qed.

(** A walk that returns had frames for the nesting of the tree. *)
Lemma returns_within frames : forall s t,
  Bounded.clean_schema frames s = Ok t -> nesting s <= frames.
Proof.
  induction frames as [|frames IH]; intros s t H; [discriminate|].
  destruct s as [| | | | |l|d]; try (cbn [nesting]; lia).
  - cbn [nesting]. cbn [Bounded.clean_schema] in H. bind_inv H. apply le_n_S.
    apply list_max_bound. intros x Hx. apply in_map_iff in Hx.
    destruct Hx as [y [<- Hy]].
    destruct (for_each_calls_return _ _ _ Ha _ Hy) as [y' Hy'].
    eapply IH; eassumption.
  - rewrite nesting_dict. apply le_n_S.
    rewrite bounded_dict in H.
    destruct (dict_get "anyOf" d) as [any_of|]; bind_inv H.
    + destruct any_of as [| | | | |items|]; cbn [union_nesting]; try lia.
      apply (union_nesting_bound nesting items).
      intros it k v Hit Hnull Hin Hk. cbn [flatten_union] in Ha.
      destruct (flatten_branches_calls_return _ _ _ _ Ha it k v Hit Hnull
                  Hin Hk) as [v' Hv'].
      eapply IH; eassumption.
    + apply visited_nesting_bound. intros k v Hin Hk.
      destruct (copy_items_calls_return _ _ _ _ _ Ha k v Hin Hk) as [v' Hv'].
      eapply IH; eassumption.
Qed.

(** On a cleanable tree the limit is all the walk can fail on. *)
Lemma cleanable_raises_limit frames : forall s e,
  cleanable s = true ->
  Bounded.clean_schema frames s = Raise e -> e = recursion_error.
Proof.
  induction frames as [|frames IH]; intros s e Hc H.
  - now injection H as <-.
  - destruct s as [| | | | |l|d]; try discriminate.
    + cbn [Bounded.clean_schema] in H.
      destruct (for_each (Bounded.clean_schema frames) l) as [l'|e'] eqn:El;
        cbn [bind] in H; [discriminate|].
      injection H as <-.
      destruct (for_each_raises _ _ _ El) as [x [Hx Hr]].
      apply (IH x); [|exact Hr].
      cbn [cleanable] in Hc. rewrite forallb_forall in Hc. now apply Hc.
    + rewrite bounded_dict in H. rewrite cleanable_dict in Hc.
      destruct (dict_get "anyOf" d) as [any_of|].
      * destruct (flatten_union (Bounded.clean_schema frames) any_of)
          as [c|e'] eqn:Eu; cbn [bind] in H; [discriminate|].
        injection H as <-.
        destruct any_of as [| | | |[|]|items|[|]]; try discriminate.
        cbn [flatten_union] in Eu. cbn [union_cleanable] in Hc.
        rewrite forallb_forall in Hc.
        destruct (flatten_branches_raises _ _ _ _ Eu)
          as [[item [Hitem Hd]]|[it [k [v [Hit [Hnull [Hin [Hk Hr]]]]]]]].
        -- specialize (Hc _ Hitem). destruct item; discriminate.
        -- specialize (Hc _ Hit). cbn [branch_cleanable] in Hc.
           rewrite Hnull in Hc. cbn [orb] in Hc.
           apply (IH v); [|exact Hr].
           eapply visited_values_kept; eassumption.
      * destruct (copy_items (Bounded.clean_schema frames) copy_excluded d [])
          as [c|e'] eqn:Ec; cbn [bind] in H; [discriminate|].
        injection H as <-.
        destruct (copy_items_raises _ _ _ _ _ Ec) as [k [v [Hin [Hk Hr]]]].
        apply (IH v); [|exact Hr].
        eapply visited_values_kept; eassumption.
Qed.

(** The script under the limit is the script, when the limit is not met
    at line 126. *)
Lemma main_within_limit frames env :
  nesting (Runs.api_base env) <= frames ->
  Bounded.main frames env = Pipeline.main env.
Proof.
  intros H. unfold Bounded.main, Pipeline.main.
  unfold Runs.api_base in H. now rewrite (within_limit _ _ H).
Qed.

End BoundedFacts.

Module BoundedExtras.
Import Py Schema Observe Program Extractor Text Report Validator Pipeline.
Import Runs Bounded DictFacts SchemaFacts SchemaMoreFacts PipelineFacts.
Import PipelineMoreFacts BoundedFacts.
Local Open Scope string_scope.

#[local] Arguments String.eqb : simpl never.

(** Without a limit, a schema-shaped reflected schema cannot make the
    script raise. *)
Lemma shaped_main_ends env :
  schema_shaped (JDict (raw_schema env)) = true ->
  snd (Pipeline.main env) = Returns tt \/ snd (Pipeline.main env) = Exits.
Proof.
  intros H. assert (Hrun := main_runs env).
  inversion Hrun as
    [ | | tr0 c text k key e0 Hload Hkey Hclean Hmain | | | | ];
    cbn [snd]; auto.
  destruct (clean_schema_total _ (api_base_shaped env H)) as [t Ht].
  congruence.
Qed.

(** X2.  Under the recursion limit, [clean_schema] returns exactly on the
    trees that are cleanable and whose nesting the limit allows: a tree is
    cleanable when every ['anyOf'] the walk comes to holds a list of dicts
    (an empty string or dict apart).  What it returns then is what the
    function without a limit returns.  On a cleanable tree nested deeper
    than the limit allows it raises [RecursionError], on a tree that is not
    cleanable it raises, and a tree with a list of dicts under every
    ['anyOf'] is cleanable. *)
Theorem returns_exactly_when_cleanable frames s :
  ((exists t, Bounded.clean_schema frames s = Ok t) <->
   cleanable s = true /\ nesting s <= frames) /\
  (forall t, Bounded.clean_schema frames s = Ok t ->
             Schema.clean_schema s = Ok t) /\
  (cleanable s = true -> frames < nesting s ->
   Bounded.clean_schema frames s = Raise recursion_error) /\
  (cleanable s = false -> exists e, Bounded.clean_schema frames s = Raise e) /\
  (schema_shaped s = true -> cleanable s = true).
Proof.
  assert (Hret : forall t, Bounded.clean_schema frames s = Ok t ->
                           Schema.clean_schema s = Ok t).
  { intros t H. now rewrite <- (within_limit _ _ (returns_within _ _ _ H)). }
  assert (Hiff : (exists t, Bounded.clean_schema frames s = Ok t) <->
                 cleanable s = true /\ nesting s <= frames).
  { split.
    - intros [t H]. split; [|eapply returns_within; eassumption].
      apply cleanable_returns. eauto.
    - intros [Hc Hn]. rewrite (within_limit _ _ Hn).
      now apply cleanable_returns. }
  split; [exact Hiff|]. split; [exact Hret|].
  split; [|split; [|apply schema_shaped_cleanable]].
  - intros Hc Hn.
    destruct (Bounded.clean_schema frames s) as [t|e] eqn:E.
    + assert (Hle := returns_within _ _ _ E). lia.
    + now rewrite (cleanable_raises_limit _ _ _ Hc E).
  - intros Hc. destruct (Bounded.clean_schema frames s) as [t|e] eqn:E;
      [|eauto].
    assert (Hc' : cleanable s = true) by (apply Hiff; eauto). congruence.
Qed.

Lemma returns_exactly_when_cleanable_witness :
  (exists t, Bounded.clean_schema 4 report_schema = Ok t) /\
  Bounded.clean_schema 3 (nested 3) = Raise recursion_error /\
  (exists e, Bounded.clean_schema 4 field_named_anyOf = Raise e).
Proof.
  split; [|split].
  - apply (proj1 (returns_exactly_when_cleanable 4 report_schema)).
    split; [reflexivity|]. vm_compute. lia.
  - apply (proj1 (proj2 (proj2 (returns_exactly_when_cleanable 3 (nested 3))))).
    + reflexivity.
    + vm_compute. lia.
  - apply (proj1 (proj2 (proj2 (proj2
             (returns_exactly_when_cleanable 4 field_named_anyOf))))).
    reflexivity.
Defined.

(** X12.  Let the reflected schema have a list of dicts under every
    ['anyOf'].  When the recursion limit allows the nesting of the schema
    of lines 118-123, the run is the run without a limit and does not end
    with an exception nobody caught: it returns or ends with [exit()],
    whatever the files, the environment, the generation API, the
    validation and the rendering do.  When the schema is nested deeper, a
    run that extracted text and found a key configures the API and ends
    with the [RecursionError] of line 126, which is outside the [try]. *)
Theorem shaped_schema_never_crashes frames env :
  schema_shaped (JDict (raw_schema env)) = true ->
  (nesting (api_base env) <= frames ->
   Bounded.main frames env = Pipeline.main env /\
   (snd (Bounded.main frames env) = Returns tt \/
    snd (Bounded.main frames env) = Exits)) /\
  (forall tr0 c text k key,
      frames < nesting (api_base env) ->
      extraction env = (tr0, Returns (String c text)) ->
      getenv env "GEMINI_API_KEY" = Some (String k key) ->
      Bounded.main frames env
      = ((tr0 ++ [Configured (String k key)])%list, Raises recursion_error)).
Proof.
  intros Hs. split.
  - intros Hn. rewrite (main_within_limit _ _ Hn).
    split; [reflexivity|now apply shaped_main_ends].
  - intros tr0 c text k key Hn Hload Hkey.
    assert (Hc : cleanable (api_base env) = true)
      by (apply schema_shaped_cleanable; now apply api_base_shaped).
    assert (Hr : Bounded.clean_schema frames (api_base env)
                 = Raise recursion_error).
    { destruct (Bounded.clean_schema frames (api_base env)) as [t|e] eqn:E.
      - assert (Hle := returns_within _ _ _ E). lia.
      - now rewrite (cleanable_raises_limit _ _ _ Hc E). }
    unfold Bounded.main. unfold extraction in Hload. rewrite Hload, Hkey.
    cbn [then_]. unfold api_base in Hr. rewrite Hr. reflexivity.
Qed.

Lemma shaped_schema_never_crashes_witness :
  (Bounded.main 7 (sample_env with_text (Some "key") (deep_schema 3) None)
   = Pipeline.main (sample_env with_text (Some "key") (deep_schema 3) None) /\
   (snd (Bounded.main 7
           (sample_env with_text (Some "key") (deep_schema 3) None))
    = Returns tt \/
    snd (Bounded.main 7
           (sample_env with_text (Some "key") (deep_schema 3) None))
    = Exits)) /\
  Bounded.main 6 (sample_env with_text (Some "key") (deep_schema 3) None)
  = ([Configured "key"], Raises recursion_error).
Proof.
  split.
  - apply (proj1 (shaped_schema_never_crashes 7
                    (sample_env with_text (Some "key") (deep_schema 3) None)
                    eq_refl)).
    vm_compute. lia.
  - apply (proj2 (shaped_schema_never_crashes 6
                    (sample_env with_text (Some "key") (deep_schema 3) None)
                    eq_refl)
             [] "A"%char "nnual report 2024" "k"%char "ey").
    + vm_compute. lia.
    + reflexivity.
    + reflexivity.
Defined.

End BoundedExtras.

Module HeapBoundedFacts.
Import Py Heap HeapBounded DictFacts HeapFacts.

#[local] Arguments String.eqb : simpl never.

(** A call under the limit changes no object that was there before the
    call and prints nothing, whatever the store and however it ends. *)
Lemma frame_bounded fuel frames : forall n schema,
  frame_ok n (HeapBounded.clean_schema fuel frames schema).
Proof.
  induction frames as [|frames IH]; intros n schema; [apply frame_raise|].
  simpl. destruct schema as [| | | | |a]; try apply frame_ret.
  apply frame_bind; [apply frame_load|].
  intros [d|l] w w' _ _.
  - apply frame_bind; [apply frame_alloc|].
    intros c w1 w2 Hn [= <- _].
    apply frame_bind; [|intros; apply frame_ret].
    destruct (dict_get "anyOf" d).
    + now apply frame_flatten_union.
    + apply frame_for_items. intros; now apply frame_copy_entry.
  - apply frame_bind; [apply frame_alloc|].
    intros c w1 w2 Hn [= <- _].
    apply frame_bind; [|intros; apply frame_ret].
    apply frame_for_list. intros x.
    apply frame_bind; [apply IH|]. intros; now apply frame_append.
Qed.

(** *** The loops end *)

(** The run is a [ret] or a [raise]. *)
Ltac ends_now :=
  unfold ret, raise; do 2 eexists; (split; [reflexivity|]);
  try assumption; try (split; [assumption|]).

(** A loop over a list that stays as it is, with a body that ends, ends
    when it has fuel for the elements left. *)
Lemma for_list_ends (I : world -> Prop) a l body :
  (forall w, I w -> nth_error (heap w) a = Some (OList l)) ->
  (forall x w, In x l -> I w ->
               exists r w', body x w = Some (r, w') /\ I w') ->
  forall fuel i w,
    List.length l - i < fuel -> I w ->
    exists r w', for_list fuel a i body w = Some (r, w') /\ I w'.
Proof.
  intros Hl Hbody. induction fuel as [|fuel IH]; intros i w Hf HI; [lia|].
  cbn [for_list]. rewrite (run_load _ _ _ _ (Hl _ HI)).
  destruct (nth_error l i) as [x|] eqn:E.
  - destruct (Hbody x w (nth_error_In _ _ E) HI) as [[[]|e] [w1 [Hb HI1]]].
    + rewrite (run_bind_ok _ _ _ _ _ Hb). apply IH; [|exact HI1].
      apply nth_error_lt in E. lia.
    + rewrite (run_bind_raise _ _ _ _ _ Hb). eauto.
  - unfold ret. eauto.
Qed.

Lemma for_items_ends (I : world -> Prop) a d body :
  (forall w, I w -> nth_error (heap w) a = Some (ODict d)) ->
  (forall k v w, In (k, v) d -> I w ->
                 exists r w', body k v w = Some (r, w') /\ I w') ->
  forall fuel i w,
    List.length d - i < fuel -> I w ->
    exists r w',
      for_items fuel a (List.length d) i body w = Some (r, w') /\ I w'.
Proof.
  intros Hd Hbody. induction fuel as [|fuel IH]; intros i w Hf HI; [lia|].
  cbn [for_items]. rewrite (run_load _ _ _ _ (Hd _ HI)).
  rewrite Nat.eqb_refl. cbn [negb].
  destruct (nth_error d i) as [[k v]|] eqn:E.
  - destruct (Hbody k v w (nth_error_In _ _ E) HI) as [[[]|e] [w1 [Hb HI1]]].
    + rewrite (run_bind_ok _ _ _ _ _ Hb). apply IH; [|exact HI1].
      apply nth_error_lt in E. lia.
    + rewrite (run_bind_raise _ _ _ _ _ Hb). eauto.
  - unfold ret. eauto.
Qed.

(** A loop over a dict that stays as it is, with a body that ends and
    that raises at an entry still to come, raises. *)
Lemma for_items_raises (I : world -> Prop) a d body k v :
  (forall w, I w -> nth_error (heap w) a = Some (ODict d)) ->
  (forall k0 v0 w, In (k0, v0) d -> I w ->
                   exists r w', body k0 v0 w = Some (r, w') /\ I w') ->
  (forall w, I w -> exists e w', body k v w = Some (Raise e, w')) ->
  forall fuel i w,
    List.length d - i < fuel ->
    (exists j, i <= j /\ nth_error d j = Some (k, v)) -> I w ->
    exists e w',
      for_items fuel a (List.length d) i body w = Some (Raise e, w').
Proof.
  intros Hd Hbody Hraise.
  induction fuel as [|fuel IH]; intros i w Hf [j [Hij Hj]] HI; [lia|].
  cbn [for_items]. rewrite (run_load _ _ _ _ (Hd _ HI)).
  rewrite Nat.eqb_refl. cbn [negb].
  destruct (nth_error d i) as [[k0 v0]|] eqn:E.
  - destruct (Nat.eq_dec i j) as [->|Hne].
    + rewrite Hj in E. injection E as <- <-.
      destruct (Hraise w HI) as [e [w1 Hb]].
      rewrite (run_bind_raise _ _ _ _ _ Hb). eauto.
    + destruct (Hbody k0 v0 w (nth_error_In _ _ E) HI)
        as [[[]|e] [w1 [Hb HI1]]].
      * rewrite (run_bind_ok _ _ _ _ _ Hb). apply IH; [| |exact HI1].
        -- apply nth_error_lt in E. lia.
        -- exists j. split; [lia|exact Hj].
      * rewrite (run_bind_raise _ _ _ _ _ Hb). eauto.
  - apply nth_error_None in E. apply nth_error_lt in Hj. lia.
Qed.

(** *** A call on a closed store ends *)

Lemma alloc_then_ends o (m : addr -> M unit) w :
  (exists r w',
      m (List.length (heap w))
        {| heap := heap w ++ [o]; stdout := stdout w |} = Some (r, w')) ->
  exists r w',
    (cleaned <~ alloc o ;; (m cleaned ;;; ret (VRef cleaned))) w
    = Some (r, w').
Proof.
  intros [r [w2 Hm]]. unfold mbind, alloc. rewrite Hm.
  destruct r; unfold ret; eauto.
Qed.

Lemma alloc_then_raises o (m : addr -> M unit) w :
  (exists e w',
      m (List.length (heap w))
        {| heap := heap w ++ [o]; stdout := stdout w |}
      = Some (Raise e, w')) ->
  exists e w',
    (cleaned <~ alloc o ;; (m cleaned ;;; ret (VRef cleaned))) w
    = Some (Raise e, w').
Proof.
  intros [e [w2 Hm]]. unfold mbind, alloc. rewrite Hm. eauto.
Qed.

Lemma base_length h w : base h w -> List.length h <= List.length (heap w).
Proof.
  intros Hb.
  destruct (le_lt_dec (List.length h) (List.length (heap w))) as [|Hlt];
    [assumption|].
  destruct (nth_error h (List.length (heap w))) as [o|] eqn:E.
  - apply Hb in E. apply nth_error_lt in E. lia.
  - apply nth_error_None in E. lia.
Qed.

Section Store.
Variable fuel : nat.
Variable h0 : list object.
Hypothesis Hclosed : closed_store fuel h0 = true.

Lemma closed_at a o :
  nth_error h0 a = Some o ->
  closed_object (List.length h0) o = true /\ width o < fuel.
Proof.
  intros H. unfold closed_store in Hclosed. rewrite forallb_forall in Hclosed.
  specialize (Hclosed _ (nth_error_In _ _ H)).
  apply andb_prop in Hclosed. destruct Hclosed as [Hc Hw].
  apply Nat.ltb_lt in Hw. auto.
Qed.

Lemma closed_ref a :
  closed_value (List.length h0) (VRef a) = true ->
  exists o, nth_error h0 a = Some o.
Proof.
  cbn [closed_value]. intros H. apply Nat.ltb_lt in H.
  destruct (nth_error h0 a) as [o|] eqn:E; [eauto|].
  apply nth_error_None in E. lia.
Qed.

Lemma closed_entry d k v :
  closed_object (List.length h0) (ODict d) = true -> In (k, v) d ->
  closed_value (List.length h0) v = true.
Proof.
  cbn [closed_object]. rewrite forallb_forall. intros H Hin.
  apply (H (k, v) Hin).
Qed.

Lemma closed_elem l x :
  closed_object (List.length h0) (OList l) = true -> In x l ->
  closed_value (List.length h0) x = true.
Proof. cbn [closed_object]. rewrite forallb_forall. auto. Qed.

Section Calls.
Variable rec : value -> M value.
Hypothesis rec_frame : forall n x, frame_ok n (rec x).
Hypothesis rec_ends : forall x w,
  base h0 w -> closed_value (List.length h0) x = true ->
  exists r w', rec x w = Some (r, w').

Lemma copy_entry_ends c ex k v w :
  List.length h0 <= c -> closed_value (List.length h0) v = true ->
  base h0 w /\ dict_at c w ->
  exists r w',
    copy_entry rec c ex k v w = Some (r, w') /\ base h0 w' /\ dict_at c w'.
Proof.
  intros Hc Hv [Hb [d Hd]]. unfold copy_entry.
  destruct (str_in k ex); [ends_now; exists d; exact Hd|].
  destruct (rec_ends v w Hb Hv) as [r [w1 Hr]].
  assert (Hk := rec_frame _ v w r w1 (le_n _) Hr).
  assert (Hlt := nth_error_lt _ _ _ Hd).
  assert (Hd1 := keeps_at _ _ _ _ _ Hk Hlt Hd).
  destruct r as [v'|e].
  - rewrite (run_bind_ok _ _ _ _ _ Hr), (run_set_item _ _ _ _ _ Hd1).
    do 2 eexists. split; [reflexivity|]. split.
    + eapply base_stored; eassumption.
    + eexists. eapply stored_same; eassumption.
  - rewrite (run_bind_raise _ _ _ _ _ Hr).
    do 2 eexists. split; [reflexivity|]. split; [|eexists; exact Hd1].
    apply (base_keeps _ w); [exact Hb|]. eapply keeps_le; [|exact Hk]. lia.
Qed.

Lemma elem_ends c x w :
  List.length h0 <= c -> closed_value (List.length h0) x = true ->
  base h0 w /\ list_at c w ->
  exists r w',
    (elem' <~ rec x ;; append c elem') w = Some (r, w') /\
    base h0 w' /\ list_at c w'.
Proof.
  intros Hc Hv [Hb [l Hl]].
  destruct (rec_ends x w Hb Hv) as [r [w1 Hr]].
  assert (Hk := rec_frame _ x w r w1 (le_n _) Hr).
  assert (Hlt := nth_error_lt _ _ _ Hl).
  assert (Hl1 := keeps_at _ _ _ _ _ Hk Hlt Hl).
  destruct r as [x'|e].
  - rewrite (run_bind_ok _ _ _ _ _ Hr), (run_append _ _ _ _ Hl1).
    do 2 eexists. split; [reflexivity|]. split.
    + eapply base_stored; eassumption.
    + eexists. eapply stored_same; eassumption.
  - rewrite (run_bind_raise _ _ _ _ _ Hr).
    do 2 eexists. split; [reflexivity|]. split; [|eexists; exact Hl1].
    apply (base_keeps _ w); [exact Hb|]. eapply keeps_le; [|exact Hk]. lia.
Qed.

Lemma flatten_branch_ends c item w :
  List.length h0 <= c -> closed_value (List.length h0) item = true ->
  base h0 w /\ dict_at c w ->
  exists r w',
    flatten_branch fuel rec c item w = Some (r, w') /\
    base h0 w' /\ dict_at c w'.
Proof.
  intros Hc Hv HI. unfold flatten_branch.
  destruct item as [| | | | |e]; try solve [ends_now].
  destruct (closed_ref _ Hv) as [o Ho].
  destruct (closed_at _ _ Ho) as [Hco Hw].
  assert (He : forall w0, base h0 w0 /\ dict_at c w0 ->
                          nth_error (heap w0) e = Some o).
  { intros w0 [Hb0 _]. now apply Hb0. }
  rewrite (run_load _ _ _ _ (He _ HI)).
  destruct o as [it|l]; [|solve [ends_now]].
  destruct (is_null_branch it).
  - destruct HI as [Hb [d Hd]]. rewrite (run_set_item _ _ _ _ _ Hd).
    do 2 eexists. split; [reflexivity|]. split.
    + eapply base_stored; [exact Hb|apply keeps_refl|exact Hc].
    + eexists. eapply stored_same; [apply keeps_refl|exact Hd].
  - apply (for_items_ends (fun w0 => base h0 w0 /\ dict_at c w0) e it).
    + exact He.
    + intros k v w0 Hin HI0. apply copy_entry_ends; [exact Hc| |exact HI0].
      eapply closed_entry; eassumption.
    + cbn [width] in Hw. lia.
    + exact HI.
Qed.

Lemma flatten_union_ends c any_of w :
  List.length h0 <= c -> closed_value (List.length h0) any_of = true ->
  base h0 w /\ dict_at c w ->
  exists r w',
    flatten_union fuel rec c any_of w = Some (r, w') /\
    base h0 w' /\ dict_at c w'.
Proof.
  intros Hc Hv HI. unfold flatten_union.
  destruct any_of as [| | | |[|]|b]; try solve [ends_now].
  destruct (closed_ref _ Hv) as [o Ho].
  destruct (closed_at _ _ Ho) as [Hco Hw].
  assert (Hb : forall w0, base h0 w0 /\ dict_at c w0 ->
                          nth_error (heap w0) b = Some o).
  { intros w0 [Hb0 _]. now apply Hb0. }
  rewrite (run_load _ _ _ _ (Hb _ HI)).
  destruct o as [[|]|items]; [solve [ends_now]|solve [ends_now]|].
  apply (for_list_ends (fun w0 => base h0 w0 /\ dict_at c w0) b items).
  - exact Hb.
  - intros x w0 Hin HI0. apply flatten_branch_ends; [exact Hc| |exact HI0].
    eapply closed_elem; eassumption.
  - cbn [width] in Hw. lia.
  - exact HI.
Qed.

End Calls.

(** With any number of frames, a call on a value of a closed store ends:
    it returns or raises, in a world in which the store still is. *)
Lemma bounded_ends frames : forall schema w,
  base h0 w -> closed_value (List.length h0) schema = true ->
  exists r w', HeapBounded.clean_schema fuel frames schema w = Some (r, w').
Proof.
  induction frames as [|frames IH]; intros schema w Hb Hv;
    [unfold HeapBounded.clean_schema, raise; eauto|].
  cbn [HeapBounded.clean_schema].
  destruct schema as [| | | | |a]; try (unfold ret; eauto).
  destruct (closed_ref _ Hv) as [o Ho].
  destruct (closed_at _ _ Ho) as [Hco Hw].
  rewrite (run_load _ _ _ _ (Hb _ _ Ho)).
  assert (Hlen := base_length _ _ Hb).
  destruct o as [d|l].
  - set (w1 := {| heap := heap w ++ [ODict []]; stdout := stdout w |}).
    assert (HI : base h0 w1 /\ dict_at (List.length (heap w)) w1).
    { split.
      - intros b ob Hob. apply (base_alloc w (ODict [])). now apply Hb.
      - exists []. apply nth_error_alloc. }
    assert (Hrun := fun m => alloc_then_ends (ODict []) m w).
    destruct (dict_get "anyOf" d) as [any_of|] eqn:Eu.
    + destruct (flatten_union_ends (HeapBounded.clean_schema fuel frames)
                  (frame_bounded fuel frames) IH
                  (List.length (heap w)) any_of w1 Hlen)
        as [r [w2 [Hm _]]]; [|exact HI|].
      { eapply closed_entry; [exact Hco|].
        eapply dict_get_Some_In; eassumption. }
      apply (Hrun (fun cleaned =>
                     flatten_union fuel (HeapBounded.clean_schema fuel frames)
                       cleaned any_of)). eauto.
    + destruct (for_items_ends
                  (fun w0 => base h0 w0 /\ dict_at (List.length (heap w)) w0)
                  a d
                  (copy_entry (HeapBounded.clean_schema fuel frames)
                     (List.length (heap w)) Schema.copy_excluded))
        with (fuel := fuel) (i := 0) (w := w1) as [r [w2 [Hm _]]].
      * intros w0 [Hb0 _]. now apply Hb0.
      * intros k v w0 Hin HI0.
        apply (copy_entry_ends (HeapBounded.clean_schema fuel frames)
                 (frame_bounded fuel frames) IH); [exact Hlen| |exact HI0].
        eapply closed_entry; eassumption.
      * cbn [width] in Hw. lia.
      * exact HI.
      * apply (Hrun (fun cleaned =>
                       for_items fuel a (List.length d) 0
                         (copy_entry (HeapBounded.clean_schema fuel frames)
                            cleaned Schema.copy_excluded))). eauto.
  - set (w1 := {| heap := heap w ++ [OList []]; stdout := stdout w |}).
    assert (HI : base h0 w1 /\ list_at (List.length (heap w)) w1).
    { split.
      - intros b ob Hob. apply (base_alloc w (OList [])). now apply Hb.
      - exists []. apply nth_error_alloc. }
    destruct (for_list_ends
                (fun w0 => base h0 w0 /\ list_at (List.length (heap w)) w0)
                a l
                (fun elem =>
                   elem' <~ HeapBounded.clean_schema fuel frames elem ;;
                   append (List.length (heap w)) elem'))
      with (fuel := fuel) (i := 0) (w := w1) as [r [w2 [Hm _]]].
    + intros w0 [Hb0 _]. now apply Hb0.
    + intros x w0 Hin HI0.
      apply (elem_ends (HeapBounded.clean_schema fuel frames)
               (frame_bounded fuel frames) IH); [exact Hlen| |exact HI0].
      eapply closed_elem; eassumption.
    + cbn [width] in Hw. lia.
    + exact HI.
    + apply (alloc_then_ends (OList [])
               (fun cleaned =>
                  for_list fuel a 0
                    (fun elem =>
                       elem' <~ HeapBounded.clean_schema fuel frames elem ;;
                       append cleaned elem'))).
      eauto.
Qed.

(** A dict that has itself under a key the walk does not drop: the call
    on it does not return, whatever the limit. *)
Lemma self_reference_raises a d k :
  nth_error h0 a = Some (ODict d) ->
  dict_get "anyOf" d = None ->
  In (k, VRef a) d ->
  str_in k Schema.copy_excluded = false ->
  forall frames w,
    base h0 w ->
    exists e w',
      HeapBounded.clean_schema fuel frames (VRef a) w = Some (Raise e, w').
Proof.
  intros Ho Hany Hin Hk.
  destruct (closed_at _ _ Ho) as [Hco Hw].
  induction frames as [|frames IH]; intros w Hb;
    [unfold HeapBounded.clean_schema, raise; eauto|].
  cbn [HeapBounded.clean_schema].
  rewrite (run_load _ _ _ _ (Hb _ _ Ho)).
  assert (Hlen := base_length _ _ Hb).
  destruct (dict_get "anyOf" d) as [any_of|]; [discriminate|].
  apply (alloc_then_raises (ODict [])
           (fun cleaned =>
              for_items fuel a (List.length d) 0
                (copy_entry (HeapBounded.clean_schema fuel frames)
                   cleaned Schema.copy_excluded))).
  destruct (In_nth_error _ _ Hin) as [j Hj].
  apply (for_items_raises
           (fun w0 => base h0 w0 /\ dict_at (List.length (heap w)) w0)
           a d _ k (VRef a)).
  - intros w0 [Hb0 _]. now apply Hb0.
  - intros k0 v0 w0 Hin0 HI0.
    apply (copy_entry_ends (HeapBounded.clean_schema fuel frames)
             (frame_bounded fuel frames) (bounded_ends frames));
      [exact Hlen| |exact HI0].
    eapply closed_entry; eassumption.
  - intros w0 [Hb0 _]. unfold copy_entry. rewrite Hk.
    destruct (IH w0 Hb0) as [e [w1 Hr]].
    rewrite (run_bind_raise _ _ _ _ _ Hr). eauto.
  - cbn [width] in Hw. lia.
  - exists j. split; [lia|exact Hj].
  - split.
    + intros b ob Hob. apply (base_alloc w (ODict [])). now apply Hb.
    + exists []. apply nth_error_alloc.
Qed.

End Store.

End HeapBoundedFacts.

Module HeapExtras.
Import Py Heap HeapBounded HeapFacts HeapBoundedFacts.

(** X24.  On every store without dangling references, objects that are
    shared or refer to themselves included, and with any recursion limit,
    a call of [clean_schema] ends, by returning or by raising; it has
    printed nothing, no object is gone, and every object that was in the
    store is as it was: the call wrote only to objects it made itself.  On
    a dict that has itself under a key the walk does not drop the call
    ends by raising, whatever the limit. *)
Theorem clean_schema_frame fuel frames schema w :
  closed_store fuel (heap w) = true ->
  closed_value (List.length (heap w)) schema = true ->
  (exists r w',
      HeapBounded.clean_schema fuel frames schema w = Some (r, w') /\
      stdout w' = stdout w /\
      List.length (heap w) <= List.length (heap w') /\
      forall a o,
        nth_error (heap w) a = Some o -> nth_error (heap w') a = Some o) /\
  (forall a d k,
      schema = VRef a ->
      nth_error (heap w) a = Some (ODict d) ->
      dict_get "anyOf" d = None ->
      In (k, VRef a) d ->
      str_in k Schema.copy_excluded = false ->
      exists e w',
        HeapBounded.clean_schema fuel frames schema w = Some (Raise e, w')).
Proof.
  intros Hs Hv.
  assert (Hb : base (heap w) w) by (intros a o Ha; exact Ha).
  split.
  - destruct (bounded_ends fuel (heap w) Hs frames schema w Hb Hv)
      as [r [w' H]].
    exists r, w'. split; [exact H|].
    destruct (frame_bounded fuel frames (List.length (heap w)) schema w r w'
                (le_n _) H) as [Hout [Hlen Hsame]].
    split; [exact Hout|]. split; [exact Hlen|].
    intros a o Ha. rewrite Hsame; [exact Ha|].
    eapply nth_error_lt; eassumption.
  - intros a d k -> Ho Hany Hin Hk.
    exact (self_reference_raises fuel (heap w) Hs a d k Ho Hany Hin Hk
             frames w Hb).
Qed.

Lemma clean_schema_frame_witness :
  (exists r w',
      HeapBounded.clean_schema 3 4 (VRef 1) knot = Some (r, w') /\
      stdout w' = stdout knot /\
      List.length (heap knot) <= List.length (heap w') /\
      forall a o,
        nth_error (heap knot) a = Some o -> nth_error (heap w') a = Some o) /\
  (exists e w',
      HeapBounded.clean_schema 3 4 (VRef 0) knot = Some (Raise e, w')).
Proof.
  split.
  - apply (proj1 (clean_schema_frame 3 4 (VRef 1) knot eq_refl eq_refl)).
  - apply (proj2 (clean_schema_frame 3 4 (VRef 0) knot eq_refl eq_refl)
             0 [("type", VStr "array"); ("items", VRef 0)] "items").
    + reflexivity.
    + reflexivity.
    + reflexivity.
    + right. left. reflexivity.
    + reflexivity.
Defined.

End HeapExtras.
